(** * bungie_client: a shallow embedding of the Bungie API client

    The development follows the three source modules:
    - [exceptions.py]: the exception classes of the package;
    - [utils.py]: [build_url] and [handle_bungie_response];
    - [client.py]: [BungieClient] with [_make_request] and the three
      request builders.

    Python values decoded from JSON are an inductive type whose dicts are
    stdpp finite maps.  A Python [str] is modelled by the string of its
    UTF-8 bytes; every character the [str] methods of the code inspect
    is ASCII, and an ASCII byte never occurs inside a multi-byte
    sequence, so searching, splitting and stripping act on the bytes as
    they act on the code points.  [int] alone reads characters outside
    ASCII, and decodes the bytes for it.  Time stamps are exact
    rationals: the rounding of the IEEE doubles that [time.time()]
    returns is not represented. *)

From Stdlib Require Import ZArith QArith Floats DecimalString DecimalPos Ascii String List
  Bool Lia Lqa.
From stdpp Require Import base option list gmap strings.

#[local] Set Warnings "-register-all".
#[local] Open Scope string_scope.
#[local] Open Scope Z_scope.

(** ** Python [str] methods used by the sources *)

Module Str.

Definition is_char (c : ascii) : ascii -> bool := Ascii.eqb c.

(** [all(p(c) for c in s)] *)
Fixpoint all (p : ascii -> bool) (s : string) : bool :=
  match s with
  | EmptyString => true
  | String c s' => p c && all p s'
  end.

(** [c in s] *)
Fixpoint contains (c : ascii) (s : string) : bool :=
  match s with
  | EmptyString => false
  | String x s' => Ascii.eqb x c || contains c s'
  end.

(** [x in chars], for a character [x] *)
Definition among (chars : string) (x : ascii) : bool := contains x chars.

(** [s.lstrip(chars)], the set of characters given as a predicate *)
Fixpoint lstrip (p : ascii -> bool) (s : string) : string :=
  match s with
  | EmptyString => EmptyString
  | String c s' => if p c then lstrip p s' else s
  end.

(** [s.rstrip(chars)] *)
Fixpoint rstrip (p : ascii -> bool) (s : string) : string :=
  match s with
  | EmptyString => EmptyString
  | String c s' =>
      match rstrip p s' with
      | EmptyString => if p c then EmptyString else String c EmptyString
      | r => String c r
      end
  end.

(** [s.replace(c, "")] for every [c] of a set *)
Fixpoint remove (p : ascii -> bool) (s : string) : string :=
  match s with
  | EmptyString => EmptyString
  | String c s' => if p c then remove p s' else String c (remove p s')
  end.

(** [s.split(c, 1)] when [c in s]: the text before the first [c] and
    the text after it; [None] when [c] does not occur. *)
Fixpoint partition (c : ascii) (s : string) : option (string * string) :=
  match s with
  | EmptyString => None
  | String x s' =>
      if Ascii.eqb x c then Some (EmptyString, s')
      else match partition c s' with
           | Some (a, b) => Some (String x a, b)
           | None => None
           end
  end.

(** The same at the last occurrence of [c] ([s.rpartition(c)]). *)
Fixpoint rpartition (c : ascii) (s : string) : option (string * string) :=
  match s with
  | EmptyString => None
  | String x s' =>
      match rpartition c s' with
      | Some (a, b) => Some (String x a, b)
      | None => if Ascii.eqb x c then Some (EmptyString, s') else None
      end
  end.

(** The longest prefix whose characters satisfy [p], and the rest. *)
Fixpoint span (p : ascii -> bool) (s : string) : string * string :=
  match s with
  | EmptyString => (EmptyString, EmptyString)
  | String x s' =>
      if p x then let '(a, b) := span p s' in (String x a, b)
      else (EmptyString, s)
  end.

(** [s.split(c)]: never the empty list. *)
Fixpoint split (c : ascii) (s : string) : list string :=
  match s with
  | EmptyString => [EmptyString]
  | String x s' =>
      if Ascii.eqb x c then EmptyString :: split c s'
      else match split c s' with
           | h :: t => String x h :: t
           | [] => [String x EmptyString]
           end
  end.

(** [sep.join(l)] *)
Fixpoint join (sep : string) (l : list string) : string :=
  match l with
  | [] => EmptyString
  | [x] => x
  | x :: l' => x +:+ sep +:+ join sep l'
  end.

Definition is_upper (c : ascii) : bool :=
  let n := nat_of_ascii c in (65 <=? n)%nat && (n <=? 90)%nat.

Definition is_lower (c : ascii) : bool :=
  let n := nat_of_ascii c in (97 <=? n)%nat && (n <=? 122)%nat.

Definition is_digit (c : ascii) : bool :=
  let n := nat_of_ascii c in (48 <=? n)%nat && (n <=? 57)%nat.

(** [c.isascii()] *)
Definition is_ascii (c : ascii) : bool := (nat_of_ascii c <? 128)%nat.

(** [c.isascii() and c.isalpha()] *)
Definition is_ascii_alpha (c : ascii) : bool := is_upper c || is_lower c.

Definition lower_char (c : ascii) : ascii :=
  if is_upper c then ascii_of_nat (nat_of_ascii c + 32) else c.

(** [s.lower()] on the ASCII letters; the other bytes are kept.  The
    only characters outside ASCII that Python lowers to an ASCII letter
    are U+212A (to k) and U+0130 (to i followed by U+0307). *)
Fixpoint lower (s : string) : string :=
  match s with
  | EmptyString => EmptyString
  | String c s' => String (lower_char c) (lower s')
  end.

(** [s[:n]] and [s[n:]] *)
Fixpoint take (n : nat) (s : string) : string :=
  match n, s with
  | S n', String c s' => String c (take n' s')
  | _, _ => EmptyString
  end.

Fixpoint drop (n : nat) (s : string) : string :=
  match n, s with
  | S n', String _ s' => drop n' s'
  | _, _ => s
  end.

Definition nonempty (s : string) : bool :=
  match s with EmptyString => false | _ => true end.

(** [s.startswith(pre)], also written [s[:n] == pre] *)
Fixpoint startswith (pre s : string) : bool :=
  match pre with
  | EmptyString => true
  | String a pre' =>
      match s with
      | EmptyString => false
      | String b s' => Ascii.eqb a b && startswith pre' s'
      end
  end.

(** The decimal text of an [int]: what [str(n)] returns when it
    returns.  [str_int] below is [str(n)] with the limit on the number
    of digits. *)
Definition of_Z (n : Z) : string := NilZero.string_of_int (Z.to_int n).

End Str.

(** ** Python values and exceptions *)

(** What [response.json()] can return: [None], [bool], [int], [float],
    [str], [list] and [dict] with string keys. *)
Inductive value : Type :=
| VNone
| VBool (b : bool)
| VInt (n : Z)
| VFloat (f : float)
| VStr (s : string)
| VList (l : list value)
| VDict (d : gmap string value).

(** ** httpx: the objects the client exchanges with the transport *)

Module httpx.

(** What [response.json()] raises on a body that it cannot decode:
    [json.JSONDecodeError] on text that is not a JSON document,
    [UnicodeDecodeError] on bytes that are not text in the encoding
    found, [ValueError] on an integer literal with more digits than
    [int] accepts, and [RecursionError] on a document nested too deep.
    None of them is a class of [httpx]. *)
Inductive json_error : Type :=
| NotJSON
| NotUnicode
| IntegerTooLong
| NestedTooDeep.

(** The outcome of [response.json()]. *)
Inductive json_outcome : Type :=
| Decoded (body : value)
| Undecodable (e : json_error).

(** An [httpx.Response] as far as the client reads it. *)
Record Response : Type := {
  status_code : Z;
  headers : list (string * string);
  json : json_outcome
}.

(** The arguments of [AsyncClient.request]. *)
Record Request : Type := {
  method : string;
  url : string;
  params : option (gmap string value);
  json_data : option (gmap string value)
}.

(** [Headers.get(key)]: header names compare without regard to case,
    and the values of a repeated header are joined by a comma and a
    space; [None] when no header has the name. *)
Definition Headers_get (h : list (string * string)) (key : string) : option string :=
  match List.filter (fun kv => String.eqb (Str.lower (fst kv)) (Str.lower key)) h with
  | [] => None
  | items => Some (Str.join ", " (List.map snd items))
  end.

(** [Response.is_success] *)
Definition is_success (r : Response) : bool :=
  (200 <=? status_code r) && (status_code r <=? 299).

End httpx.

(** *** exceptions.py *)

Inductive exception_class : Type :=
| BungieAPIException
| BungieRateLimitException
| BungieMaintenanceException.

(** The object kept in the [response] attribute of an exception. *)
Inductive attached : Type :=
| NoResponse
| HttpResponse (r : httpx.Response)
| Envelope (d : gmap string value).

(** [BungieAPIException.__init__(self, message, error_code=None,
    response=None)]; the two subclasses add nothing. *)
Record bungie_error : Type := new_error {
  cls : exception_class;
  message : string;
  error_code : value;
  response : attached
}.

(** The exceptions that cross the client: its own, the two [httpx]
    classes it catches, and the built-in ones its calls can raise. *)
Inductive exn : Type :=
| Bungie (e : bungie_error)
| HTTPStatusError (msg : string) (r : httpx.Response)
| RequestError (msg : string)
| ValueError
| AttributeError
| JSONDecodeError
| UnicodeDecodeError
| RecursionError
| OtherError (name : string).

Inductive result (A : Type) : Type :=
| Return (a : A)
| Raise (e : exn).
Arguments Return {A} a.
Arguments Raise {A} e.

Definition bind_result {A B : Type} (r : result A) (k : A -> result B) : result B :=
  match r with
  | Return a => k a
  | Raise e => Raise e
  end.

(** The parts of CPython and [httpx] the code calls and this development
    does not define: they are parameters of every definition below. *)
Class Library : Type := {
  (** [repr(v)] of a [float], a [list] or a [dict] *)
  repr_compound : value -> string;
  (** [urllib.parse._check_bracketed_host(hostname)] returns (it raises
      [ValueError] otherwise) *)
  bracketed_host_ok : string -> bool;
  (** [urllib.parse._checknetloc(netloc)] raises [ValueError] on a
      netloc with characters outside ASCII (its NFKC form holds one of
      [/?#@:]) *)
  nfkc_rejected : string -> bool;
  (** [str(e)] of the [HTTPStatusError] that [raise_for_status] raises *)
  status_error_text : httpx.Response -> string;
  (** [sys.get_int_max_str_digits()]: the most digits that [int] reads
      and [str] writes, or 0 for no limit; 4300 unless the interpreter
      is started or told otherwise *)
  int_max_str_digits : Z
}.

(** [not v] is [negb (truthy v)] *)
Definition truthy (v : value) : bool :=
  match v with
  | VNone => false
  | VBool b => b
  | VInt n => negb (n =? 0)
  | VFloat f => negb (PrimFloat.eqb f 0%float)
  | VStr s => Str.nonempty s
  | VList l => negb (Nat.eqb (length l) 0)
  | VDict d => negb (Nat.eqb (size d) 0)
  end.

(** [v == 1]: besides the [int] 1, [True == 1] and [1.0 == 1] hold. *)
Definition eq_1 (v : value) : bool :=
  match v with
  | VInt m => m =? 1
  | VBool b => b
  | VFloat f => PrimFloat.eqb f 1%float
  | _ => false
  end.

(** [str(v)], as an f-string formats a value.  The values are those
    of a decoded body: an [int] among them has no more digits than
    [int] reads, since [response.json()] raises on a longer literal, and
    so [str] writes it. *)
Definition str `{Library} (v : value) : string :=
  match v with
  | VNone => "None"
  | VBool true => "True"
  | VBool false => "False"
  | VInt n => Str.of_Z n
  | VStr s => s
  | _ => repr_compound v
  end.

(** [d.get(key, default)] *)
Definition dict_get (d : gmap string value) (key : string) (default : value) : value :=
  match d !! key with
  | Some v => v
  | None => default
  end.

(** ** urllib.parse (CPython 3.11, Lib/urllib/parse.py)

    [urljoin] and what it calls, for [str] arguments and the default
    [allow_fragments=True]. *)

Module urllib.

Definition uses_relative : list string :=
  [""; "ftp"; "http"; "gopher"; "nntp"; "imap";
   "wais"; "file"; "https"; "shttp"; "mms";
   "prospero"; "rtsp"; "rtspu"; "sftp";
   "svn"; "svn+ssh"; "ws"; "wss"].

Definition uses_netloc : list string :=
  [""; "ftp"; "http"; "gopher"; "nntp"; "telnet";
   "imap"; "wais"; "file"; "mms"; "https"; "shttp";
   "snews"; "prospero"; "rtsp"; "rtspu"; "rsync";
   "svn"; "svn+ssh"; "sftp"; "nfs"; "git"; "git+ssh";
   "ws"; "wss"].

Definition uses_params : list string :=
  [""; "ftp"; "hdl"; "prospero"; "http"; "imap";
   "https"; "shttp"; "rtsp"; "rtspu"; "sip"; "sips";
   "mms"; "sftp"; "tel"].

(** [scheme in l] *)
Definition member (scheme : string) (l : list string) : bool :=
  existsb (String.eqb scheme) l.

Definition scheme_chars (c : ascii) : bool :=
  Str.is_lower c || Str.is_upper c || Str.is_digit c || Str.among "+-." c.

(** The characters 0x00 to 0x20. *)
Definition _WHATWG_C0_CONTROL_OR_SPACE (c : ascii) : bool :=
  (nat_of_ascii c <=? 32)%nat.

(** Tab, carriage return and line feed. *)
Definition _UNSAFE_URL_BYTES_TO_REMOVE (c : ascii) : bool :=
  let n := nat_of_ascii c in
  Nat.eqb n 9 || Nat.eqb n 13 || Nat.eqb n 10.

Record SplitResult : Type := {
  s_scheme : string; s_netloc : string; s_path : string;
  s_query : string; s_fragment : string
}.

Record ParseResult : Type := {
  scheme : string; netloc : string; path : string;
  params : string; query : string; fragment : string
}.

(** [_splitnetloc(url, 2)]: the domain runs from position 2 to the
    first of [/?#]. *)
Definition _splitnetloc (url : string) : string * string :=
  Str.span (fun c => negb (Str.among "/?#" c)) (Str.drop 2 url).

(** [_check_bracketed_netloc(netloc)] returns *)
Definition _check_bracketed_netloc `{Library} (netloc : string) : bool :=
  let hostname_and_port :=
    match Str.rpartition "@" netloc with
    | Some (_, after) => after
    | None => netloc
    end in
  match Str.partition "[" hostname_and_port with
  | Some (before_bracket, bracketed) =>
      if Str.nonempty before_bracket then false
      else
        let '(hostname, port) :=
          match Str.partition "]" bracketed with
          | Some (h, p) => (h, p)
          | None => (bracketed, EmptyString)
          end in
        if Str.nonempty port && negb (Str.startswith ":" port) then false
        else bracketed_host_ok hostname
  | None =>
      let hostname :=
        match Str.partition ":" hostname_and_port with
        | Some (h, _) => h
        | None => hostname_and_port
        end in
      bracketed_host_ok hostname
  end.

(** [_checknetloc(netloc)] returns *)
Definition _checknetloc `{Library} (netloc : string) : bool :=
  if negb (Str.nonempty netloc) || Str.all Str.is_ascii netloc then true
  else negb (nfkc_rejected netloc).

Definition urlsplit `{Library} (url scheme : string) : result SplitResult :=
  let url := Str.lstrip _WHATWG_C0_CONTROL_OR_SPACE url in
  let scheme :=
    Str.rstrip _WHATWG_C0_CONTROL_OR_SPACE
      (Str.lstrip _WHATWG_C0_CONTROL_OR_SPACE scheme) in
  let url := Str.remove _UNSAFE_URL_BYTES_TO_REMOVE url in
  let scheme := Str.remove _UNSAFE_URL_BYTES_TO_REMOVE scheme in
  (* i = url.find(':'); if i > 0 and url[0] is an ASCII letter and
     every character of url[:i] is a scheme character *)
  let '(scheme, url) :=
    match Str.partition ":" url with
    | Some (String c0 rest as before, after) =>
        if Str.is_ascii_alpha c0 && Str.all scheme_chars before
        then (Str.lower before, after)
        else (scheme, url)
    | _ => (scheme, url)
    end in
  let '(netloc, url) :=
    if Str.startswith "//" url then _splitnetloc url
    else (EmptyString, url) in
  let has_open := Str.contains "[" netloc in
  let has_close := Str.contains "]" netloc in
  if (has_open && negb has_close) || (has_close && negb has_open)
  then Raise ValueError
  else if has_open && has_close && negb (_check_bracketed_netloc netloc)
  then Raise ValueError
  else
    let '(url, fragment) :=
      match Str.partition "#" url with
      | Some (u, f) => (u, f)
      | None => (url, EmptyString)
      end in
    let '(url, query) :=
      match Str.partition "?" url with
      | Some (u, q) => (u, q)
      | None => (url, EmptyString)
      end in
    if _checknetloc netloc
    then Return {| s_scheme := scheme; s_netloc := netloc; s_path := url;
                   s_query := query; s_fragment := fragment |}
    else Raise ValueError.

(** Called when [';' in url]: the parameters are cut from the last
    segment of the path. *)
Definition _splitparams (url : string) : string * string :=
  match Str.rpartition "/" url with
  | Some (dir, last) =>
      match Str.partition ";" last with
      | Some (a, b) => (dir +:+ "/" +:+ a, b)
      | None => (url, EmptyString)
      end
  | None =>
      match Str.partition ";" url with
      | Some (a, b) => (a, b)
      | None => (url, EmptyString)
      end
  end.

Definition urlparse `{Library} (url scheme : string) : result ParseResult :=
  bind_result (urlsplit url scheme) (fun r =>
    let '(url, params) :=
      if member (s_scheme r) uses_params && Str.contains ";" (s_path r)
      then _splitparams (s_path r)
      else (s_path r, EmptyString) in
    Return {| scheme := s_scheme r; netloc := s_netloc r; path := url;
              params := params; query := s_query r;
              fragment := s_fragment r |}).

Definition urlunsplit (r : SplitResult) : string :=
  let url := s_path r in
  let url :=
    if Str.nonempty (s_netloc r)
       || (Str.nonempty (s_scheme r) && member (s_scheme r) uses_netloc
           && negb (Str.startswith "//" url))
    then
      let url :=
        if Str.nonempty url && negb (Str.startswith "/" url)
        then "/" +:+ url else url in
      "//" +:+ s_netloc r +:+ url
    else url in
  let url :=
    if Str.nonempty (s_scheme r) then s_scheme r +:+ ":" +:+ url else url in
  let url :=
    if Str.nonempty (s_query r) then url +:+ "?" +:+ s_query r else url in
  if Str.nonempty (s_fragment r) then url +:+ "#" +:+ s_fragment r else url.

Definition urlunparse (r : ParseResult) : string :=
  let url :=
    if Str.nonempty (params r) then path r +:+ ";" +:+ params r
    else path r in
  urlunsplit {| s_scheme := scheme r; s_netloc := netloc r; s_path := url;
                s_query := query r; s_fragment := fragment r |}.

(** [segments[1:-1] = filter(None, segments[1:-1])] *)
Definition filter_middle (segments : list string) : list string :=
  match segments with
  | first :: (_ :: _) as rest =>
      (first :: List.filter Str.nonempty (removelast rest)
             ++ [List.last rest EmptyString])%list
  | _ => segments
  end.

(** The loop over [segments] that builds [resolved_path]. *)
Definition resolve (segments : list string) : list string :=
  fold_left
    (fun resolved_path seg =>
       if String.eqb seg ".." then removelast resolved_path
       else if String.eqb seg "." then resolved_path
       else (resolved_path ++ [seg])%list)
    segments [].

Definition urljoin `{Library} (base url : string) : result string :=
  if negb (Str.nonempty base) then Return url
  else if negb (Str.nonempty url) then Return base
  else
    bind_result (urlparse base EmptyString) (fun b =>
    bind_result (urlparse url (scheme b)) (fun u =>
      if negb (String.eqb (scheme u) (scheme b))
         || negb (member (scheme u) uses_relative)
      then Return url
      else if member (scheme u) uses_netloc && Str.nonempty (netloc u)
      then Return (urlunparse u)
      else
        let netloc :=
          if member (scheme u) uses_netloc then netloc b else netloc u in
        if negb (Str.nonempty (path u)) && negb (Str.nonempty (params u))
        then
          Return (urlunparse
            {| scheme := scheme u; netloc := netloc; path := path b;
               params := params b;
               query := if Str.nonempty (query u) then query u else query b;
               fragment := fragment u |})
        else
          let base_parts := Str.split "/" (path b) in
          let base_parts :=
            if Str.nonempty (List.last base_parts EmptyString)
            then removelast base_parts else base_parts in
          let segments :=
            if Str.startswith "/" (path u) then Str.split "/" (path u)
            else filter_middle (base_parts ++ Str.split "/" (path u))%list in
          let resolved_path := resolve segments in
          let resolved_path :=
            let l := List.last segments EmptyString in
            if String.eqb l "." || String.eqb l ".."
            then (resolved_path ++ [EmptyString])%list else resolved_path in
          let joined := Str.join "/" resolved_path in
          Return (urlunparse
            {| scheme := scheme u; netloc := netloc;
               path := if Str.nonempty joined then joined else "/";
               params := params u; query := query u;
               fragment := fragment u |}))).

End urllib.

(** ** utils.py *)

(** [urljoin(base_url.rstrip('/') + '/', path.lstrip('/'))] *)
Definition build_url `{Library} (base_url path : string) : result string :=
  urllib.urljoin (Str.rstrip (Str.is_char "/") base_url +:+ "/")
                 (Str.lstrip (Str.is_char "/") path).

Definition handle_bungie_response `{Library} (response_data : value) : result value :=
  match response_data with
  | VDict d =>
      if negb (truthy (dict_get d "Response" VNone))
         && negb (eq_1 (dict_get d "ErrorCode" VNone))
      then
        let error_status := dict_get d "ErrorStatus" (VStr "Unknown Error") in
        let error_code := dict_get d "ErrorCode" (VInt 0) in
        let message := dict_get d "Message" (VStr "No error message provided") in
        Raise (Bungie (new_error BungieAPIException
                         (str error_status +:+ ": " +:+ str message)
                         error_code
                         (Envelope d)))
      else Return (dict_get d "Response" response_data)
  | _ => Raise AttributeError  (* no method [get] *)
  end.

(** ** Built-ins and [httpx] methods called by client.py *)

(** *** [int] and [str] on integers (CPython 3.11, Objects/longobject.c
    and Objects/unicodeobject.c) *)

(** The limit on the digits of a conversion between [int] and [str]:
    a number of more than 640 digits is refused when the limit of the
    interpreter is set and the number has more digits than the limit. *)
Definition exceeds_limit `{Library} (digits : Z) : bool :=
  (640 <? digits) && (0 <? int_max_str_digits) && (int_max_str_digits <? digits).

(** [str(n)], also what an f-string writes for [{n}]: [ValueError] when
    [n] has more digits than the limit. *)
Definition str_int `{Library} (n : Z) : result string :=
  let text := Str.of_Z n in
  let digits := Z.of_nat (String.length text) - (if n <? 0 then 1 else 0) in
  if exceeds_limit digits then Raise ValueError else Return text.

(** A [str] is kept as its UTF-8 bytes; [int] looks at its code
    points.  [ord] is the number of a byte; [continuation], [decode2],
    [decode3] and [decode4] give the code point of a sequence of bytes,
    [None] when the bytes are not the UTF-8 form of a code point. *)
Definition ord (c : ascii) : Z := Z.of_nat (nat_of_ascii c).

Definition continuation (c : ascii) : option Z :=
  if (0x80 <=? ord c) && (ord c <=? 0xBF) then Some (ord c - 0x80) else None.

Definition decode2 (n0 : Z) (b1 : ascii) : option Z :=
  match continuation b1 with
  | Some n1 => Some ((n0 - 0xC0) * 64 + n1)
  | None => None
  end.

Definition decode3 (n0 : Z) (b1 b2 : ascii) : option Z :=
  match continuation b1, continuation b2 with
  | Some n1, Some n2 =>
      let cp := (n0 - 0xE0) * 4096 + n1 * 64 + n2 in
      if (0x800 <=? cp) && negb ((0xD800 <=? cp) && (cp <=? 0xDFFF))
      then Some cp else None
  | _, _ => None
  end.

Definition decode4 (n0 : Z) (b1 b2 b3 : ascii) : option Z :=
  match continuation b1, continuation b2, continuation b3 with
  | Some n1, Some n2, Some n3 =>
      let cp := (n0 - 0xF0) * 262144 + n1 * 4096 + n2 * 64 + n3 in
      if (0x10000 <=? cp) && (cp <=? 0x10FFFF) then Some cp else None
  | _, _, _ => None
  end.

(** The code points of a string, [None] in place of bytes that encode
    none. *)
Fixpoint code_points (s : string) : list (option Z) :=
  match s with
  | EmptyString => []
  | String b0 s1 =>
      let n0 := ord b0 in
      if n0 <? 0x80 then Some n0 :: code_points s1
      else
        match s1 with
        | String b1 s2 =>
            if (0xC2 <=? n0) && (n0 <=? 0xDF) then decode2 n0 b1 :: code_points s2
            else
              match s2 with
              | String b2 s3 =>
                  if (0xE0 <=? n0) && (n0 <=? 0xEF)
                  then decode3 n0 b1 b2 :: code_points s3
                  else
                    match s3 with
                    | String b3 s4 =>
                        if (0xF0 <=? n0) && (n0 <=? 0xF4)
                        then decode4 n0 b1 b2 b3 :: code_points s4
                        else [None]
                    | EmptyString => [None]
                    end
              | EmptyString => [None]
              end
        | EmptyString => [None]
        end
  end.

(** [Py_UNICODE_ISSPACE(ch)] for a code point of 127 or more. *)
Definition unicode_space (cp : Z) : bool :=
  existsb (Z.eqb cp)
    [0x85; 0xA0; 0x1680; 0x2028; 0x2029; 0x202F; 0x205F; 0x3000]
  || ((0x2000 <=? cp) && (cp <=? 0x200A)).

(** The decimal digits of Unicode 14.0, the version of CPython 3.11:
    each entry is the code point of a digit zero, and the nine code
    points after it are the digits one to nine of the same script. *)
Definition unicode_zeros : list Z :=
  [ 0x30; 0x660; 0x6F0; 0x7C0; 0x966; 0x9E6; 0xA66; 0xAE6; 0xB66; 0xBE6;
    0xC66; 0xCE6; 0xD66; 0xDE6; 0xE50; 0xED0; 0xF20; 0x1040; 0x1090;
    0x17E0; 0x1810; 0x1946; 0x19D0; 0x1A80; 0x1A90; 0x1B50; 0x1BB0; 0x1C40;
    0x1C50; 0xA620; 0xA8D0; 0xA900; 0xA9D0; 0xA9F0; 0xAA50; 0xABF0; 0xFF10;
    0x104A0; 0x10D30; 0x11066; 0x110F0; 0x11136; 0x111D0; 0x112F0; 0x11450;
    0x114D0; 0x11650; 0x116C0; 0x11730; 0x118E0; 0x11950; 0x11C50; 0x11D50;
    0x11DA0; 0x16A60; 0x16AC0; 0x16B50; 0x1D7CE; 0x1D7D8; 0x1D7E2; 0x1D7EC;
    0x1D7F6; 0x1E140; 0x1E2F0; 0x1E950; 0x1FBF0 ].

(** [Py_UNICODE_TODECIMAL(ch)] *)
Definition unicode_decimal (cp : Z) : option Z :=
  match List.find (fun zero => (zero <=? cp) && (cp <=? zero + 9)) unicode_zeros with
  | Some zero => Some (cp - zero)
  | None => None
  end.

(** The ASCII character that [int] reads for a code point: the
    character itself below 127; a space for a white space; the ASCII
    digit for a decimal digit of any script; [None] for every other
    code point, on which [int] raises. *)
Definition ascii_for (cp : Z) : option ascii :=
  if cp <? 127 then Some (ascii_of_nat (Z.to_nat cp))
  else if unicode_space cp then Some " "%char
  else match unicode_decimal cp with
       | Some d => Some (ascii_of_nat (Z.to_nat (48 + d)))
       | None => None
       end.

(** [_PyUnicode_TransformDecimalAndSpaceToASCII]: the string that
    [int] parses, [None] when a character has no ASCII form (the
    function puts a question mark there, which fails the parse). *)
Fixpoint ascii_form (cps : list (option Z)) : option string :=
  match cps with
  | [] => Some EmptyString
  | Some cp :: rest =>
      match ascii_for cp, ascii_form rest with
      | Some c, Some a => Some (String c a)
      | _, _ => None
      end
  | None :: _ => None
  end.

Definition transform_decimal_and_space (s : string) : option string :=
  ascii_form (code_points s).

(** [Py_ISSPACE]: the characters [int] skips around a number: tab, line
    feed, vertical tab, form feed, carriage return and space. *)
Definition is_space (c : ascii) : bool :=
  let n := nat_of_ascii c in
  ((9 <=? n)%nat && (n <=? 13)%nat) || Nat.eqb n 32.

(** The digits of a decimal literal; an underscore may stand between two
    digits.  [sep] says that a digit must come next. *)
Fixpoint digits_value (acc : Z) (sep : bool) (s : string) : option Z :=
  match s with
  | EmptyString => if sep then None else Some acc
  | String c s' =>
      if Str.is_digit c
      then digits_value (10 * acc + Z.of_nat (nat_of_ascii c - 48)) false s'
      else if Ascii.eqb c "_" && negb sep then digits_value acc true s'
      else None
  end.

(** The number of digits of a literal, underscores not counted. *)
Fixpoint count_digits (s : string) : Z :=
  match s with
  | EmptyString => 0
  | String c s' => (if Str.is_digit c then 1 else 0) + count_digits s'
  end.

(** The value of a literal without sign: [None] when it is not one, and
    when it has more digits than the limit. *)
Definition literal `{Library} (s : string) : option Z :=
  if exceeds_limit (count_digits s) then None else digits_value 0 true s.

(** [int(s)] for a [str]: [None] stands for [ValueError]. *)
Definition int `{Library} (s : string) : option Z :=
  match transform_decimal_and_space s with
  | None => None
  | Some a =>
      match Str.rstrip is_space (Str.lstrip is_space a) with
      | String "+" d => literal d
      | String "-" d => option_map Z.opp (literal d)
      | d => literal d
      end
  end.

(** [response.raise_for_status()], httpx 0.20 and later (the versions
    whose client takes [follow_redirects]): every status outside 200 to
    299 raises. *)
Definition raise_for_status `{Library} (r : httpx.Response) : result unit :=
  if httpx.is_success r then Return tt
  else Raise (HTTPStatusError (status_error_text r) r).

(** The exception of a body that cannot be decoded. *)
Definition json_exception (e : httpx.json_error) : exn :=
  match e with
  | httpx.NotJSON => JSONDecodeError
  | httpx.NotUnicode => UnicodeDecodeError
  | httpx.IntegerTooLong => ValueError
  | httpx.NestedTooDeep => RecursionError
  end.

(** [response.json()] *)
Definition response_json (r : httpx.Response) : result value :=
  match httpx.json r with
  | httpx.Decoded v => Return v
  | httpx.Undecodable e => Raise (json_exception e)
  end.

(** ** The session and its environment *)

(** The attributes of a [BungieClient]; the [httpx.AsyncClient] it owns
    is the transport of the environment below. *)
Record BungieClient : Type := {
  api_key : string;
  base_url : string;
  timeout : Z;
  headers : gmap string string;
  _last_request_time : Q;
  _min_time_between_requests : Q
}.

(** The session [s] with its time stamp set to [t]. *)
Definition with_last_request_time (s : BungieClient) (t : Q) : BungieClient :=
  {| api_key := api_key s;
     base_url := base_url s;
     timeout := timeout s;
     headers := headers s;
     _last_request_time := t;
     _min_time_between_requests := _min_time_between_requests s |}.

(** [BungieClient.__init__(self, api_key, timeout=30)] *)
Definition __init__ (api_key : string) (timeout : Z) : BungieClient :=
  {| api_key := api_key;
     base_url := "https://www.bungie.net/Platform";
     timeout := timeout;
     headers := <["x-API-Key" := api_key]> {["Accept" := "application/json"]};
     _last_request_time := 0%Q;
     _min_time_between_requests := (1 # 10)%Q |}.

(** What awaiting [AsyncClient.request] yields: a response, an
    [httpx.RequestError] (connection errors, timeouts, ...) with its
    text, or an exception of another class ([httpx.InvalidURL],
    [TypeError], ...).  The transport knows nothing of exceptions.py and
    raises none of its classes. *)
Inductive transport_outcome : Type :=
| Responded (r : httpx.Response)
| RaisedRequestError (msg : string)
| RaisedOther (name : string).

(** The clock, the event loop and the remote service.  Both functions
    take the clock reading at the call. *)
Class Environment : Type := {
  (** [await asyncio.sleep(d)]: the clock reading at which the caller
      resumes *)
  wake : Q -> Q -> Q;
  (** [await self._client.request(...)]: its outcome and the clock
      reading at which the await completes *)
  transport : Q -> httpx.Request -> transport_outcome * Q
}.

Inductive event : Type :=
| Slept (at_time duration : Q)
| Dispatched (at_time : Q) (rq : httpx.Request).

Record world : Type := {
  clock : Q;
  trace : list event
}.

Record state : Type := {
  self : BungieClient;
  env : world
}.

(** Code that reads the clock, suspends, mutates [self] and raises. *)
Definition M (A : Type) : Type := state -> result A * state.

Definition ret {A : Type} (a : A) : M A := fun st => (Return a, st).

Definition raise {A : Type} (e : exn) : M A := fun st => (Raise e, st).

Definition bind {A B : Type} (m : M A) (k : A -> M B) : M B :=
  fun st =>
    match m st with
    | (Return a, st') => k a st'
    | (Raise e, st') => (Raise e, st')
    end.

Definition lift {A : Type} (r : result A) : M A := fun st => (r, st).

Notation "x <- m ;; k" := (bind m (fun x => k))
  (at level 100, m at next level, right associativity).
Notation "m ;;; k" := (bind m (fun _ => k))
  (at level 100, right associativity).

(** [try: body  except ...: handler]: [handler e] is [None] when no
    clause matches the class of [e]. *)
Definition try_except {A : Type} (body : M A) (handler : exn -> option (M A)) : M A :=
  fun st =>
    match body st with
    | (Raise e, st') =>
        match handler e with
        | Some h => h st'
        | None => (Raise e, st')
        end
    | r => r
    end.

(** [time.time()] *)
Definition time_time : M Q := fun st => (Return (clock (env st)), st).

(** [await asyncio.sleep(d)] *)
Definition asyncio_sleep `{Environment} (d : Q) : M unit :=
  fun st =>
    let w := env st in
    (Return tt,
     {| self := self st;
        env := {| clock := wake (clock w) d;
                  trace := (trace w ++ [Slept (clock w) d])%list |} |}).

(** [await self._client.request(method=..., url=..., params=...,
    json=...)] *)
Definition client_request `{Environment} (rq : httpx.Request) : M httpx.Response :=
  fun st =>
    let w := env st in
    let '(out, t) := transport (clock w) rq in
    let st' :=
      {| self := self st;
         env := {| clock := t;
                   trace := (trace w ++ [Dispatched (clock w) rq])%list |} |} in
    match out with
    | Responded r => (Return r, st')
    | RaisedRequestError msg => (Raise (RequestError msg), st')
    | RaisedOther name => (Raise (OtherError name), st')
    end.

Definition get_self : M BungieClient := fun st => (Return (self st), st).

(** [self._last_request_time = t] *)
Definition set_last_request_time (t : Q) : M unit :=
  fun st =>
    (Return tt,
     {| self := with_last_request_time (self st) t; env := env st |}).

Definition Qlt_bool (x y : Q) : bool := negb (Qle_bool y x).

(** ** client.py *)

Definition _make_request `{Library} `{Environment}
    (method endpoint : string)
    (params data : option (gmap string value)) : M value :=
  now <- time_time ;;
  self <- get_self ;;
  let time_since_last := (now - _last_request_time self)%Q in
  (if Qlt_bool time_since_last (_min_time_between_requests self)
   then asyncio_sleep (_min_time_between_requests self - time_since_last)%Q
   else ret tt) ;;;
  url <- lift (build_url (base_url self) endpoint) ;;
  try_except
    (response <- client_request
                   {| httpx.method := method; httpx.url := url;
                      httpx.params := params; httpx.json_data := data |} ;;
     now <- time_time ;;
     set_last_request_time now ;;;
     (if httpx.status_code response =? 429
      then
        retry_after <-
          lift (match httpx.Headers_get (httpx.headers response) "Retry-After" with
                | Some v =>
                    match int v with
                    | Some n => Return n
                    | None => Raise ValueError
                    end
                | None => Return 30
                end) ;;
        text <- lift (str_int retry_after) ;;
        raise (Bungie (new_error BungieRateLimitException
                         ("Rate limit exceeded. Try again after "
                          +:+ text +:+ " seconds.")
                         VNone
                         (HttpResponse response)))
      else ret tt) ;;;
     lift (raise_for_status response) ;;;
     body <- lift (response_json response) ;;
     lift (handle_bungie_response body))
    (fun e =>
       match e with
       | HTTPStatusError msg r =>
           Some (raise (Bungie (new_error BungieAPIException
                                  ("HTTP error occurred: " +:+ msg)
                                  (VInt (httpx.status_code r))
                                  (HttpResponse r))))
       | RequestError msg =>
           Some (raise (Bungie (new_error BungieAPIException
                                  ("Request error occurred: " +:+ msg)
                                  VNone
                                  NoResponse)))
       | _ => None
       end).

Definition platform_map : gmap string string :=
  <["xbox" := "1"]> (<["psn" := "2"]> (<["steam" := "3"]>
    (<["stadia" := "5"]> {["epic" := "6"]}))).

Definition search_destiny_player `{Library} `{Environment}
    (display_name : string) (platform : option string) : M value :=
  let membership_type := "-1" in
  let membership_type :=
    match platform with
    | Some p =>
        if Str.nonempty p
        then match platform_map !! Str.lower p with
             | Some t => t
             | None => "-1"
             end
        else membership_type
    | None => membership_type
    end in
  let endpoint :=
    "/Destiny2/SearchDestinyPlayer/" +:+ membership_type +:+ "/" +:+ display_name in
  _make_request "GET" endpoint None None.

Definition get_profile `{Library} `{Environment}
    (membership_type : Z) (destiny_membership_id : string)
    (components : list string) : M value :=
  text <- lift (str_int membership_type) ;;
  let endpoint :=
    "/Destiny2/" +:+ text +:+ "/Profile/"
    +:+ destiny_membership_id +:+ "/" in
  let params : gmap string value :=
    {["components" := VStr (Str.join "," components)]} in
  _make_request "GET" endpoint (Some params) None.

Definition get_activity_history `{Library} `{Environment}
    (membership_type : Z) (destiny_membership_id character_id : string)
    (mode : option Z) (page count : Z) : M value :=
  text <- lift (str_int membership_type) ;;
  let endpoint :=
    "/Destiny2/" +:+ text +:+ "/Account/"
    +:+ destiny_membership_id +:+ "/Character/" +:+ character_id
    +:+ "/Stats/Activities/" in
  let params : gmap string value :=
    <["page" := VInt page]> {["count" := VInt count]} in
  let params :=
    match mode with
    | Some m => <["mode" := VInt m]> params
    | None => params
    end in
  _make_request "GET" endpoint (Some params) None.

(** ** Notions used to state the properties *)

(** The values Python takes for false: [None], [False], zero, and the
    empty string, list and dict. *)
Inductive empty_value : value -> Prop :=
| empty_None : empty_value VNone
| empty_False : empty_value (VBool false)
| empty_zero : empty_value (VInt 0)
| empty_float_zero f : PrimFloat.eqb f 0%float = true -> empty_value (VFloat f)
| empty_str : empty_value (VStr EmptyString)
| empty_list : empty_value (VList [])
| empty_dict : empty_value (VDict ∅).

(** The values that compare equal to the [int] 1. *)
Inductive is_one : value -> Prop :=
| one_int : is_one (VInt 1)
| one_True : is_one (VBool true)
| one_float f : PrimFloat.eqb f 1%float = true -> is_one (VFloat f).

(** The envelope has a [Response] field that is present and not empty. *)
Definition response_present (d : gmap string value) : Prop :=
  exists v, d !! "Response" = Some v /\ ~ empty_value v.

(** The envelope has an [ErrorCode] field that equals 1. *)
Definition error_code_is_1 (d : gmap string value) : Prop :=
  exists v, d !! "ErrorCode" = Some v /\ is_one v.

Definition success_condition (d : gmap string value) : Prop :=
  response_present d \/ error_code_is_1 d.

Definition raises {A : Type} (r : result A) : Prop := exists e, r = Raise e.

(** An instance of the library parameters for the examples. *)
Definition sample_library : Library :=
  {| repr_compound := fun _ => "<repr>";
     bracketed_host_ok := fun _ => false;
     nfkc_rejected := fun _ => true;
     status_error_text := fun r => "status " +:+ Str.of_Z (httpx.status_code r);
     int_max_str_digits := 4300 |}.

(** The envelopes of the examples. *)
Definition envelope_with_payload : gmap string value :=
  <["Response" := VDict {["x" := VInt 1]}]> {["ErrorCode" := VInt 1]}.

Definition envelope_without_payload : gmap string value :=
  {["ErrorCode" := VInt 1]}.

Definition envelope_unauthorized : gmap string value :=
  <["ErrorCode" := VInt 5]> (<["ErrorStatus" := VStr "Unauthorized"]>
    {["Message" := VStr "bad key"]}).

(** The request of the specification: method, endpoint, query parameters
    and body. *)
Record RequestSpec : Type := {
  rs_method : string;
  rs_endpoint : string;
  rs_params : option (gmap string value);
  rs_data : option (gmap string value)
}.

(** [execute] is the specification's name of [_make_request]. *)
Definition execute `{Library} `{Environment} (rq : RequestSpec) : M value :=
  _make_request (rs_method rq) (rs_endpoint rq) (rs_params rq) (rs_data rq).

(** The request handed to the transport once the URL is [url]. *)
Definition transport_request (rq : RequestSpec) (url : string) : httpx.Request :=
  {| httpx.method := rs_method rq; httpx.url := url;
     httpx.params := rs_params rq; httpx.json_data := rs_data rq |}.

(** The events of the throttle for a call that starts at clock [now]:
    one suspension when the time since the last request is below the
    minimum, none otherwise. *)
Definition throttle_events (s : BungieClient) (now : Q) : list event :=
  let time_since_last := (now - _last_request_time s)%Q in
  if Qlt_bool time_since_last (_min_time_between_requests s)
  then [Slept now (_min_time_between_requests s - time_since_last)%Q]
  else [].

(** The clock reading at which such a call reaches the transport. *)
Definition dispatch_clock `{Environment} (s : BungieClient) (now : Q) : Q :=
  let time_since_last := (now - _last_request_time s)%Q in
  if Qlt_bool time_since_last (_min_time_between_requests s)
  then wake now (_min_time_between_requests s - time_since_last)%Q
  else now.

(** The world after the transport call of a call that started in [st]:
    the clock reads [t], and the trace has the events of the throttle
    and the dispatch. *)
Definition world_after `{Environment}
    (st : state) (rq : RequestSpec) (url : string) (t : Q) : world :=
  {| clock := t;
     trace := (trace (env st) ++ throttle_events (self st) (clock (env st))
               ++ [Dispatched (dispatch_clock (self st) (clock (env st)))
                     (transport_request rq url)])%list |}.

(** What [_make_request] makes of a response [r], its [except] clauses
    included. *)
Definition response_outcome `{Library} (r : httpx.Response) : result value :=
  if httpx.status_code r =? 429 then
    match httpx.Headers_get (httpx.headers r) "Retry-After" with
    | Some v =>
        match int v with
        | Some n =>
            match str_int n with
            | Return text =>
                Raise (Bungie (new_error BungieRateLimitException
                                 ("Rate limit exceeded. Try again after "
                                  +:+ text +:+ " seconds.")
                                 VNone (HttpResponse r)))
            | Raise e => Raise e
            end
        | None => Raise ValueError
        end
    | None =>
        Raise (Bungie (new_error BungieRateLimitException
                         "Rate limit exceeded. Try again after 30 seconds."
                         VNone (HttpResponse r)))
    end
  else if httpx.is_success r then
    match httpx.json r with
    | httpx.Decoded body => handle_bungie_response body
    | httpx.Undecodable e => Raise (json_exception e)
    end
  else
    Raise (Bungie (new_error BungieAPIException
                     ("HTTP error occurred: " +:+ status_error_text r)
                     (VInt (httpx.status_code r)) (HttpResponse r))).

(** The clock readings at which the requests of a trace were
    dispatched, oldest first. *)
Fixpoint dispatch_times (tr : list event) : list Q :=
  match tr with
  | [] => []
  | Slept _ _ :: tr' => dispatch_times tr'
  | Dispatched t _ :: tr' => t :: dispatch_times tr'
  end.

(** [x] occurs in [msg]. *)
Definition mentions (msg x : string) : Prop :=
  exists before after, msg = before +:+ x +:+ after.

(** *** Sessions, requests and environments of the examples *)

(** A session just created, at clock reading 1000. *)
Definition fresh_state : state :=
  {| self := __init__ "key" 30;
     env := {| clock := 1000%Q; trace := [] |} |}.

Definition search_request : RequestSpec :=
  {| rs_method := "GET";
     rs_endpoint := "/Destiny2/SearchDestinyPlayer/-1/Name#1234";
     rs_params := None;
     rs_data := None |}.

Definition search_url : string :=
  "https://www.bungie.net/Platform/Destiny2/SearchDestinyPlayer/-1/Name#1234".

(** An environment whose sleeps last exactly as long as asked, and whose
    transport gives the outcome [out] after one millisecond. *)
Definition steady_environment (out : transport_outcome) : Environment :=
  {| wake := fun t d => (t + d)%Q;
     transport := fun t _ => (out, (t + (1 # 1000))%Q) |}.

Definition response_429 (retry_after : option string) : httpx.Response :=
  {| httpx.status_code := 429;
     httpx.headers :=
       match retry_after with
       | Some v => [("Content-Type", "application/json"); ("retry-after", v)]
       | None => [("Content-Type", "application/json")]
       end;
     httpx.json := httpx.Undecodable httpx.NotJSON |}.

Definition response_503 : httpx.Response :=
  {| httpx.status_code := 503; httpx.headers := [];
     httpx.json := httpx.Undecodable httpx.NotJSON |}.

Definition response_200 (body : value) : httpx.Response :=
  {| httpx.status_code := 200; httpx.headers := [];
     httpx.json := httpx.Decoded body |}.

(** The lookup table of the specification: platform names and their
    membership types. *)
Definition platform_table : list (string * string) :=
  [("xbox", "1"); ("psn", "2"); ("steam", "3"); ("stadia", "5"); ("epic", "6")].

(** Two names are the same without regard to case. *)
Definition same_name (a b : string) : Prop := Str.lower a = Str.lower b.

(** [/Destiny2/SearchDestinyPlayer/{membershipType}/{displayName}] *)
Definition search_endpoint (membership_type display_name : string) : string :=
  "/Destiny2/SearchDestinyPlayer/" +:+ membership_type +:+ "/" +:+ display_name.

(** C4 as stated: the call raises a [BungieRateLimitException]. *)
Definition raises_rate_limit `{Library} `{Environment}
    (st : state) (rq : RequestSpec) : Prop :=
  exists b, fst (execute rq st) = Raise (Bungie b)
            /\ cls b = BungieRateLimitException.

(** *** The throttle *)

(** The environment keeps time: a suspension lasts at least as long as
    asked, and no transport call ends before it begins. *)
Definition keeps_time (E : Environment) : Prop :=
  (forall t d, (t + d <= wake t d)%Q)
  /\ (forall t rq, (t <= snd (transport t rq))%Q).

(** The caller resumes after a call and issues the next one at clock
    reading [resume]. *)
Definition resumed_at (st : state) (resume : Q) : state :=
  {| self := self st;
     env := {| clock := resume; trace := trace (env st) |} |}.

(** Two calls in sequence on the session of [st], the second issued at
    [resume]: when both reach the transport, the second is dispatched at
    least 100 ms after the first. *)
Definition spaced `{Library} `{Environment}
    (st : state) (rq1 rq2 : RequestSpec) (resume : Q) : Prop :=
  let st1 := snd (execute rq1 st) in
  let st2 := snd (execute rq2 (resumed_at st1 resume)) in
  forall t1 t2,
    dispatch_times (trace (env st2))
    = (dispatch_times (trace (env st)) ++ [t1; t2])%list ->
    (t1 + (1 # 10) <= t2)%Q.

(** *** Plain base URLs and paths *)

(** A character that [urlsplit] neither removes nor takes for a
    delimiter of the path. *)
Definition plain_char (c : ascii) : bool :=
  negb (Str.among "/?#;" c) && negb (urllib._UNSAFE_URL_BYTES_TO_REMOVE c).

(** Plain characters and the slash: what a path without query,
    fragment and parameters is made of. *)
Definition path_char (c : ascii) : bool :=
  negb (Str.among "?#;" c) && negb (urllib._UNSAFE_URL_BYTES_TO_REMOVE c).

(** A segment that the loop of [urljoin] appends as it is. *)
Definition kept_segment (s : string) : bool :=
  negb (String.eqb s "..") && negb (String.eqb s ".").

(** A segment of a path that [urljoin] keeps as it is: not empty, made
    of plain characters, and neither "." nor "..". *)
Definition plain_segment (s : string) : bool :=
  Str.nonempty s && Str.all plain_char s
  && negb (String.eqb s ".") && negb (String.eqb s "..").

(** A network location: not empty, ASCII, without delimiter, bracket,
    tab, carriage return or line feed. *)
Definition plain_netloc (s : string) : bool :=
  Str.nonempty s
  && Str.all (fun c => Str.is_ascii c && negb (Str.among "/?#[]" c)
                       && negb (urllib._UNSAFE_URL_BYTES_TO_REMOVE c)) s.

Definition plain_query (s : string) : bool :=
  Str.all (fun c => negb (Ascii.eqb c "#")
                    && negb (urllib._UNSAFE_URL_BYTES_TO_REMOVE c)) s.

Definition plain_fragment (s : string) : bool :=
  Str.all (fun c => negb (urllib._UNSAFE_URL_BYTES_TO_REMOVE c)) s.

(** A query or a fragment with its mark, or nothing when it is empty. *)
Definition optional (mark s : string) : string :=
  if Str.nonempty s then mark +:+ s else EmptyString.

(** The test by which [urlsplit] finds a scheme at the head of [url]:
    a colon preceded by an ASCII letter and scheme characters only. *)
Definition has_scheme (url : string) : bool :=
  match Str.partition ":" url with
  | Some (String c0 _ as before, _) =>
      Str.is_ascii_alpha c0 && Str.all urllib.scheme_chars before
  | _ => false
  end.

(** [url] does not begin with a control character or a space. *)
Definition starts_clean (url : string) : bool :=
  match url with
  | EmptyString => true
  | String c _ => negb (urllib._WHATWG_C0_CONTROL_OR_SPACE c)
  end.

(** C3 as stated: the joined URL is the base without its trailing
    slashes, one slash, and the path without its leading slashes. *)
Definition joined_at_seam `{Library} (base_url path : string) : Prop :=
  build_url base_url path
  = Return (Str.rstrip (Str.is_char "/") base_url +:+ "/"
            +:+ Str.lstrip (Str.is_char "/") path).

(** *** The host of the client *)

(** The base URL that [__init__] gives every client. *)
Definition bungie_base : string := "https://www.bungie.net/Platform".

(** What [urlsplit] parses after stripping and removing characters. *)
Definition cleaned (url : string) : string :=
  Str.remove urllib._UNSAFE_URL_BYTES_TO_REMOVE
    (Str.lstrip urllib._WHATWG_C0_CONTROL_OR_SPACE url).

(** The call that led from [before] to [after] added one dispatch to
    the trace, after the events of the throttle: a [GET] request
    without body whose URL lies on the host of the client. *)
Definition dispatched_on_host (before after : state) : Prop :=
  exists t url params,
    trace (env after)
    = (trace (env before)
       ++ throttle_events (self before) (clock (env before))
       ++ [Dispatched t {| httpx.method := "GET"; httpx.url := url;
                           httpx.params := params;
                           httpx.json_data := None |}])%list
    /\ Str.startswith "https://www.bungie.net/" url = true.


(** The call that led from [before] to [after] passed the throttle and
    dispatched the request [rq], and added nothing else to the trace. *)
Definition dispatched `{Environment} (before after : state) (rq : httpx.Request) : Prop :=
  trace (env after)
  = (trace (env before)
     ++ throttle_events (self before) (clock (env before))
     ++ [Dispatched (dispatch_clock (self before) (clock (env before))) rq])%list.

(** The membership types that [search_destiny_player] puts in an
    endpoint: those of the table and the one for all platforms. *)
Definition membership_types : list string := "-1" :: List.map snd platform_table.

(** A response with status 304. *)
Definition response_not_modified : httpx.Response :=
  {| httpx.status_code := 304; httpx.headers := [];
     httpx.json := httpx.Undecodable httpx.NotJSON |}.

(** An exception of one of the two [httpx] classes that [_make_request]
    catches. *)
Definition httpx_error (e : exn) : Prop :=
  match e with
  | HTTPStatusError _ _ | RequestError _ => True
  | _ => False
  end.

(** *** Sequences of calls on one session *)

(** The calls a caller can make on a client. *)
Inductive call : Type :=
| MakeRequest (rq : RequestSpec)
| SearchDestinyPlayer (display_name : string) (platform : option string)
| GetProfile (membership_type : Z) (destiny_membership_id : string)
    (components : list string)
| GetActivityHistory (membership_type : Z)
    (destiny_membership_id character_id : string)
    (mode : option Z) (page count : Z).

Definition perform `{Library} `{Environment} (c : call) : M value :=
  match c with
  | MakeRequest rq => execute rq
  | SearchDestinyPlayer display_name platform =>
      search_destiny_player display_name platform
  | GetProfile membership_type destiny_membership_id components =>
      get_profile membership_type destiny_membership_id components
  | GetActivityHistory membership_type destiny_membership_id character_id
      mode page count =>
      get_activity_history membership_type destiny_membership_id character_id
        mode page count
  end.

(** One of the three public methods, not [_make_request] itself. *)
Definition is_builder (c : call) : bool :=
  match c with
  | MakeRequest _ => false
  | _ => true
  end.

(** A caller that makes the calls of a list in turn on one session and
    awaits each before the next, whether it returns or raises; before
    each call the caller lets the time [pause] go by. *)
Fixpoint run_calls `{Library} `{Environment}
    (calls : list (Q * call)) (st : state) : state :=
  match calls with
  | [] => st
  | (pause, c) :: rest =>
      run_calls rest
        (snd (perform c (resumed_at st (clock (env st) + pause)%Q)))
  end.

(** Each reading of [ts] is at least [gap] after the one before. *)
Fixpoint spaced_by (gap : Q) (ts : list Q) : Prop :=
  match ts with
  | t1 :: rest =>
      match rest with
      | t2 :: _ => (t1 + gap <= t2)%Q
      | [] => True
      end /\ spaced_by gap rest
  | [] => True
  end.

(** Every transport call of the environment returns a response. *)
Definition always_responds (E : Environment) : Prop :=
  forall t rq, exists r t', transport t rq = (Responded r, t').

(** A [GET] request without body to the host of the client. *)
Definition on_host (rq : httpx.Request) : Prop :=
  httpx.method rq = "GET"
  /\ Str.startswith "https://www.bungie.net/" (httpx.url rq) = true
  /\ httpx.json_data rq = None.

(** A session of the examples: a search, then the profile at once, then
    the history of a character after 50 ms. *)
Definition sample_calls : list (Q * call) :=
  [(0%Q, SearchDestinyPlayer "Name#1234" None);
   (0%Q, GetProfile 3 "4611686018467284386" ["100"; "200"]);
   ((1 # 20)%Q,
    GetActivityHistory 3 "4611686018467284386" "2305843009300000000" None 0 25)].

(** The number that [int] has read after the digits of [d], when it had
    read [acc] before them. *)
Fixpoint uint_value (acc : Z) (d : Decimal.uint) : Z :=
  match d with
  | Decimal.Nil => acc
  | Decimal.D0 d' => uint_value (10 * acc) d'
  | Decimal.D1 d' => uint_value (10 * acc + 1) d'
  | Decimal.D2 d' => uint_value (10 * acc + 2) d'
  | Decimal.D3 d' => uint_value (10 * acc + 3) d'
  | Decimal.D4 d' => uint_value (10 * acc + 4) d'
  | Decimal.D5 d' => uint_value (10 * acc + 5) d'
  | Decimal.D6 d' => uint_value (10 * acc + 6) d'
  | Decimal.D7 d' => uint_value (10 * acc + 7) d'
  | Decimal.D8 d' => uint_value (10 * acc + 8) d'
  | Decimal.D9 d' => uint_value (10 * acc + 9) d'
  end.
(** * Verification *)

(** ** The response interpreter *)

Section Interpreter.
Context `{Library}.

Lemma truthy_not_empty (v : value) : truthy v = true <-> ~ empty_value v.
Proof.
  destruct v as [ | b | n | f | s | l | d]; simpl.
  - split; [discriminate | intros E; destruct E; constructor].
  - destruct b; split; try discriminate; try reflexivity.
    + intros _ E; inversion E.
    + intros E; destruct E; constructor.
  - rewrite negb_true_iff, Z.eqb_neq. split.
    + intros Hn E; inversion E; subst; apply Hn; reflexivity.
    + intros E ->; apply E; constructor.
  - rewrite negb_true_iff. split.
    + intros Hf E; inversion E; congruence.
    + intros E. destruct (PrimFloat.eqb f 0) eqn:Hf; [ | reflexivity].
      destruct E; constructor; assumption.
  - destruct s; simpl; split; try discriminate; try reflexivity.
    + intros E; destruct E; constructor.
    + intros _ E; inversion E.
  - destruct l; simpl; split; try discriminate; try reflexivity.
    + intros E; destruct E; constructor.
    + intros _ E; inversion E.
  - rewrite negb_true_iff, Nat.eqb_neq. split.
    + intros Hs E; inversion E; subst. apply Hs, map_size_empty.
    + intros E Hs. apply map_size_empty_inv in Hs. subst. apply E; constructor.
Qed.

Lemma eq_1_is_one (v : value) : eq_1 v = true <-> is_one v.
Proof.
  destruct v as [ | b | n | f | s | l | d]; simpl;
    try (split; [discriminate | intros E; inversion E]).
  - destruct b; split; try discriminate; try constructor.
    intros E; inversion E.
  - rewrite Z.eqb_eq. split; [intros ->; constructor | intros E; inversion E; reflexivity].
  - split; [intros E; constructor; exact E | intros E; inversion E; assumption].
Qed.

(** The test of the [if] in [handle_bungie_response] is the negation
    of the success condition. *)
Lemma failure_test (d : gmap string value) :
  negb (truthy (dict_get d "Response" VNone))
  && negb (eq_1 (dict_get d "ErrorCode" VNone)) = true
  <-> ~ response_present d /\ ~ error_code_is_1 d.
Proof.
  rewrite andb_true_iff, !negb_true_iff.
  unfold response_present, error_code_is_1, dict_get.
  split.
  - intros [Hr Hc]. split.
    + intros (v & Hv & Hne). rewrite Hv in Hr.
      apply truthy_not_empty in Hne. congruence.
    + intros (v & Hv & Hone). rewrite Hv in Hc.
      apply eq_1_is_one in Hone. congruence.
  - intros [Hr Hc]. split.
    + destruct (d !! "Response") as [v | ] eqn:Hv; [ | reflexivity].
      destruct (truthy v) eqn:Ht; [ | reflexivity].
      exfalso. apply Hr. exists v. split; [reflexivity | ].
      apply truthy_not_empty; assumption.
    + destruct (d !! "ErrorCode") as [v | ] eqn:Hv; [ | reflexivity].
      destruct (eq_1 v) eqn:Ht; [ | reflexivity].
      exfalso. apply Hc. exists v. split; [reflexivity | ].
      apply eq_1_is_one; assumption.
Qed.

End Interpreter.

(** C1. For every decoded envelope, [handle_bungie_response] raises
    exactly when the [Response] field is not present and non-empty and
    the [ErrorCode] field does not equal 1.  The exception it raises is a
    [BungieAPIException] whose message is the [ErrorStatus] field, a
    colon and a space, and the [Message] field, with the defaults
    "Unknown Error" and "No error message provided" for absent fields;
    it carries the [ErrorCode] field (default 0) and the envelope. *)
Theorem handle_bungie_response_failure `{Library} (d : gmap string value) :
  (raises (handle_bungie_response (VDict d))
   <-> ~ response_present d /\ ~ error_code_is_1 d)
  /\ (forall e, handle_bungie_response (VDict d) = Raise e ->
        e = Bungie
              {| cls := BungieAPIException;
                 message :=
                   str (dict_get d "ErrorStatus" (VStr "Unknown Error"))
                   +:+ ": "
                   +:+ str (dict_get d "Message" (VStr "No error message provided"));
                 error_code := dict_get d "ErrorCode" (VInt 0);
                 response := Envelope d |}).
Proof.
  pose proof (failure_test d) as Ht.
  unfold handle_bungie_response, raises.
  destruct (negb (truthy (dict_get d "Response" VNone))
            && negb (eq_1 (dict_get d "ErrorCode" VNone))) eqn:Hif.
  - split.
    + split; [intros _; apply Ht; reflexivity | intros _; eexists; reflexivity].
    + intros e [= <-]. reflexivity.
  - split.
    + split.
      * intros [e He]. discriminate.
      * intros Hf. apply Ht in Hf. discriminate.
    + intros e He. discriminate.
Qed.

(** The failing envelope of the specification: the message is
    "Unauthorized: bad key" and the code is 5. *)
Example handle_bungie_response_unauthorized `{Library} :
  handle_bungie_response (VDict envelope_unauthorized)
  = Raise (Bungie (new_error BungieAPIException "Unauthorized: bad key"
                     (VInt 5) (Envelope envelope_unauthorized))).
Proof. reflexivity. Qed.

(** An envelope with no field at all raises with every default. *)
Example handle_bungie_response_defaults `{Library} :
  handle_bungie_response (VDict ∅)
  = Raise (Bungie (new_error BungieAPIException
                     "Unknown Error: No error message provided"
                     (VInt 0) (Envelope ∅))).
Proof. reflexivity. Qed.

(** C2. For every envelope that satisfies the success condition,
    [handle_bungie_response] returns the value of the [Response] field
    when the key is present, and the whole envelope otherwise. *)
Theorem handle_bungie_response_success `{Library} (d : gmap string value) :
  success_condition d ->
  handle_bungie_response (VDict d)
  = Return (match d !! "Response" with
            | Some v => v
            | None => VDict d
            end).
Proof.
  intros Hs. pose proof (failure_test d) as Ht.
  unfold handle_bungie_response.
  destruct (negb (truthy (dict_get d "Response" VNone))
            && negb (eq_1 (dict_get d "ErrorCode" VNone))) eqn:Hif.
  - exfalso. destruct Ht as [Ht _]. destruct (Ht eq_refl) as [Hr Hc].
    destruct Hs; contradiction.
  - reflexivity.
Qed.

(** The two successful envelopes of the specification. *)
Lemma handle_bungie_response_success_witness :
  handle_bungie_response (H := sample_library) (VDict envelope_with_payload)
  = Return (VDict {["x" := VInt 1]})
  /\ handle_bungie_response (H := sample_library) (VDict envelope_without_payload)
     = Return (VDict envelope_without_payload).
Proof.
  split.
  - apply (handle_bungie_response_success (H := sample_library) envelope_with_payload).
    left. exists (VDict {["x" := VInt 1]}). split; [reflexivity | ].
    apply (truthy_not_empty (VDict {["x" := VInt 1]})). reflexivity.
  - apply (handle_bungie_response_success (H := sample_library) envelope_without_payload).
    right. exists (VInt 1). split; [reflexivity | constructor].
Defined.

(** ** Facts on the [str] methods *)

Section Strings.

Lemma append_cons (c : ascii) (a b : string) :
  String c a +:+ b = String c (a +:+ b).
Proof. reflexivity. Qed.

Lemma append_nil_l (s : string) : EmptyString +:+ s = s.
Proof. reflexivity. Qed.

Lemma append_nil_r (s : string) : s +:+ EmptyString = s.
Proof.
  induction s as [ | c s IH]; [reflexivity | ].
  rewrite append_cons, IH. reflexivity.
Qed.

Lemma append_assoc (a b c : string) : (a +:+ b) +:+ c = a +:+ (b +:+ c).
Proof.
  induction a as [ | x a IH]; [reflexivity | ].
  rewrite !append_cons, IH. reflexivity.
Qed.

Lemma all_append (p : ascii -> bool) (a b : string) :
  Str.all p (a +:+ b) = Str.all p a && Str.all p b.
Proof.
  induction a as [ | x a IH]; rewrite ?append_nil_l, ?append_cons; simpl; [reflexivity | ].
  rewrite IH, andb_assoc. reflexivity.
Qed.

Lemma all_impl (p q : ascii -> bool) (s : string) :
  (forall c, p c = true -> q c = true) ->
  Str.all p s = true -> Str.all q s = true.
Proof.
  intros Hpq. induction s as [ | x s IH]; simpl; [reflexivity | ].
  rewrite !andb_true_iff. intros [Hx Hs]. split; [apply Hpq, Hx | apply IH, Hs].
Qed.

Lemma contains_append (c : ascii) (a b : string) :
  Str.contains c (a +:+ b) = Str.contains c a || Str.contains c b.
Proof.
  induction a as [ | x a IH]; rewrite ?append_nil_l, ?append_cons; simpl; [reflexivity | ].
  rewrite IH, orb_assoc. reflexivity.
Qed.

(** A character that fails [p] does not occur in a string whose
    characters all satisfy [p]. *)
Lemma all_not_contains (p : ascii -> bool) (c : ascii) (s : string) :
  p c = false -> Str.all p s = true -> Str.contains c s = false.
Proof.
  intros Hc. induction s as [ | x s IH]; simpl; [reflexivity | ].
  rewrite andb_true_iff. intros [Hx Hs].
  rewrite (IH Hs), orb_false_r.
  destruct (Ascii.eqb_spec x c) as [-> | ]; [congruence | reflexivity].
Qed.

Lemma lstrip_all_kept (p : ascii -> bool) (s : string) :
  Str.all (fun c => negb (p c)) s = true -> Str.lstrip p s = s.
Proof.
  destruct s as [ | x s]; simpl; [reflexivity | ].
  rewrite andb_true_iff, negb_true_iff. intros [-> _]. reflexivity.
Qed.

Lemma rstrip_all_kept (p : ascii -> bool) (s : string) :
  Str.all (fun c => negb (p c)) s = true -> Str.rstrip p s = s.
Proof.
  induction s as [ | x s IH]; simpl; [reflexivity | ].
  rewrite andb_true_iff, negb_true_iff. intros [Hx Hs].
  rewrite (IH Hs), Hx. destruct s; reflexivity.
Qed.

Lemma remove_all_kept (p : ascii -> bool) (s : string) :
  Str.all (fun c => negb (p c)) s = true -> Str.remove p s = s.
Proof.
  induction s as [ | x s IH]; simpl; [reflexivity | ].
  rewrite andb_true_iff, negb_true_iff. intros [-> Hs].
  rewrite (IH Hs). reflexivity.
Qed.

(** What [lstrip] returns does not begin with a stripped character. *)
Lemma lstrip_head (p : ascii -> bool) (s : string) :
  match Str.lstrip p s with
  | EmptyString => True
  | String c _ => p c = false
  end.
Proof.
  induction s as [ | x s IH]; simpl; [exact I | ].
  destruct (p x) eqn:Hx; [exact IH | exact Hx].
Qed.

Lemma partition_absent (c : ascii) (s : string) :
  Str.contains c s = false -> Str.partition c s = None.
Proof.
  induction s as [ | x s IH]; simpl; [reflexivity | ].
  rewrite orb_false_iff. intros [-> Hs]. rewrite (IH Hs). reflexivity.
Qed.

Lemma partition_first (c : ascii) (a b : string) :
  Str.contains c a = false ->
  Str.partition c (a +:+ String c b) = Some (a, b).
Proof.
  induction a as [ | x a IH]; rewrite ?append_nil_l, ?append_cons; simpl.
  - intros _. rewrite Ascii.eqb_refl. reflexivity.
  - rewrite orb_false_iff. intros [-> Ha]. rewrite (IH Ha). reflexivity.
Qed.

Lemma span_all (p : ascii -> bool) (a b : string) :
  Str.all p a = true ->
  match b with EmptyString => True | String x _ => p x = false end ->
  Str.span p (a +:+ b) = (a, b).
Proof.
  intros Ha Hb. induction a as [ | x a IH]; rewrite ?append_nil_l, ?append_cons; simpl.
  - destruct b as [ | y b]; simpl; [reflexivity | rewrite Hb; reflexivity].
  - simpl in Ha. apply andb_true_iff in Ha as [-> Ha].
    rewrite (IH Ha). reflexivity.
Qed.

Lemma split_nonempty (c : ascii) (s : string) : Str.split c s <> [].
Proof.
  induction s as [ | x s IH]; simpl; [discriminate | ].
  destruct (Ascii.eqb x c); [discriminate | ].
  destruct (Str.split c s); [contradiction | discriminate].
Qed.

(** A string without the separator is its own single part. *)
Lemma split_absent (c : ascii) (s : string) :
  Str.contains c s = false -> Str.split c s = [s].
Proof.
  induction s as [ | x s IH]; simpl; [reflexivity | ].
  rewrite orb_false_iff. intros [-> Hs]. rewrite (IH Hs). reflexivity.
Qed.

Lemma split_cons (c : ascii) (a b : string) :
  Str.contains c a = false ->
  Str.split c (a +:+ String c b) = a :: Str.split c b.
Proof.
  induction a as [ | x a IH]; rewrite ?append_nil_l, ?append_cons; simpl.
  - intros _. rewrite Ascii.eqb_refl. reflexivity.
  - rewrite orb_false_iff. intros [-> Ha]. rewrite (IH Ha). reflexivity.
Qed.

Lemma split_append (c : ascii) (a b : string) :
  Str.split c (a +:+ String c b) = (Str.split c a ++ Str.split c b)%list.
Proof.
  induction a as [ | x a IH]; rewrite ?append_nil_l, ?append_cons; simpl.
  - rewrite Ascii.eqb_refl. reflexivity.
  - destruct (Ascii.eqb x c).
    + rewrite IH. reflexivity.
    + rewrite IH. pose proof (split_nonempty c a) as Hne.
      destruct (Str.split c a) as [ | h t]; [contradiction | reflexivity].
Qed.

Lemma startswith_append (pre : ascii) (a b : string) :
  Str.nonempty a = true ->
  Str.startswith (String pre EmptyString) (a +:+ b)
  = Str.startswith (String pre EmptyString) a.
Proof. destruct a; [discriminate | reflexivity]. Qed.

Lemma join_cons (sep x : string) (l : list string) :
  l <> [] -> Str.join sep (x :: l) = x +:+ sep +:+ Str.join sep l.
Proof. destruct l; [contradiction | reflexivity]. Qed.

(** Splitting what was joined gives the parts back, when no part
    holds the separator and there is at least one part. *)
Lemma split_join (c : ascii) (l : list string) :
  l <> [] ->
  forallb (fun s => negb (Str.contains c s)) l = true ->
  Str.split c (Str.join (String c EmptyString) l) = l.
Proof.
  induction l as [ | x l IH]; [contradiction | ].
  intros _. simpl forallb. rewrite andb_true_iff, negb_true_iff.
  intros [Hx Hl].
  destruct l as [ | y l].
  - simpl. apply split_absent, Hx.
  - rewrite join_cons by discriminate.
    change (String c EmptyString +:+ Str.join (String c EmptyString) (y :: l))
      with (String c (Str.join (String c EmptyString) (y :: l))).
    rewrite (split_cons c x _ Hx), IH; [reflexivity | discriminate | exact Hl].
Qed.

Lemma join_app (sep : string) (l1 l2 : list string) :
  l1 <> [] -> l2 <> [] ->
  Str.join sep (l1 ++ l2) = Str.join sep l1 +:+ sep +:+ Str.join sep l2.
Proof.
  intros H1 H2. induction l1 as [ | x l1 IH]; [contradiction | ].
  destruct l1 as [ | y l1].
  - simpl app. rewrite join_cons by exact H2. reflexivity.
  - change ((x :: y :: l1) ++ l2)%list with (x :: (y :: l1) ++ l2)%list.
    rewrite join_cons by discriminate.
    rewrite IH by discriminate.
    rewrite (join_cons sep x (y :: l1)) by discriminate.
    rewrite !append_assoc. reflexivity.
Qed.

Lemma all_join (p : ascii -> bool) (sep : string) (l : list string) :
  Str.all p sep = true ->
  forallb (Str.all p) l = true ->
  Str.all p (Str.join sep l) = true.
Proof.
  intros Hsep. induction l as [ | x l IH]; [reflexivity | ].
  simpl forallb. rewrite andb_true_iff. intros [Hx Hl].
  destruct l as [ | y l]; [exact Hx | ].
  rewrite join_cons by discriminate.
  rewrite !all_append, Hx, Hsep, (IH Hl). reflexivity.
Qed.

End Strings.

(** ** [int] and [str] on integers *)

Section Integers.
Context `{Library}.

(** [str] of an [int] raises nothing but [ValueError]. *)
Lemma str_int_raise (n : Z) (e : exn) : str_int n = Raise e -> e = ValueError.
Proof. unfold str_int. destruct (exceeds_limit _); congruence. Qed.

Lemma str_int_return (n : Z) (text : string) :
  str_int n = Return text -> text = Str.of_Z n.
Proof. unfold str_int. destruct (exceeds_limit _); congruence. Qed.

(** A number with fewer digits than one within the limit is within the
    limit. *)
Lemma exceeds_limit_mono (a b : Z) :
  a <= b -> exceeds_limit b = false -> exceeds_limit a = false.
Proof.
  unfold exceeds_limit. intros Hab.
  rewrite !andb_false_iff, !Z.ltb_ge.
  intros [[Hb | Hb] | Hb];
    [left; left; lia | left; right; exact Hb | right; lia].
Qed.

Lemma uint_digits (d : Decimal.uint) :
  Str.all Str.is_digit (NilEmpty.string_of_uint d) = true.
Proof. induction d; simpl; try reflexivity; exact IHd. Qed.

Lemma digit_range (c : ascii) :
  Str.is_digit c = true -> 0 <= Z.of_nat (nat_of_ascii c - 48) <= 9.
Proof.
  unfold Str.is_digit. cbv zeta.
  rewrite andb_true_iff, !Nat.leb_le. lia.
Qed.

Lemma count_digits_nonneg (s : string) : 0 <= count_digits s.
Proof.
  induction s as [ | c s IH]; simpl; [lia | ].
  destruct (Str.is_digit c); lia.
Qed.

(** A string of digits has as many digits as characters. *)
Lemma count_digits_all (s : string) :
  Str.all Str.is_digit s = true ->
  count_digits s = Z.of_nat (String.length s).
Proof.
  induction s as [ | c s IH]; [reflexivity | ].
  cbn [Str.all count_digits String.length].
  rewrite andb_true_iff. intros [-> Hs]. rewrite (IH Hs). lia.
Qed.

(** The value of a literal of [c] digits read after [acc] lies between
    [acc] and [acc + 1] times the [c]-th power of ten. *)
Lemma digits_value_bounds (s : string) (acc : Z) (sep : bool) (v : Z) :
  0 <= acc ->
  digits_value acc sep s = Some v ->
  acc * 10 ^ count_digits s <= v < (acc + 1) * 10 ^ count_digits s.
Proof.
  revert acc sep. induction s as [ | c s IH]; intros acc sep Hacc; simpl.
  - destruct sep; [discriminate | ]. intros [= <-]. lia.
  - pose proof (count_digits_nonneg s) as Hc.
    assert (Hp : 0 < 10 ^ count_digits s) by (apply Z.pow_pos_nonneg; lia).
    destruct (Str.is_digit c) eqn:Hd.
    + pose proof (digit_range c Hd) as Hk. intros Hv.
      apply IH in Hv; [ | lia].
      replace (1 + count_digits s) with (Z.succ (count_digits s)) by lia.
      rewrite Z.pow_succ_r by exact Hc. nia.
    + destruct (Ascii.eqb c "_" && negb sep); [ | discriminate].
      rewrite Z.add_0_l. apply IH, Hacc.
Qed.

(** A literal has a digit. *)
Lemma digits_value_count (s : string) (acc v : Z) :
  digits_value acc true s = Some v -> 1 <= count_digits s.
Proof.
  destruct s as [ | c s]; simpl; [discriminate | ].
  pose proof (count_digits_nonneg s).
  destruct (Str.is_digit c); [lia | ].
  rewrite andb_false_r. discriminate.
Qed.

Lemma literal_bounds (d : string) (m : Z) :
  literal d = Some m ->
  0 <= m < 10 ^ count_digits d
  /\ 1 <= count_digits d
  /\ exceeds_limit (count_digits d) = false.
Proof.
  unfold literal. destruct (exceeds_limit _) eqn:He; [discriminate | ].
  intros Hv. pose proof (digits_value_bounds d 0 true m (Z.le_refl 0) Hv).
  pose proof (digits_value_count d 0 m Hv). repeat split; lia.
Qed.

(** What [int] returns is the value of a literal, or its opposite. *)
Lemma int_literal (s : string) (n : Z) :
  int s = Some n ->
  exists d m, literal d = Some m /\ (n = m \/ n = - m).
Proof.
  unfold int. intros Hi.
  repeat case_match; try discriminate;
    try (eexists _, _; split; [eassumption | left; reflexivity]);
    destruct (literal _) as [m | ] eqn:Hm; try discriminate;
    injection Hi as <-; eexists _, _; split; [exact Hm | right; reflexivity].
Qed.

(** *** The digits that [str] writes *)

Lemma digits_value_uint (d : Decimal.uint) (acc : Z) (sep : bool) :
  d <> Decimal.Nil \/ sep = false ->
  digits_value acc sep (NilEmpty.string_of_uint d) = Some (uint_value acc d).
Proof.
  revert acc sep.
  induction d as [ | d IH | d IH | d IH | d IH | d IH | d IH | d IH | d IH
                   | d IH | d IH];
    intros acc sep Hd;
    [ destruct Hd as [Hd | ->]; [contradiction | reflexivity] | .. ];
    cbn [NilEmpty.string_of_uint digits_value uint_value];
    match goal with
    | |- context [Str.is_digit ?c] => change (Str.is_digit c) with true
    end;
    cbv iota; rewrite IH by (right; reflexivity);
    first [ reflexivity
          | change (Z.of_nat (nat_of_ascii "0" - 48)) with 0;
            rewrite Z.add_0_r; reflexivity ].
Qed.

Lemma of_uint_acc_value (d : Decimal.uint) (acc : positive) :
  Z.pos (Pos.of_uint_acc d acc) = uint_value (Z.pos acc) d.
Proof.
  revert acc.
  induction d as [ | d IH | d IH | d IH | d IH | d IH | d IH | d IH | d IH
                   | d IH | d IH];
    intros acc; cbn [Pos.of_uint_acc uint_value];
    [reflexivity | rewrite IH; f_equal; lia ..].
Qed.

Lemma of_uint_value (d : Decimal.uint) :
  Z.of_N (Pos.of_uint d) = uint_value 0 d.
Proof.
  induction d as [ | d IH | d IH | d IH | d IH | d IH | d IH | d IH | d IH
                   | d IH | d IH];
    cbn [Pos.of_uint uint_value Z.of_N];
    [reflexivity | exact IH | apply of_uint_acc_value ..].
Qed.

Lemma to_uint_value (p : positive) : uint_value 0 (Pos.to_uint p) = Z.pos p.
Proof.
  rewrite <- of_uint_value, DecimalPos.Unsigned.of_to. reflexivity.
Qed.

(** The digits read after [acc] are worth no less than [acc] times the
    power of ten of their number. *)
Lemma uint_value_lower (d : Decimal.uint) (acc : Z) :
  0 <= acc ->
  acc * 10 ^ Z.of_nat (String.length (NilEmpty.string_of_uint d))
  <= uint_value acc d.
Proof.
  revert acc.
  induction d as [ | d IH | d IH | d IH | d IH | d IH | d IH | d IH | d IH
                   | d IH | d IH];
    intros acc Hacc;
    cbn [NilEmpty.string_of_uint String.length uint_value];
    [ simpl; lia | .. ];
    rewrite Nat2Z.inj_succ, Z.pow_succ_r by apply Nat2Z.is_nonneg;
    (eapply Z.le_trans; [ | apply IH; lia]);
    pose proof (Z.pow_pos_nonneg 10 (Z.of_nat (String.length (NilEmpty.string_of_uint d)))
                  ltac:(lia) (Nat2Z.is_nonneg _));
    nia.
Qed.

(** [str] writes no zero at the head of a positive number. *)
Lemma to_uint_head (p : positive) :
  match Pos.to_uint p with
  | Decimal.Nil | Decimal.D0 _ => False
  | _ => True
  end.
Proof.
  pose proof (DecimalPos.Unsigned.to_of (Pos.to_uint p)) as Hn.
  rewrite DecimalPos.Unsigned.of_to in Hn. cbn [N.to_uint] in Hn.
  pose proof (DecimalPos.Unsigned.to_uint_nonzero p) as Hz.
  pose proof (DecimalPos.Unsigned.to_uint_nonnil p) as Hnil.
  destruct (Pos.to_uint p) as [ | u | u | u | u | u | u | u | u | u | u ];
    try exact I; [contradiction | ].
  rewrite DecimalFacts.unorm_D0 in Hn. unfold Decimal.unorm in Hn.
  pose proof (DecimalFacts.nzhead_nonzero u) as Hh.
  destruct (Decimal.nzhead u) as [ | u' | u' | u' | u' | u' | u' | u' | u' | u' | u' ];
    try discriminate Hn.
  - injection Hn as ->. apply Hz. reflexivity.
  - exact (Hh u' eq_refl).
Qed.

(** A positive number below the [c]-th power of ten is written with at
    most [c] digits. *)
Lemma to_uint_length (p : positive) (c : Z) :
  0 <= c ->
  Z.pos p < 10 ^ c ->
  Z.of_nat (String.length (NilEmpty.string_of_uint (Pos.to_uint p))) <= c.
Proof.
  intros Hc Hp.
  pose proof (to_uint_value p) as Hv.
  pose proof (to_uint_head p) as Hh.
  destruct (Pos.to_uint p) as [ | u | u | u | u | u | u | u | u | u | u ];
    try contradiction;
    cbn [uint_value] in Hv;
    match type of Hv with
    | uint_value ?k u = _ =>
        pose proof (uint_value_lower u k ltac:(lia)) as Hl
    end;
    cbn [NilEmpty.string_of_uint String.length];
    rewrite Nat2Z.inj_succ;
    set (len := Z.of_nat (String.length (NilEmpty.string_of_uint u))) in *;
    assert (Hlen : 0 <= len) by apply Nat2Z.is_nonneg;
    assert (Hpow : 10 ^ len < 10 ^ c)
      by (pose proof (Z.pow_pos_nonneg 10 len ltac:(lia) Hlen); nia);
    apply Z.pow_lt_mono_r_iff in Hpow; lia.
Qed.

Lemma of_Z_pos (p : positive) :
  Str.of_Z (Z.pos p) = NilEmpty.string_of_uint (Pos.to_uint p)
  /\ Str.of_Z (Z.neg p) = String "-" (NilEmpty.string_of_uint (Pos.to_uint p)).
Proof.
  pose proof (DecimalPos.Unsigned.to_uint_nonnil p) as Hnil.
  unfold Str.of_Z. simpl.
  destruct (Pos.to_uint p); [contradiction | split; reflexivity ..].
Qed.

(** The number of digits of [str(n)], the sign not counted. *)
Lemma of_Z_digits (n c : Z) :
  1 <= c ->
  Z.abs n < 10 ^ c ->
  Z.of_nat (String.length (Str.of_Z n)) - (if n <? 0 then 1 else 0) <= c.
Proof.
  intros Hc Hn. destruct n as [ | p | p].
  - simpl. lia.
  - rewrite (proj1 (of_Z_pos p)).
    change (Z.pos p <? 0) with false. cbv iota.
    pose proof (to_uint_length p c ltac:(lia) Hn). lia.
  - rewrite (proj2 (of_Z_pos p)).
    change (Z.neg p <? 0) with true. cbv iota.
    cbn [String.length]. rewrite Nat2Z.inj_succ.
    pose proof (to_uint_length p c ltac:(lia) Hn). lia.
Qed.

(** What [int] has read, [str] writes: a number read from a text
    within the limit has no more digits than the text. *)
Lemma int_str_int (s : string) (n : Z) :
  int s = Some n -> str_int n = Return (Str.of_Z n).
Proof.
  intros Hi. destruct (int_literal s n Hi) as (d & m & Hm & Hn).
  destruct (literal_bounds d m Hm) as (Hb & Hc & He).
  unfold str_int. cbv zeta.
  rewrite (exceeds_limit_mono _ (count_digits d)); [reflexivity | | exact He].
  apply of_Z_digits; [exact Hc | ]. destruct Hn as [-> | ->]; lia.
Qed.

(** *** [int] reads what [str] writes *)

Lemma digits_not_space (s : string) :
  Str.all Str.is_digit s = true ->
  Str.all (fun c => negb (is_space c)) s = true.
Proof.
  apply all_impl. intros c.
  destruct c as [[] [] [] [] [] [] [] []]; vm_compute; intros; congruence.
Qed.

(** [int] takes an ASCII character below 127 as it is. *)
Lemma transform_ascii (s : string) :
  Str.all (fun c => (nat_of_ascii c <? 127)%nat) s = true ->
  transform_decimal_and_space s = Some s.
Proof.
  unfold transform_decimal_and_space.
  induction s as [ | c s IH]; [reflexivity | ].
  cbn [Str.all code_points]. rewrite andb_true_iff, Nat.ltb_lt.
  intros [Hc Hs]. cbv zeta. unfold ord.
  replace (Z.of_nat (nat_of_ascii c) <? 128) with true
    by (symmetry; apply Z.ltb_lt; lia).
  cbn [ascii_form]. unfold ascii_for.
  replace (Z.of_nat (nat_of_ascii c) <? 127) with true
    by (symmetry; apply Z.ltb_lt; lia).
  rewrite Nat2Z.id, ascii_nat_embedding, (IH Hs). reflexivity.
Qed.

Lemma digits_ascii (s : string) :
  Str.all Str.is_digit s = true ->
  Str.all (fun c => (nat_of_ascii c <? 127)%nat) s = true.
Proof.
  apply all_impl. intros c.
  destruct c as [[] [] [] [] [] [] [] []]; vm_compute; intros; congruence.
Qed.

(** The digits of a positive number, as [str] writes them within the
    limit, are read back by [int] as that number, with or without a
    sign before them. *)
Lemma int_positive (p : positive) :
  exceeds_limit
    (Z.of_nat (String.length (NilEmpty.string_of_uint (Pos.to_uint p)))) = false ->
  int (NilEmpty.string_of_uint (Pos.to_uint p)) = Some (Z.pos p)
  /\ int (String "-" (NilEmpty.string_of_uint (Pos.to_uint p))) = Some (Z.neg p).
Proof.
  intros Hlimit.
  pose proof (uint_digits (Pos.to_uint p)) as Hd.
  pose proof (DecimalPos.Unsigned.to_uint_nonnil p) as Hnil.
  pose proof (digits_value_uint (Pos.to_uint p) 0 true (or_introl Hnil)) as Hv.
  rewrite to_uint_value in Hv.
  assert (Hl : literal (NilEmpty.string_of_uint (Pos.to_uint p)) = Some (Z.pos p)).
  { unfold literal. rewrite (count_digits_all _ Hd), Hlimit. exact Hv. }
  pose proof (digits_not_space _ Hd) as Hs.
  pose proof (digits_ascii _ Hd) as Ha.
  assert (Hs' : Str.all (fun c => negb (is_space c))
                  (String "-" (NilEmpty.string_of_uint (Pos.to_uint p))) = true).
  { cbn [Str.all]. rewrite Hs. reflexivity. }
  assert (Ha' : Str.all (fun c => (nat_of_ascii c <? 127)%nat)
                  (String "-" (NilEmpty.string_of_uint (Pos.to_uint p))) = true).
  { cbn [Str.all]. rewrite Ha. reflexivity. }
  unfold int.
  rewrite (transform_ascii _ Ha), (transform_ascii _ Ha').
  rewrite (lstrip_all_kept is_space _ Hs), (rstrip_all_kept is_space _ Hs).
  rewrite (lstrip_all_kept is_space _ Hs'), (rstrip_all_kept is_space _ Hs').
  split.
  - destruct (Pos.to_uint p); [contradiction | exact Hl ..].
  - rewrite Hl. reflexivity.
Qed.

(** [int(str(n))] is [n], when [str(n)] returns. *)
Lemma int_of_Z (n : Z) (text : string) :
  str_int n = Return text -> int text = Some n.
Proof.
  unfold str_int. cbv zeta.
  destruct (exceeds_limit _) eqn:He; [discriminate | ]. intros [= <-].
  destruct n as [ | p | p].
  - unfold int, literal.
    change (transform_decimal_and_space (Str.of_Z 0)) with (Some "0").
    cbn [Str.lstrip Str.rstrip is_space].
    change (count_digits "0") with 1.
    replace (exceeds_limit 1) with false by reflexivity. reflexivity.
  - rewrite (proj1 (of_Z_pos p)) in He |- *.
    change (Z.pos p <? 0) with false in He. cbv iota in He.
    rewrite Z.sub_0_r in He. exact (proj1 (int_positive p He)).
  - rewrite (proj2 (of_Z_pos p)) in He |- *.
    change (Z.neg p <? 0) with true in He. cbv iota in He.
    cbn [String.length] in He. rewrite Nat2Z.inj_succ in He.
    replace (Z.succ (Z.of_nat (String.length
                                 (NilEmpty.string_of_uint (Pos.to_uint p)))) - 1)
      with (Z.of_nat (String.length (NilEmpty.string_of_uint (Pos.to_uint p))))
      in He by lia.
    exact (proj2 (int_positive p He)).
Qed.

(** *** The limit in terms of the number *)

Lemma to_uint_upper (p : positive) :
  Z.pos p < 10 ^ Z.of_nat (String.length (NilEmpty.string_of_uint (Pos.to_uint p))).
Proof.
  pose proof (uint_digits (Pos.to_uint p)) as Hd.
  pose proof (DecimalPos.Unsigned.to_uint_nonnil p) as Hnil.
  pose proof (digits_value_uint (Pos.to_uint p) 0 true (or_introl Hnil)) as Hv.
  rewrite to_uint_value in Hv.
  apply digits_value_bounds in Hv; [ | lia].
  rewrite (count_digits_all _ Hd) in Hv. lia.
Qed.

(** [str(n)] has more than [c] digits when [n] is no less than the
    [c]-th power of ten. *)
Lemma of_Z_digits_lower (n c : Z) :
  0 <= c ->
  10 ^ c <= Z.abs n ->
  c < Z.of_nat (String.length (Str.of_Z n)) - (if n <? 0 then 1 else 0).
Proof.
  intros Hc Hn.
  assert (Hpos : forall p, 10 ^ c <= Z.pos p ->
                 c < Z.of_nat (String.length
                                 (NilEmpty.string_of_uint (Pos.to_uint p)))).
  { intros p Hp. pose proof (to_uint_upper p) as Hu.
    assert (Hlt : 10 ^ c
                  < 10 ^ Z.of_nat (String.length
                                     (NilEmpty.string_of_uint (Pos.to_uint p))))
      by lia.
    apply Z.pow_lt_mono_r_iff in Hlt; [exact Hlt | lia | apply Nat2Z.is_nonneg]. }
  destruct n as [ | p | p].
  - pose proof (Z.pow_pos_nonneg 10 c ltac:(lia) Hc). simpl in Hn. lia.
  - rewrite (proj1 (of_Z_pos p)).
    change (Z.pos p <? 0) with false. cbv iota.
    pose proof (Hpos p Hn). lia.
  - rewrite (proj2 (of_Z_pos p)).
    change (Z.neg p <? 0) with true. cbv iota.
    cbn [String.length]. rewrite Nat2Z.inj_succ.
    pose proof (Hpos p Hn). lia.
Qed.

(** [str] writes every number below the 640th power of ten, whatever
    the limit is; with a limit, which is 640 at least, it writes the
    numbers below that power of ten and raises on the others. *)
Lemma str_int_small (n : Z) :
  Z.abs n < 10 ^ 640 -> str_int n = Return (Str.of_Z n).
Proof.
  intros Hn. unfold str_int. cbv zeta.
  pose proof (of_Z_digits n 640 ltac:(lia) Hn) as Hd.
  unfold exceeds_limit.
  replace (640 <? _) with false by (symmetry; apply Z.ltb_ge; exact Hd).
  reflexivity.
Qed.

Lemma str_int_within (n : Z) :
  640 <= int_max_str_digits ->
  Z.abs n < 10 ^ int_max_str_digits ->
  str_int n = Return (Str.of_Z n).
Proof.
  intros Hmax Hn. unfold str_int. cbv zeta.
  assert (Hone : 1 <= int_max_str_digits) by lia.
  pose proof (of_Z_digits n int_max_str_digits Hone Hn) as Hd.
  unfold exceeds_limit.
  replace (int_max_str_digits <? _) with false
    by (symmetry; apply Z.ltb_ge; exact Hd).
  rewrite andb_false_r. reflexivity.
Qed.

Lemma str_int_beyond (n : Z) :
  640 <= int_max_str_digits ->
  10 ^ int_max_str_digits <= Z.abs n ->
  str_int n = Raise ValueError.
Proof.
  intros Hmax Hn. unfold str_int. cbv zeta.
  assert (Hzero : 0 <= int_max_str_digits) by lia.
  pose proof (of_Z_digits_lower n int_max_str_digits Hzero Hn) as Hd.
  unfold exceeds_limit.
  replace (640 <? _) with true by (symmetry; apply Z.ltb_lt; lia).
  replace (0 <? int_max_str_digits) with true by (symmetry; apply Z.ltb_lt; lia).
  replace (int_max_str_digits <? _) with true by (symmetry; apply Z.ltb_lt; lia).
  reflexivity.
Qed.

(** [int] refuses the text of a number that [str] refuses. *)
Lemma int_of_Z_refused (n : Z) (e : exn) :
  str_int n = Raise e -> int (Str.of_Z n) = None.
Proof.
  unfold str_int. cbv zeta.
  destruct (exceeds_limit _) eqn:He; [intros _ | discriminate].
  pose proof (uint_digits) as Hdigits.
  destruct n as [ | p | p].
  - discriminate He.
  - rewrite (proj1 (of_Z_pos p)) in He |- *.
    change (Z.pos p <? 0) with false in He. cbv iota in He.
    rewrite Z.sub_0_r in He.
    pose proof (Hdigits (Pos.to_uint p)) as Hd.
    pose proof (DecimalPos.Unsigned.to_uint_nonnil p) as Hnil.
    unfold int.
    rewrite (transform_ascii _ (digits_ascii _ Hd)).
    rewrite (lstrip_all_kept is_space _ (digits_not_space _ Hd)),
      (rstrip_all_kept is_space _ (digits_not_space _ Hd)).
    assert (Hl : literal (NilEmpty.string_of_uint (Pos.to_uint p)) = None).
    { unfold literal. rewrite (count_digits_all _ Hd), He. reflexivity. }
    destruct (Pos.to_uint p); [contradiction | exact Hl ..].
  - rewrite (proj2 (of_Z_pos p)) in He |- *.
    change (Z.neg p <? 0) with true in He. cbv iota in He.
    cbn [String.length] in He. rewrite Nat2Z.inj_succ in He.
    replace (Z.succ (Z.of_nat (String.length
                                 (NilEmpty.string_of_uint (Pos.to_uint p)))) - 1)
      with (Z.of_nat (String.length (NilEmpty.string_of_uint (Pos.to_uint p))))
      in He by lia.
    pose proof (Hdigits (Pos.to_uint p)) as Hd.
    assert (Hs' : Str.all (fun c => negb (is_space c))
                    (String "-" (NilEmpty.string_of_uint (Pos.to_uint p))) = true).
    { cbn [Str.all]. rewrite (digits_not_space _ Hd). reflexivity. }
    assert (Ha' : Str.all (fun c => (nat_of_ascii c <? 127)%nat)
                    (String "-" (NilEmpty.string_of_uint (Pos.to_uint p))) = true).
    { cbn [Str.all]. rewrite (digits_ascii _ Hd). reflexivity. }
    unfold int.
    rewrite (transform_ascii _ Ha').
    rewrite (lstrip_all_kept is_space _ Hs'), (rstrip_all_kept is_space _ Hs').
    unfold literal. rewrite (count_digits_all _ Hd), He. reflexivity.
Qed.

End Integers.

(** At the limit of 4300 digits: the largest number of 4300 digits is
    written and read back, the smallest of 4301 digits is refused both
    ways. *)
Example int_and_str_at_the_limit :
  str_int (H := sample_library) (10 ^ 4300 - 1) = Return (Str.of_Z (10 ^ 4300 - 1))
  /\ int (H := sample_library) (Str.of_Z (10 ^ 4300 - 1)) = Some (10 ^ 4300 - 1)
  /\ str_int (H := sample_library) (10 ^ 4300) = Raise ValueError
  /\ int (H := sample_library) (Str.of_Z (10 ^ 4300)) = None.
Proof.
  assert (Hin : str_int (H := sample_library) (10 ^ 4300 - 1)
                = Return (Str.of_Z (10 ^ 4300 - 1))).
  { apply (str_int_within (H := sample_library));
      cbn [int_max_str_digits sample_library]; [lia | ].
    assert (Hp : 0 < 10 ^ 4300) by (apply Z.pow_pos_nonneg; lia).
    revert Hp. generalize (10 ^ 4300). intros P Hp. lia. }
  assert (Hout : str_int (H := sample_library) (10 ^ 4300) = Raise ValueError).
  { apply (str_int_beyond (H := sample_library));
      cbn [int_max_str_digits sample_library]; [lia | ].
    assert (Hp : 0 < 10 ^ 4300) by (apply Z.pow_pos_nonneg; lia).
    revert Hp. generalize (10 ^ 4300). intros P Hp. lia. }
  split; [exact Hin | ].
  split; [exact (int_of_Z (H := sample_library) _ _ Hin) | ].
  split; [exact Hout | ].
  exact (int_of_Z_refused (H := sample_library) _ _ Hout).
Qed.

(** ** One call of [_make_request], by the outcome of the transport *)

Section Execution.
Context `{Library} `{Environment}.

Variable st : state.
Variable rq : RequestSpec.

(** Unfolds a call down to the operations on the state. *)
Ltac unfold_call :=
  unfold execute, _make_request, bind, time_time, get_self, lift, try_except,
    client_request, set_last_request_time, asyncio_sleep, ret, raise.

(** The interpreter raises nothing that an [except] clause catches. *)
Lemma handle_bungie_response_raise (body : value) (e : exn) :
  handle_bungie_response body = Raise e ->
  (exists b, e = Bungie b /\ cls b = BungieAPIException) \/ e = AttributeError.
Proof.
  unfold handle_bungie_response.
  destruct body; try (intros [= <-]; right; reflexivity).
  destruct (_ && _); [ | discriminate].
  intros [= <-]. left. eexists. split; reflexivity.
Qed.

Lemma execute_responded (url : string) (r : httpx.Response) (t : Q) :
  build_url (base_url (self st)) (rs_endpoint rq) = Return url ->
  transport (dispatch_clock (self st) (clock (env st))) (transport_request rq url)
  = (Responded r, t) ->
  execute rq st
  = (response_outcome r,
     {| self := with_last_request_time (self st) t;
        env := world_after st rq url t |}).
Proof.
  intros Hurl Ht.
  unfold_call.
  unfold world_after, dispatch_clock, throttle_events, transport_request in *.
  rewrite Hurl.
  destruct (Qlt_bool _ _); simpl; rewrite Ht; simpl;
    unfold response_outcome, raise_for_status, response_json;
    (destruct (httpx.status_code r =? 429) eqn:E429; simpl;
     [ destruct (httpx.Headers_get _ _) as [v | ]; simpl;
       [ destruct (int v) as [n | ]; simpl;
         [ destruct (str_int n) as [text | e] eqn:Hs; simpl;
           [ | rewrite (str_int_raise _ _ Hs); simpl ]
         | ]
       | ]
     | destruct (httpx.is_success r); simpl;
       [ destruct (httpx.json r) as [body | [ | | | ]]; simpl;
         [ destruct (handle_bungie_response body) as [a | e] eqn:Hh; simpl;
           [ | destruct (handle_bungie_response_raise _ _ Hh)
                 as [(b & -> & _) | ->]; simpl ]
         | .. ]
       | ] ]);
    rewrite ?app_nil_r, <- ?app_assoc; reflexivity.
Qed.

Lemma execute_request_error (url msg : string) (t : Q) :
  build_url (base_url (self st)) (rs_endpoint rq) = Return url ->
  transport (dispatch_clock (self st) (clock (env st))) (transport_request rq url)
  = (RaisedRequestError msg, t) ->
  execute rq st
  = (Raise (Bungie (new_error BungieAPIException
                      ("Request error occurred: " +:+ msg) VNone NoResponse)),
     {| self := self st; env := world_after st rq url t |}).
Proof.
  intros Hurl Ht.
  unfold_call.
  unfold world_after, dispatch_clock, throttle_events, transport_request in *.
  rewrite Hurl.
  destruct (Qlt_bool _ _); simpl; rewrite Ht; simpl;
    rewrite ?app_nil_r, <- ?app_assoc; reflexivity.
Qed.

Lemma execute_other_error (url name : string) (t : Q) :
  build_url (base_url (self st)) (rs_endpoint rq) = Return url ->
  transport (dispatch_clock (self st) (clock (env st))) (transport_request rq url)
  = (RaisedOther name, t) ->
  execute rq st
  = (Raise (OtherError name),
     {| self := self st; env := world_after st rq url t |}).
Proof.
  intros Hurl Ht.
  unfold_call.
  unfold world_after, dispatch_clock, throttle_events, transport_request in *.
  rewrite Hurl.
  destruct (Qlt_bool _ _); simpl; rewrite Ht; simpl;
    rewrite ?app_nil_r, <- ?app_assoc; reflexivity.
Qed.

(** When the URL cannot be built, nothing is dispatched. *)
Lemma execute_bad_url (e : exn) :
  build_url (base_url (self st)) (rs_endpoint rq) = Raise e ->
  execute rq st
  = (Raise e,
     {| self := self st;
        env := {| clock := dispatch_clock (self st) (clock (env st));
                  trace := (trace (env st)
                            ++ throttle_events (self st) (clock (env st)))%list |} |}).
Proof.
  intros Hurl.
  unfold_call.
  unfold dispatch_clock, throttle_events in *.
  rewrite Hurl.
  destruct (Qlt_bool _ _); simpl; rewrite ?app_nil_r; try reflexivity.
  destruct st as [s [c tr]]; reflexivity.
Qed.

End Execution.

Lemma dispatch_times_app (tr1 tr2 : list event) :
  dispatch_times (tr1 ++ tr2) = (dispatch_times tr1 ++ dispatch_times tr2)%list.
Proof.
  induction tr1 as [ | [t d | t rq] tr1 IH]; simpl;
    [reflexivity | exact IH | rewrite IH; reflexivity].
Qed.

Lemma dispatch_times_throttle (s : BungieClient) (now : Q) :
  dispatch_times (throttle_events s now) = [].
Proof. unfold throttle_events. destruct (Qlt_bool _ _); reflexivity. Qed.

Lemma search_url_built :
  build_url (H := sample_library) (base_url (self fresh_state))
    (rs_endpoint search_request)
  = Return search_url.
Proof. vm_compute. reflexivity. Qed.

(** ** Status handling *)

(** C4, amended.  A response with status 429 whose [Retry-After] header
    is absent or holds an integer makes [_make_request] raise a
    [BungieRateLimitException] whose message holds that integer, or 30
    when the header is absent; the request is dispatched once and not
    again. *)
Theorem rate_limit_response `{Library} `{Environment}
    (st : state) (rq : RequestSpec) (url : string) (r : httpx.Response) (t : Q) :
  build_url (base_url (self st)) (rs_endpoint rq) = Return url ->
  transport (dispatch_clock (self st) (clock (env st))) (transport_request rq url)
  = (Responded r, t) ->
  httpx.status_code r = 429 ->
  (forall v n,
      httpx.Headers_get (httpx.headers r) "Retry-After" = Some v ->
      int v = Some n ->
      exists msg,
        fst (execute rq st)
        = Raise (Bungie (new_error BungieRateLimitException msg VNone (HttpResponse r)))
        /\ msg = "Rate limit exceeded. Try again after " +:+ Str.of_Z n +:+ " seconds."
        /\ mentions msg (Str.of_Z n))
  /\ (httpx.Headers_get (httpx.headers r) "Retry-After" = None ->
      exists msg,
        fst (execute rq st)
        = Raise (Bungie (new_error BungieRateLimitException msg VNone (HttpResponse r)))
        /\ msg = "Rate limit exceeded. Try again after 30 seconds."
        /\ mentions msg "30")
  /\ dispatch_times (trace (env (snd (execute rq st))))
     = (dispatch_times (trace (env st))
        ++ [dispatch_clock (self st) (clock (env st))])%list.
Proof.
  intros Hurl Ht H429.
  rewrite (execute_responded st rq url r t Hurl Ht). simpl.
  unfold response_outcome. rewrite H429. simpl.
  split; [ | split].
  - intros v n Hv Hn. rewrite Hv, Hn, (int_str_int v n Hn).
    eexists. split; [reflexivity | ].
    split; [reflexivity | ].
    exists "Rate limit exceeded. Try again after ", " seconds.". reflexivity.
  - intros Hv. rewrite Hv. eexists. split; [reflexivity | ].
    split; [reflexivity | ].
    exists "Rate limit exceeded. Try again after ", " seconds.". reflexivity.
  - rewrite !dispatch_times_app, dispatch_times_throttle. reflexivity.
Qed.

(** The rate-limited responses of the specification: [Retry-After: 45]
    gives a message with 45, no header a message with 30. *)
Lemma rate_limit_response_witness :
  fst (execute (H := sample_library)
         (H0 := steady_environment (Responded (response_429 (Some "45"))))
         search_request fresh_state)
  = Raise (Bungie (new_error BungieRateLimitException
                     "Rate limit exceeded. Try again after 45 seconds."
                     VNone (HttpResponse (response_429 (Some "45")))))
  /\ fst (execute (H := sample_library)
            (H0 := steady_environment (Responded (response_429 None)))
            search_request fresh_state)
     = Raise (Bungie (new_error BungieRateLimitException
                        "Rate limit exceeded. Try again after 30 seconds."
                        VNone (HttpResponse (response_429 None)))).
Proof.
  split.
  - destruct (rate_limit_response (H := sample_library)
                (H0 := steady_environment (Responded (response_429 (Some "45"))))
                fresh_state search_request search_url
                (response_429 (Some "45")) (1000 + (1 # 1000))%Q
                search_url_built eq_refl eq_refl) as [Hsome _].
    destruct (Hsome "45" 45 eq_refl eq_refl) as (msg & Hrun & Hmsg & _).
    rewrite Hrun, Hmsg. reflexivity.
  - destruct (rate_limit_response (H := sample_library)
                (H0 := steady_environment (Responded (response_429 None)))
                fresh_state search_request search_url
                (response_429 None) (1000 + (1 # 1000))%Q
                search_url_built eq_refl eq_refl) as (_ & Hnone & _).
    destruct (Hnone eq_refl) as (msg & Hrun & Hmsg & _).
    rewrite Hrun, Hmsg. reflexivity.
Defined.

(** C4, as stated, fails: a 429 response whose [Retry-After] header is
    not an integer (here a date, which HTTP allows) makes [int] raise
    [ValueError], and no clause of the [try] catches it. *)
Lemma rate_limit_header_not_integer :
  httpx.status_code (response_429 (Some "Wed, 21 Oct 2015 07:28:00 GMT")) = 429
  /\ fst (execute (H := sample_library)
            (H0 := steady_environment
                     (Responded (response_429 (Some "Wed, 21 Oct 2015 07:28:00 GMT"))))
            search_request fresh_state)
     = Raise ValueError
  /\ ~ raises_rate_limit (H := sample_library)
        (H0 := steady_environment
                 (Responded (response_429 (Some "Wed, 21 Oct 2015 07:28:00 GMT"))))
        fresh_state search_request.
Proof.
  split; [reflexivity | ].
  assert (Hrun : fst (execute (H := sample_library)
                        (H0 := steady_environment
                                 (Responded (response_429
                                               (Some "Wed, 21 Oct 2015 07:28:00 GMT"))))
                        search_request fresh_state)
                 = Raise ValueError) by (vm_compute; reflexivity).
  split; [exact Hrun | ].
  intros (b & Hb & _). rewrite Hrun in Hb. discriminate.
Qed.

(** Headers as [int] reads them.  Digits of another script (here
    U+0664 and U+0665) and a no-break space before the number are read,
    and an underscore between two digits is passed over. *)
Example rate_limit_headers_read_by_int :
  int (H := sample_library)
    (String "217" (String "164" (String "217" (String "165" EmptyString))))
  = Some 45
  /\ int (H := sample_library) (String "194" (String "160" "45")) = Some 45
  /\ int (H := sample_library) "4_5" = Some 45.
Proof. repeat split; vm_compute; reflexivity. Qed.

(** A header that [int] refuses, whatever it is, makes the call raise
    [ValueError]: so does a header of 4301 digits under the limit of
    4300 digits. *)
Example rate_limit_header_refused (v : string) :
  int (H := sample_library) v = None ->
  fst (execute (H := sample_library)
         (H0 := steady_environment (Responded (response_429 (Some v))))
         search_request fresh_state)
  = Raise ValueError.
Proof.
  intros Hv.
  rewrite (execute_responded (H := sample_library)
             (H0 := steady_environment (Responded (response_429 (Some v))))
             fresh_state search_request search_url (response_429 (Some v))
             (1000 + (1 # 1000))%Q search_url_built eq_refl).
  cbn [fst]. unfold response_outcome.
  change (httpx.status_code (response_429 (Some v)) =? 429) with true.
  cbv iota.
  change (httpx.Headers_get (httpx.headers (response_429 (Some v))) "Retry-After")
    with (Some v).
  cbv iota beta. rewrite Hv. reflexivity.
Qed.

(** C5. A response with a status of 400 or more other than 429 makes
    [_make_request] raise a [BungieAPIException] that carries the status
    code and the response; a failure of the transport makes it raise a
    [BungieAPIException] with a message and neither code nor response. *)
Theorem http_and_transport_errors `{Library} `{Environment}
    (st : state) (rq : RequestSpec) (url : string) :
  build_url (base_url (self st)) (rs_endpoint rq) = Return url ->
  (forall r t,
      transport (dispatch_clock (self st) (clock (env st))) (transport_request rq url)
      = (Responded r, t) ->
      400 <= httpx.status_code r ->
      httpx.status_code r <> 429 ->
      fst (execute rq st)
      = Raise (Bungie {| cls := BungieAPIException;
                         message := "HTTP error occurred: " +:+ status_error_text r;
                         error_code := VInt (httpx.status_code r);
                         response := HttpResponse r |}))
  /\ (forall msg t,
         transport (dispatch_clock (self st) (clock (env st))) (transport_request rq url)
         = (RaisedRequestError msg, t) ->
         fst (execute rq st)
         = Raise (Bungie {| cls := BungieAPIException;
                            message := "Request error occurred: " +:+ msg;
                            error_code := VNone;
                            response := NoResponse |})).
Proof.
  intros Hurl. split.
  - intros r t Ht H400 H429.
    rewrite (execute_responded st rq url r t Hurl Ht). simpl.
    unfold response_outcome, httpx.is_success.
    apply Z.eqb_neq in H429. rewrite H429.
    replace (httpx.status_code r <=? 299) with false
      by (symmetry; apply Z.leb_gt; lia).
    rewrite andb_false_r. reflexivity.
  - intros msg t Ht.
    rewrite (execute_request_error st rq url msg t Hurl Ht). reflexivity.
Qed.

(** A 503 response and a connection failure. *)
Lemma http_and_transport_errors_witness :
  fst (execute (H := sample_library)
         (H0 := steady_environment (Responded response_503))
         search_request fresh_state)
  = Raise (Bungie (new_error BungieAPIException
                     "HTTP error occurred: status 503"
                     (VInt 503) (HttpResponse response_503)))
  /\ fst (execute (H := sample_library)
            (H0 := steady_environment (RaisedRequestError "All connection attempts failed"))
            search_request fresh_state)
     = Raise (Bungie (new_error BungieAPIException
                        "Request error occurred: All connection attempts failed"
                        VNone NoResponse)).
Proof.
  split.
  - apply (proj1 (http_and_transport_errors (H := sample_library)
                    (H0 := steady_environment (Responded response_503))
                    fresh_state search_request search_url search_url_built)
             response_503 (1000 + (1 # 1000))%Q eq_refl).
    + simpl. lia.
    + simpl. lia.
  - apply (proj2 (http_and_transport_errors (H := sample_library)
                    (H0 := steady_environment
                             (RaisedRequestError "All connection attempts failed"))
                    fresh_state search_request search_url search_url_built)
             "All connection attempts failed" (1000 + (1 # 1000))%Q eq_refl).
Defined.

(** ** The time stamp of the session *)

(** Whatever the outcome, a call changes nothing of the session but the
    time stamp. *)
Lemma execute_frame `{Library} `{Environment} (st : state) (rq : RequestSpec) :
  exists t, self (snd (execute rq st)) = with_last_request_time (self st) t.
Proof.
  assert (Hsame : self st
                  = with_last_request_time (self st) (_last_request_time (self st))).
  { destruct (self st). reflexivity. }
  destruct (build_url (base_url (self st)) (rs_endpoint rq)) as [url | e] eqn:Hurl.
  - destruct (transport (dispatch_clock (self st) (clock (env st)))
                (transport_request rq url)) as [[r | msg | name] t] eqn:Ht.
    + rewrite (execute_responded st rq url r t Hurl Ht). exists t. reflexivity.
    + rewrite (execute_request_error st rq url msg t Hurl Ht).
      exists (_last_request_time (self st)). exact Hsame.
    + rewrite (execute_other_error st rq url name t Hurl Ht).
      exists (_last_request_time (self st)). exact Hsame.
  - rewrite (execute_bad_url st rq e Hurl).
    exists (_last_request_time (self st)). exact Hsame.
Qed.

(** C6. When the transport call returns a response, whatever the
    response, the call leaves the session with the clock reading of that
    moment as its last-request time stamp; and no call, whatever its
    outcome, changes another attribute of the session. *)
Theorem timestamp_recorded_after_response `{Library} `{Environment}
    (st : state) (rq : RequestSpec) :
  let st' := snd (execute rq st) in
  (forall url r t,
      build_url (base_url (self st)) (rs_endpoint rq) = Return url ->
      transport (dispatch_clock (self st) (clock (env st))) (transport_request rq url)
      = (Responded r, t) ->
      _last_request_time (self st') = t /\ clock (env st') = t)
  /\ api_key (self st') = api_key (self st)
  /\ base_url (self st') = base_url (self st)
  /\ timeout (self st') = timeout (self st)
  /\ headers (self st') = headers (self st)
  /\ _min_time_between_requests (self st') = _min_time_between_requests (self st).
Proof.
  intros st'. subst st'. split.
  - intros url r t Hurl Ht.
    rewrite (execute_responded st rq url r t Hurl Ht). simpl.
    split; reflexivity.
  - destruct (execute_frame st rq) as [t ->]. simpl.
    repeat split; reflexivity.
Qed.

(** The time stamp is recorded for a 503 response and for an error
    envelope alike. *)
Lemma timestamp_recorded_after_response_witness :
  _last_request_time
    (self (snd (execute (H := sample_library)
                  (H0 := steady_environment (Responded response_503))
                  search_request fresh_state)))
  = (1000 + (1 # 1000))%Q
  /\ _last_request_time
       (self (snd (execute (H := sample_library)
                     (H0 := steady_environment
                              (Responded (response_200 (VDict envelope_unauthorized))))
                     search_request fresh_state)))
     = (1000 + (1 # 1000))%Q.
Proof.
  split.
  - apply (proj1 (timestamp_recorded_after_response (H := sample_library)
                    (H0 := steady_environment (Responded response_503))
                    fresh_state search_request)
             search_url response_503 (1000 + (1 # 1000))%Q
             search_url_built eq_refl).
  - apply (proj1 (timestamp_recorded_after_response (H := sample_library)
                    (H0 := steady_environment
                             (Responded (response_200 (VDict envelope_unauthorized))))
                    fresh_state search_request)
             search_url (response_200 (VDict envelope_unauthorized))
             (1000 + (1 # 1000))%Q search_url_built eq_refl).
Defined.

(** C10. When the transport call raises instead of returning a
    response, the session is left as it was, time stamp included: a
    later call is throttled against the same time stamp as this one. *)
Theorem timestamp_kept_on_transport_failure `{Library} `{Environment}
    (st : state) (rq : RequestSpec) (url : string) (out : transport_outcome) (t : Q) :
  build_url (base_url (self st)) (rs_endpoint rq) = Return url ->
  transport (dispatch_clock (self st) (clock (env st))) (transport_request rq url)
  = (out, t) ->
  (forall r, out <> Responded r) ->
  self (snd (execute rq st)) = self st
  /\ forall now, throttle_events (self (snd (execute rq st))) now
                 = throttle_events (self st) now.
Proof.
  intros Hurl Ht Hout.
  destruct out as [r | msg | name].
  - exfalso. apply (Hout r). reflexivity.
  - rewrite (execute_request_error st rq url msg t Hurl Ht). simpl.
    split; [reflexivity | intros; reflexivity].
  - rewrite (execute_other_error st rq url name t Hurl Ht). simpl.
    split; [reflexivity | intros; reflexivity].
Qed.

(** After a connection failure the fresh session still has the time
    stamp 0 it was created with. *)
Lemma timestamp_kept_on_transport_failure_witness :
  _last_request_time
    (self (snd (execute (H := sample_library)
                  (H0 := steady_environment (RaisedRequestError "timed out"))
                  search_request fresh_state)))
  = 0%Q.
Proof.
  rewrite (proj1 (timestamp_kept_on_transport_failure (H := sample_library)
                    (H0 := steady_environment (RaisedRequestError "timed out"))
                    fresh_state search_request search_url
                    (RaisedRequestError "timed out") (1000 + (1 # 1000))%Q
                    search_url_built eq_refl
                    ltac:(intros r; discriminate))).
  reflexivity.
Defined.

(** ** The request builders *)

(** C8. [search_destiny_player] requests the endpoint
    [/Destiny2/SearchDestinyPlayer/{membershipType}/{displayName}],
    where the membership type is the entry of the table for the platform
    name compared without regard to case, and "-1" for a platform that
    is unknown or absent; the platform "PSN" gives "2". *)
Theorem search_destiny_player_endpoint `{Library} `{Environment} (display_name : string) :
  (forall p name code,
      In (name, code) platform_table ->
      same_name p name ->
      search_destiny_player display_name (Some p)
      = _make_request "GET" (search_endpoint code display_name) None None)
  /\ (forall p,
         (forall name code, In (name, code) platform_table -> ~ same_name p name) ->
         search_destiny_player display_name (Some p)
         = _make_request "GET" (search_endpoint "-1" display_name) None None)
  /\ search_destiny_player display_name None
     = _make_request "GET" (search_endpoint "-1" display_name) None None
  /\ search_destiny_player display_name (Some "PSN")
     = _make_request "GET" (search_endpoint "2" display_name) None None.
Proof.
  split; [ | split; [ | split; reflexivity]].
  - intros p name code Hin Hsame. unfold same_name in Hsame.
    unfold search_destiny_player, search_endpoint.
    destruct p as [ | c p'].
    + simpl in Hin.
      repeat (destruct Hin as [[= <- <-] | Hin]; [discriminate Hsame | ]).
      destruct Hin.
    + change (Str.nonempty (String c p')) with true. cbv iota.
      rewrite Hsame. simpl in Hin.
      repeat (destruct Hin as [[= <- <-] | Hin]; [reflexivity | ]).
      destruct Hin.
  - intros p Hnone.
    unfold search_destiny_player, search_endpoint.
    destruct (Str.nonempty p); [ | reflexivity].
    assert (Hne : forall name code,
               In (name, code) platform_table -> name <> Str.lower p).
    { intros name code Hin Heq. apply (Hnone name code Hin).
      unfold same_name. rewrite <- Heq.
      simpl in Hin.
      repeat (destruct Hin as [[= <- <-] | Hin]; [reflexivity | ]).
      destruct Hin. }
    unfold platform_map.
    rewrite !lookup_insert_ne, lookup_singleton_ne; [reflexivity | ..].
    + apply (Hne "epic" "6"). simpl. tauto.
    + apply (Hne "stadia" "5"). simpl. tauto.
    + apply (Hne "steam" "3"). simpl. tauto.
    + apply (Hne "psn" "2"). simpl. tauto.
    + apply (Hne "xbox" "1"). simpl. tauto.
Qed.

(** Mixed case resolves as lower case does, and a platform that is not
    in the table resolves to "-1". *)
Example search_destiny_player_platforms `{Library} `{Environment} :
  search_destiny_player "Name#1234" (Some "Steam")
  = _make_request "GET" "/Destiny2/SearchDestinyPlayer/3/Name#1234" None None
  /\ search_destiny_player "Name#1234" (Some "switch")
     = _make_request "GET" "/Destiny2/SearchDestinyPlayer/-1/Name#1234" None None
  /\ search_destiny_player "Name#1234" (Some "")
     = _make_request "GET" "/Destiny2/SearchDestinyPlayer/-1/Name#1234" None None.
Proof. repeat split; reflexivity. Qed.

(** [get_profile] and [get_activity_history] write the membership type
    first: when [str] raises, nothing else is done; otherwise the call
    is one call of [_make_request]. *)
Lemma get_profile_call `{Library} `{Environment}
    (membership_type : Z) (destiny_membership_id : string)
    (components : list string) (st : state) :
  get_profile membership_type destiny_membership_id components st
  = match str_int membership_type with
    | Return text =>
        _make_request "GET"
          ("/Destiny2/" +:+ text +:+ "/Profile/" +:+ destiny_membership_id +:+ "/")
          (Some {["components" := VStr (Str.join "," components)]}) None st
    | Raise e => (Raise e, st)
    end.
Proof.
  unfold get_profile, bind, lift.
  destruct (str_int membership_type); reflexivity.
Qed.

Lemma get_activity_history_call `{Library} `{Environment}
    (membership_type : Z) (destiny_membership_id character_id : string)
    (mode : option Z) (page count : Z) (st : state) :
  get_activity_history membership_type destiny_membership_id character_id
    mode page count st
  = match str_int membership_type with
    | Return text =>
        _make_request "GET"
          ("/Destiny2/" +:+ text +:+ "/Account/" +:+ destiny_membership_id
           +:+ "/Character/" +:+ character_id +:+ "/Stats/Activities/")
          (Some match mode with
                | Some m => <["mode" := VInt m]>
                              (<["page" := VInt page]> {["count" := VInt count]})
                | None => <["page" := VInt page]> {["count" := VInt count]}
                end)
          None st
    | Raise e => (Raise e, st)
    end.
Proof.
  unfold get_activity_history, bind, lift.
  destruct (str_int membership_type); reflexivity.
Qed.

(** ** The exception classes that are raised *)

Section Raised.
Context `{Library}.

Lemma urlsplit_raise (url scheme : string) (e : exn) :
  urllib.urlsplit url scheme = Raise e -> e = ValueError.
Proof.
  unfold urllib.urlsplit. intros Hr.
  repeat case_match; congruence.
Qed.

Lemma urlparse_raise (url scheme : string) (e : exn) :
  urllib.urlparse url scheme = Raise e -> e = ValueError.
Proof.
  unfold urllib.urlparse, bind_result.
  destruct (urllib.urlsplit url scheme) as [r | e'] eqn:Hs.
  - destruct (_ && _); [destruct (urllib._splitparams _) | ]; discriminate.
  - intros [= <-]. exact (urlsplit_raise _ _ _ Hs).
Qed.

(** [build_url] raises nothing but the [ValueError] of [urlsplit]. *)
Lemma build_url_raise (base_url path : string) (e : exn) :
  build_url base_url path = Raise e -> e = ValueError.
Proof.
  unfold build_url, urllib.urljoin, bind_result.
  destruct (negb (Str.nonempty _)); [discriminate | ].
  destruct (negb (Str.nonempty _)); [discriminate | ].
  destruct (urllib.urlparse _ EmptyString) as [b | e'] eqn:Hb.
  - destruct (urllib.urlparse _ (urllib.scheme b)) as [u | e''] eqn:Hu.
    + repeat case_match; discriminate.
    + intros [= <-]. exact (urlparse_raise _ _ _ Hu).
  - intros [= <-]. exact (urlparse_raise _ _ _ Hb).
Qed.

Lemma response_outcome_class (r : httpx.Response) (b : bungie_error) :
  response_outcome r = Raise (Bungie b) ->
  cls b = BungieAPIException \/ cls b = BungieRateLimitException.
Proof.
  unfold response_outcome.
  destruct (httpx.status_code r =? 429).
  - destruct (httpx.Headers_get _ _) as [v | ].
    + destruct (int v) as [n | ]; [ | discriminate].
      destruct (str_int n) as [text | e] eqn:Hs.
      * intros [= <-]. right. reflexivity.
      * rewrite (str_int_raise _ _ Hs). discriminate.
    + intros [= <-]. right. reflexivity.
  - destruct (httpx.is_success r).
    + destruct (httpx.json r) as [body | e]; [ | destruct e; discriminate].
      intros Hh. apply handle_bungie_response_raise in Hh.
      destruct Hh as [(b' & [= <-] & Hc) | [=]]. left. exact Hc.
    + intros [= <-]. left. reflexivity.
Qed.

Lemma execute_class `{Environment} (rq : RequestSpec) (st : state) (b : bungie_error) :
  fst (execute rq st) = Raise (Bungie b) ->
  cls b = BungieAPIException \/ cls b = BungieRateLimitException.
Proof.
  destruct (build_url (base_url (self st)) (rs_endpoint rq)) as [url | e] eqn:Hurl.
  - destruct (transport (dispatch_clock (self st) (clock (env st)))
                (transport_request rq url)) as [[r | msg | name] t] eqn:Ht.
    + rewrite (execute_responded st rq url r t Hurl Ht). simpl.
      apply response_outcome_class.
    + rewrite (execute_request_error st rq url msg t Hurl Ht). simpl.
      intros [= <-]. left. reflexivity.
    + rewrite (execute_other_error st rq url name t Hurl Ht). simpl.
      discriminate.
  - rewrite (execute_bad_url st rq e Hurl). simpl.
    rewrite (build_url_raise _ _ _ Hurl). discriminate.
Qed.

End Raised.

(** C9. Whatever the arguments, the session and the environment, none
    of [_make_request], [search_destiny_player], [get_profile],
    [get_activity_history] and [handle_bungie_response] raises a
    [BungieMaintenanceException]. *)
Theorem maintenance_never_raised `{Library} `{Environment} (st : state) (b : bungie_error) :
  (forall method endpoint params data,
      fst (_make_request method endpoint params data st) = Raise (Bungie b) ->
      cls b <> BungieMaintenanceException)
  /\ (forall display_name platform,
         fst (search_destiny_player display_name platform st) = Raise (Bungie b) ->
         cls b <> BungieMaintenanceException)
  /\ (forall membership_type destiny_membership_id components,
         fst (get_profile membership_type destiny_membership_id components st)
         = Raise (Bungie b) ->
         cls b <> BungieMaintenanceException)
  /\ (forall membership_type destiny_membership_id character_id mode page count,
         fst (get_activity_history membership_type destiny_membership_id
                character_id mode page count st)
         = Raise (Bungie b) ->
         cls b <> BungieMaintenanceException)
  /\ (forall response_data,
         handle_bungie_response response_data = Raise (Bungie b) ->
         cls b <> BungieMaintenanceException).
Proof.
  assert (Hmr : forall method endpoint params data,
             fst (_make_request method endpoint params data st) = Raise (Bungie b) ->
             cls b <> BungieMaintenanceException).
  { intros method endpoint params data Hr.
    destruct (execute_class
                {| rs_method := method; rs_endpoint := endpoint;
                   rs_params := params; rs_data := data |} st b Hr) as [-> | ->];
      discriminate. }
  repeat split.
  - exact Hmr.
  - intros display_name platform. apply Hmr.
  - intros membership_type destiny_membership_id components.
    rewrite get_profile_call.
    destruct (str_int membership_type) as [text | e] eqn:Hs; [apply Hmr | ].
    rewrite (str_int_raise _ _ Hs). discriminate.
  - intros membership_type destiny_membership_id character_id mode page count.
    rewrite get_activity_history_call.
    destruct (str_int membership_type) as [text | e] eqn:Hs; [apply Hmr | ].
    rewrite (str_int_raise _ _ Hs). discriminate.
  - intros response_data Hh. apply handle_bungie_response_raise in Hh.
    destruct Hh as [(b' & [= <-] & ->) | [=]]. discriminate.
Qed.

(** ** The throttle *)

Section Throttle.
Context `{Library} `{Environment}.

Lemma Qlt_bool_iff (x y : Q) : Qlt_bool x y = true <-> (x < y)%Q.
Proof.
  unfold Qlt_bool. rewrite negb_true_iff.
  split.
  - intros Hb. apply Qnot_le_lt. intros Hle.
    apply Qle_bool_iff in Hle. congruence.
  - intros Hlt. destruct (Qle_bool y x) eqn:Hb; [ | reflexivity].
    apply Qle_bool_iff in Hb. exfalso. exact (Qlt_not_le _ _ Hlt Hb).
Qed.

(** The events one call adds to the trace: those of the throttle,
    then the dispatch unless the URL could not be built. *)
Lemma execute_trace (st : state) (rq : RequestSpec) :
  trace (env (snd (execute rq st)))
  = (trace (env st) ++ throttle_events (self st) (clock (env st))
     ++ match build_url (base_url (self st)) (rs_endpoint rq) with
        | Return url =>
            [Dispatched (dispatch_clock (self st) (clock (env st)))
               (transport_request rq url)]
        | Raise _ => []
        end)%list.
Proof.
  destruct (build_url (base_url (self st)) (rs_endpoint rq)) as [url | e] eqn:Hurl.
  - destruct (transport (dispatch_clock (self st) (clock (env st)))
                (transport_request rq url)) as [[r | msg | name] t] eqn:Ht.
    + rewrite (execute_responded st rq url r t Hurl Ht). reflexivity.
    + rewrite (execute_request_error st rq url msg t Hurl Ht). reflexivity.
    + rewrite (execute_other_error st rq url name t Hurl Ht). reflexivity.
  - rewrite (execute_bad_url st rq e Hurl). simpl.
    rewrite app_nil_r. reflexivity.
Qed.

Lemma execute_dispatch_times (st : state) (rq : RequestSpec) :
  dispatch_times (trace (env (snd (execute rq st))))
  = (dispatch_times (trace (env st))
     ++ match build_url (base_url (self st)) (rs_endpoint rq) with
        | Return _ => [dispatch_clock (self st) (clock (env st))]
        | Raise _ => []
        end)%list.
Proof.
  rewrite execute_trace, !dispatch_times_app, dispatch_times_throttle.
  destruct (build_url _ _); reflexivity.
Qed.

(** A call that starts at [now] on a session whose time stamp is [t]
    reaches the transport no earlier than [t] plus the minimum. *)
Lemma dispatch_clock_bound (s : BungieClient) (now : Q) :
  (forall t d, (t + d <= wake t d)%Q) ->
  (_last_request_time s + _min_time_between_requests s
   <= dispatch_clock s now)%Q.
Proof.
  intros Hwake. unfold dispatch_clock.
  destruct (Qlt_bool _ _) eqn:Hb.
  - eapply Qle_trans; [ | apply Hwake]. lra.
  - assert (Hn : ~ (now - _last_request_time s < _min_time_between_requests s)%Q).
    { intros Hlt. apply Qlt_bool_iff in Hlt. congruence. }
    apply Qnot_lt_le in Hn. lra.
Qed.

(** No call reaches the transport before it starts. *)
Lemma dispatch_clock_later (s : BungieClient) (now : Q) :
  (forall t d, (t + d <= wake t d)%Q) ->
  (now <= dispatch_clock s now)%Q.
Proof.
  intros Hwake. unfold dispatch_clock.
  destruct (Qlt_bool _ _) eqn:Hb; [ | lra].
  apply Qlt_bool_iff in Hb.
  eapply Qle_trans; [ | apply Hwake]. lra.
Qed.

End Throttle.

Lemma steady_environment_keeps_time (out : transport_outcome) :
  keeps_time (steady_environment out).
Proof.
  split; simpl.
  - intros t d. apply Qle_refl.
  - intros t _. lra.
Qed.

(** C7, as stated, fails: on a fresh session whose first call ends in a
    transport failure, a second call issued when the first one ends is
    dispatched one millisecond after the first dispatch, in an
    environment that keeps time. *)
Lemma throttle_not_spaced_after_transport_failure :
  keeps_time (steady_environment (RaisedRequestError "timed out"))
  /\ _min_time_between_requests (self fresh_state) = (1 # 10)%Q
  /\ (clock (env (snd (execute (H := sample_library)
                         (H0 := steady_environment (RaisedRequestError "timed out"))
                         search_request fresh_state)))
      <= 1000 + (1 # 1000))%Q
  /\ ~ spaced (H := sample_library)
         (H0 := steady_environment (RaisedRequestError "timed out"))
         fresh_state search_request search_request (1000 + (1 # 1000))%Q.
Proof.
  split; [apply steady_environment_keeps_time | ].
  split; [reflexivity | ].
  split; [vm_compute; discriminate | ].
  intros Hs.
  specialize (Hs 1000%Q (1000 + (1 # 1000))%Q).
  assert (Hgap : (1000 + (1 # 10) <= 1000 + (1 # 1000))%Q).
  { apply Hs. vm_compute. reflexivity. }
  vm_compute in Hgap. apply Hgap. reflexivity.
Qed.

(** C7, amended.  Before the transport call, [_make_request] takes the
    time elapsed since the time stamp of the session and, when it is
    below 100 ms, suspends for exactly the difference; hence, in an
    environment that keeps time, a call that follows a call whose
    transport call returned a response is dispatched at least 100 ms
    after that call was. *)
Theorem throttle_spacing `{Library} `{Environment}
    (st : state) (rq1 rq2 : RequestSpec) (resume : Q) :
  _min_time_between_requests (self st) = (1 # 10)%Q ->
  let now := clock (env st) in
  let elapsed := (now - _last_request_time (self st))%Q in
  let dispatch t :=
    match build_url (base_url (self st)) (rs_endpoint rq1) with
    | Return url => [Dispatched t (transport_request rq1 url)]
    | Raise _ => []
    end in
  ((elapsed < 1 # 10)%Q ->
   trace (env (snd (execute rq1 st)))
   = (trace (env st)
      ++ Slept now ((1 # 10) - elapsed)%Q
         :: dispatch (wake now ((1 # 10) - elapsed)%Q))%list)
  /\ (~ (elapsed < 1 # 10)%Q ->
      trace (env (snd (execute rq1 st))) = (trace (env st) ++ dispatch now)%list)
  /\ (keeps_time _ ->
      (exists url r t,
          build_url (base_url (self st)) (rs_endpoint rq1) = Return url
          /\ transport (dispatch_clock (self st) now) (transport_request rq1 url)
             = (Responded r, t)) ->
      (clock (env (snd (execute rq1 st))) <= resume)%Q ->
      spaced st rq1 rq2 resume).
Proof.
  intros Hmin now elapsed dispatch. subst dispatch.
  split; [ | split].
  - intros Hlt. rewrite execute_trace.
    unfold throttle_events, dispatch_clock. rewrite Hmin.
    fold now. fold elapsed.
    apply Qlt_bool_iff in Hlt. rewrite Hlt. reflexivity.
  - intros Hge. rewrite execute_trace.
    unfold throttle_events, dispatch_clock. rewrite Hmin.
    fold now. fold elapsed.
    destruct (Qlt_bool elapsed (1 # 10)) eqn:Hb; [ | reflexivity].
    apply Qlt_bool_iff in Hb. contradiction.
  - intros [Hwake Htransport] (url & r & t & Hurl & Ht) Hresume t1 t2.
    rewrite (execute_responded st rq1 url r t Hurl Ht) in Hresume |- *.
    simpl in Hresume.
    rewrite execute_dispatch_times. simpl.
    rewrite !dispatch_times_app, dispatch_times_throttle. simpl.
    pose proof (dispatch_clock_bound (with_last_request_time (self st) t) resume Hwake)
      as Hbound.
    simpl in Hbound. rewrite Hmin in Hbound.
    pose proof (Htransport (dispatch_clock (self st) now) (transport_request rq1 url))
      as Hret.
    fold now in Ht. rewrite Ht in Hret. simpl in Hret.
    destruct (build_url _ (rs_endpoint rq2)) as [url2 | e].
    + rewrite <- app_assoc. intros Heq. apply app_inv_head in Heq.
      simpl in Heq. injection Heq as <- <-.
      fold now. lra.
    + rewrite app_nil_r. intros Heq. apply app_inv_head in Heq. discriminate.
Qed.

(** Two searches back to back on a fresh session, each answered after
    one millisecond: the first is dispatched at 1000, the second is
    suspended for 100 ms and dispatched at 1000.101. *)
Lemma throttle_spacing_witness :
  spaced (H := sample_library)
    (H0 := steady_environment (Responded (response_200 (VDict envelope_with_payload))))
    fresh_state search_request search_request (1000 + (1 # 1000))%Q
  /\ dispatch_times
       (trace (env (snd (execute (H := sample_library)
          (H0 := steady_environment (Responded (response_200 (VDict envelope_with_payload))))
          search_request
          (resumed_at
             (snd (execute (H := sample_library)
                (H0 := steady_environment
                         (Responded (response_200 (VDict envelope_with_payload))))
                search_request fresh_state))
             (1000 + (1 # 1000))%Q)))))
     = [1000%Q; (1000 + (1 # 1000) + ((1 # 10) - (1000 + (1 # 1000) - (1000 + (1 # 1000)))))%Q].
Proof.
  split.
  - apply (proj2 (proj2 (throttle_spacing (H := sample_library)
             (H0 := steady_environment
                      (Responded (response_200 (VDict envelope_with_payload))))
             fresh_state search_request search_request (1000 + (1 # 1000))%Q
             eq_refl))).
    + apply steady_environment_keeps_time.
    + exists search_url, (response_200 (VDict envelope_with_payload)),
        (1000 + (1 # 1000))%Q.
      split; [exact search_url_built | reflexivity].
    + vm_compute. discriminate.
  - vm_compute. reflexivity.
Defined.

(** ** Joining URLs *)


(** *** Facts on characters and schemes *)

Section Joining.
Context `{Library}.

Ltac by_char c :=
  destruct c as [[] [] [] [] [] [] [] []]; vm_compute; intros; congruence.

Lemma scheme_char_facts (c : ascii) :
  urllib.scheme_chars c = true ->
  urllib._WHATWG_C0_CONTROL_OR_SPACE c = false
  /\ urllib._UNSAFE_URL_BYTES_TO_REMOVE c = false
  /\ Ascii.eqb c ":" = false.
Proof.
  intros Hc. repeat split; revert Hc; by_char c.
Qed.

Lemma scheme_facts (scheme : string) :
  In scheme urllib.uses_relative -> scheme <> EmptyString ->
  exists c0 rest,
    scheme = String c0 rest
    /\ Str.is_ascii_alpha c0 = true
    /\ Str.all urllib.scheme_chars scheme = true
    /\ Str.lower scheme = scheme
    /\ urllib.member scheme urllib.uses_relative = true
    /\ urllib.member scheme urllib.uses_netloc = true.
Proof.
  intros Hin Hne. unfold urllib.uses_relative in Hin. simpl in Hin.
  repeat (destruct Hin as [<- | Hin];
          [first [contradiction Hne; reflexivity
                 | eexists _, _; repeat split; reflexivity] | ]).
  destruct Hin.
Qed.

(** The characters of a joined list of plain segments. *)
Lemma plain_segment_chars (s : string) :
  plain_segment s = true -> Str.all plain_char s = true.
Proof.
  unfold plain_segment. rewrite !andb_true_iff. tauto.
Qed.

Lemma plain_segments_chars (l : list string) :
  forallb plain_segment l = true -> forallb (Str.all plain_char) l = true.
Proof.
  induction l as [ | x l IH]; simpl; [reflexivity | ].
  rewrite !andb_true_iff. intros [Hx Hl].
  split; [apply plain_segment_chars, Hx | apply IH, Hl].
Qed.

Lemma plain_char_path_char (c : ascii) :
  plain_char c = true -> path_char c = true.
Proof. by_char c. Qed.

Lemma path_char_facts (c : ascii) :
  path_char c = true ->
  urllib._UNSAFE_URL_BYTES_TO_REMOVE c = false
  /\ Ascii.eqb c "#" = false /\ Ascii.eqb c "?" = false
  /\ Ascii.eqb c ";" = false.
Proof. intros Hc. repeat split; revert Hc; by_char c. Qed.

Lemma plain_char_not_slash (c : ascii) :
  plain_char c = true -> Ascii.eqb c "/" = false.
Proof. by_char c. Qed.

Lemma netloc_char_facts (c : ascii) :
  Str.is_ascii c && negb (Str.among "/?#[]" c)
  && negb (urllib._UNSAFE_URL_BYTES_TO_REMOVE c) = true ->
  Str.is_ascii c = true
  /\ negb (Str.among "/?#" c) = true
  /\ urllib._UNSAFE_URL_BYTES_TO_REMOVE c = false
  /\ negb (Ascii.eqb c "[") = true /\ negb (Ascii.eqb c "]") = true.
Proof. intros Hc. repeat split; revert Hc; by_char c. Qed.

(** The path of a base: a slash before every segment. *)
Lemma joined_path_chars (l : list string) :
  forallb (Str.all plain_char) l = true ->
  Str.all path_char (Str.join "/" l) = true.
Proof.
  intros Hl. apply all_join; [reflexivity | ].
  rewrite forallb_forall in Hl |- *. intros s Hs.
  eapply all_impl; [exact plain_char_path_char | apply Hl, Hs].
Qed.

Lemma base_path_head (bsegs : list string) :
  exists rest, Str.join "/" (EmptyString :: bsegs) +:+ "/" = String "/" rest.
Proof.
  destruct bsegs as [ | x l]; [exists EmptyString | eexists]; reflexivity.
Qed.

Lemma all_not_unsafe (p : ascii -> bool) (s : string) :
  (forall c, p c = true -> urllib._UNSAFE_URL_BYTES_TO_REMOVE c = false) ->
  Str.all p s = true ->
  Str.all (fun c => negb (urllib._UNSAFE_URL_BYTES_TO_REMOVE c)) s = true.
Proof.
  intros Hp. apply all_impl. intros c Hc. rewrite (Hp c Hc). reflexivity.
Qed.

Lemma base_parse (scheme netloc : string) (bsegs : list string) :
  In scheme urllib.uses_relative -> scheme <> EmptyString ->
  plain_netloc netloc = true ->
  forallb plain_segment bsegs = true ->
  let bpath := Str.join "/" (EmptyString :: bsegs) in
  urllib.urlparse (scheme +:+ "://" +:+ netloc +:+ bpath +:+ "/") EmptyString
  = Return {| urllib.scheme := scheme; urllib.netloc := netloc;
              urllib.path := bpath +:+ "/"; urllib.params := EmptyString;
              urllib.query := EmptyString; urllib.fragment := EmptyString |}.
Proof.
  intros Hin Hne Hnet Hsegs bpath.
  destruct (scheme_facts scheme Hin Hne)
    as (c0 & srest & Hs & Halpha & Hchars & Hlower & Hrel & Hnl).
  unfold plain_netloc in Hnet. apply andb_true_iff in Hnet as [Hnet0 Hnet].
  assert (Hbp : Str.all path_char (bpath +:+ "/") = true).
  { rewrite all_append. subst bpath.
    rewrite (joined_path_chars (EmptyString :: bsegs)); [reflexivity | ].
    simpl. apply plain_segments_chars, Hsegs. }
  set (rest := netloc +:+ bpath +:+ "/").
  assert (Hclean : Str.remove urllib._UNSAFE_URL_BYTES_TO_REMOVE
                     (Str.lstrip urllib._WHATWG_C0_CONTROL_OR_SPACE
                        (scheme +:+ "://" +:+ rest))
                   = scheme +:+ "://" +:+ rest).
  { assert (Hl : Str.lstrip urllib._WHATWG_C0_CONTROL_OR_SPACE
                   (scheme +:+ "://" +:+ rest) = scheme +:+ "://" +:+ rest).
    { rewrite Hs, append_cons. simpl Str.lstrip.
      destruct (scheme_char_facts c0) as (-> & _).
      - rewrite Hs in Hchars. simpl in Hchars.
        apply andb_true_iff in Hchars. tauto.
      - reflexivity. }
    rewrite Hl. apply remove_all_kept.
    subst rest.
    rewrite (all_append _ scheme), (all_append _ "://"), (all_append _ netloc).
    rewrite (all_not_unsafe _ scheme
               (fun c Hc => proj1 (proj2 (scheme_char_facts c Hc))) Hchars).
    rewrite (all_not_unsafe _ netloc
               (fun c Hc => proj1 (proj2 (proj2 (netloc_char_facts c Hc)))) Hnet).
    rewrite (all_not_unsafe _ (bpath +:+ "/")
               (fun c Hc => proj1 (path_char_facts c Hc)) Hbp).
    reflexivity. }
  assert (Hpart : Str.partition ":" (scheme +:+ "://" +:+ rest)
                  = Some (scheme, "//" +:+ rest)).
  { apply (partition_first ":" scheme ("//" +:+ rest)).
    eapply (all_not_contains urllib.scheme_chars); [reflexivity | exact Hchars]. }
  unfold urllib.urlparse, urllib.urlsplit. cbv zeta.
  fold rest. rewrite Hclean, Hpart.
  rewrite Hs at 1. cbv beta iota.
  rewrite Halpha, Hchars, Hlower. cbn [andb].
  change (Str.startswith "//" ("//" +:+ rest)) with true. cbv beta iota.
  assert (Hspan : urllib._splitnetloc ("//" +:+ rest) = (netloc, bpath +:+ "/")).
  { unfold urllib._splitnetloc.
    change (Str.drop 2 ("//" +:+ rest)) with (netloc +:+ bpath +:+ "/").
    destruct (base_path_head bsegs) as [tail Htail]. fold bpath in Htail.
    apply span_all.
    - eapply all_impl; [ | exact Hnet].
      intros c Hc. apply (netloc_char_facts c Hc).
    - rewrite Htail. reflexivity. }
  rewrite Hspan. cbv beta iota.
  assert (Hopen : Str.contains "[" netloc = false).
  { eapply (all_not_contains (fun c => negb (Ascii.eqb c "["))); [reflexivity | ].
    eapply all_impl; [ | exact Hnet].
    intros c Hc. apply (netloc_char_facts c Hc). }
  assert (Hclose : Str.contains "]" netloc = false).
  { eapply (all_not_contains (fun c => negb (Ascii.eqb c "]"))); [reflexivity | ].
    eapply all_impl; [ | exact Hnet].
    intros c Hc. apply (netloc_char_facts c Hc). }
  rewrite Hopen, Hclose. cbn [andb orb negb].
  rewrite (partition_absent "#" (bpath +:+ "/")).
  2:{ eapply (all_not_contains path_char); [reflexivity | exact Hbp]. }
  rewrite (partition_absent "?" (bpath +:+ "/")).
  2:{ eapply (all_not_contains path_char); [reflexivity | exact Hbp]. }
  unfold urllib._checknetloc.
  rewrite (all_impl _ Str.is_ascii netloc
             (fun c Hc => proj1 (netloc_char_facts c Hc)) Hnet).
  rewrite orb_true_r. cbn [bind_result urllib.s_path urllib.s_scheme
                            urllib.s_netloc urllib.s_query urllib.s_fragment].
  rewrite (all_not_contains path_char ";" (bpath +:+ "/") eq_refl Hbp).
  rewrite andb_false_r. reflexivity.
Qed.


Lemma scheme_test_fails {A : Type} (url : string)
    (yes : string -> string -> A) (no : A) :
  has_scheme url = false ->
  match Str.partition ":" url with
  | Some (String c0 _ as before, after) =>
      if Str.is_ascii_alpha c0 && Str.all urllib.scheme_chars before
      then yes before after else no
  | _ => no
  end = no.
Proof.
  unfold has_scheme.
  destruct (Str.partition ":" url) as [[[ | c0 r] after] | ];
    [reflexivity | intros ->; reflexivity | reflexivity].
Qed.

Lemma lstrip_clean (url : string) :
  starts_clean url = true ->
  Str.lstrip urllib._WHATWG_C0_CONTROL_OR_SPACE url = url.
Proof.
  destruct url as [ | c url]; simpl; [reflexivity | ].
  rewrite negb_true_iff. intros ->. reflexivity.
Qed.

Lemma no_double_slash (url : string) :
  Str.startswith "/" url = false -> Str.startswith "//" url = false.
Proof.
  destruct url as [ | c url]; simpl; [reflexivity | ].
  rewrite andb_true_r. intros ->. reflexivity.
Qed.

Lemma leaf_chars (leaf : string) :
  leaf = EmptyString \/ plain_segment leaf = true ->
  Str.all plain_char leaf = true.
Proof. intros [-> | Hl]; [reflexivity | apply plain_segment_chars, Hl]. Qed.

Lemma relative_path_chars (dirs : list string) (leaf : string) :
  forallb plain_segment dirs = true ->
  leaf = EmptyString \/ plain_segment leaf = true ->
  Str.all path_char (Str.join "/" (dirs ++ [leaf])) = true.
Proof.
  intros Hd Hl. apply joined_path_chars.
  rewrite forallb_app, (plain_segments_chars dirs Hd). simpl.
  rewrite (leaf_chars leaf Hl). reflexivity.
Qed.

Lemma optional_split (mark : ascii) (before s : string) :
  Str.contains mark before = false ->
  match Str.partition mark (before +:+ optional (String mark EmptyString) s) with
  | Some (u, f) => (u, f)
  | None => (before +:+ optional (String mark EmptyString) s, EmptyString)
  end = (before, s).
Proof.
  intros Hb. unfold optional. destruct s as [ | c s]; simpl Str.nonempty; cbv iota.
  - rewrite append_nil_r, (partition_absent mark before Hb). reflexivity.
  - change (String mark EmptyString +:+ String c s) with (String mark (String c s)).
    rewrite (partition_first mark before (String c s) Hb). reflexivity.
Qed.

Lemma path_parse (scheme : string) (dirs : list string)
    (leaf query fragment : string) :
  In scheme urllib.uses_relative -> scheme <> EmptyString ->
  forallb plain_segment dirs = true ->
  leaf = EmptyString \/ plain_segment leaf = true ->
  plain_query query = true ->
  plain_fragment fragment = true ->
  let ppath := Str.join "/" (dirs ++ [leaf]) in
  let url := (ppath +:+ optional "?" query) +:+ optional "#" fragment in
  starts_clean url = true ->
  has_scheme url = false ->
  Str.startswith "/" url = false ->
  urllib.urlparse url scheme
  = Return {| urllib.scheme := scheme; urllib.netloc := EmptyString;
              urllib.path := ppath; urllib.params := EmptyString;
              urllib.query := query; urllib.fragment := fragment |}.
Proof.
  intros Hin Hne Hd Hl Hq Hf ppath url Hclean Hns Hslash.
  destruct (scheme_facts scheme Hin Hne)
    as (c0 & srest & Hs & Halpha & Hchars & Hlower & Hrel & Hnl).
  pose proof (relative_path_chars dirs leaf Hd Hl) as Hpp. fold ppath in Hpp.
  assert (Hunsafe : Str.remove urllib._UNSAFE_URL_BYTES_TO_REMOVE url = url).
  { apply remove_all_kept. subst url.
    rewrite !all_append.
    rewrite (all_not_unsafe _ ppath (fun c Hc => proj1 (path_char_facts c Hc)) Hpp).
    unfold optional.
    destruct query as [ | q0 query], fragment as [ | f0 fragment];
      simpl Str.nonempty; cbv iota; rewrite ?all_append;
      try (rewrite (all_impl _ (fun c => negb (urllib._UNSAFE_URL_BYTES_TO_REMOVE c))
                      (String q0 query)
                      (fun c Hc => proj2 (proj1 (andb_true_iff _ _) Hc)) Hq));
      try (unfold plain_fragment in Hf; rewrite Hf); reflexivity. }
  assert (Hsch : Str.remove urllib._UNSAFE_URL_BYTES_TO_REMOVE
                   (Str.rstrip urllib._WHATWG_C0_CONTROL_OR_SPACE
                      (Str.lstrip urllib._WHATWG_C0_CONTROL_OR_SPACE scheme))
                 = scheme).
  { rewrite lstrip_all_kept, rstrip_all_kept, remove_all_kept; try reflexivity.
    - apply (all_not_unsafe _ scheme
               (fun c Hc => proj1 (proj2 (scheme_char_facts c Hc))) Hchars).
    - eapply all_impl; [ | exact Hchars].
      intros c Hc. rewrite (proj1 (scheme_char_facts c Hc)). reflexivity.
    - eapply all_impl; [ | exact Hchars].
      intros c Hc. rewrite (proj1 (scheme_char_facts c Hc)). reflexivity. }
  unfold urllib.urlparse, urllib.urlsplit. cbv zeta.
  rewrite (lstrip_clean url Hclean), Hunsafe, Hsch.
  rewrite (scheme_test_fails url _ _ Hns).
  rewrite (no_double_slash url Hslash). cbn [Str.contains andb orb negb].
  assert (Hhash : Str.contains "#" (ppath +:+ optional "?" query) = false).
  { rewrite contains_append.
    rewrite (all_not_contains path_char "#" ppath eq_refl Hpp).
    unfold optional. destruct query as [ | q0 query]; [reflexivity | ].
    simpl Str.nonempty. cbv iota.
    change ("?" +:+ String q0 query) with (String "?" (String q0 query)).
    cbn [Str.contains orb].
    apply (all_not_contains _ "#" (String q0 query)) in Hq; [ | reflexivity].
    exact Hq. }
  subst url.
  rewrite (optional_split "#" (ppath +:+ optional "?" query) fragment Hhash).
  rewrite (optional_split "?" ppath query
             (all_not_contains path_char "?" ppath eq_refl Hpp)).
  change (urllib._checknetloc EmptyString) with true.
  cbn [bind_result urllib.s_path urllib.s_scheme
       urllib.s_netloc urllib.s_query urllib.s_fragment].
  rewrite (all_not_contains path_char ";" ppath eq_refl Hpp).
  rewrite andb_false_r. reflexivity.
Qed.

(** *** Facts on the segments *)

Lemma filter_middle_ends (first : string) (mid : list string) (lst : string) :
  urllib.filter_middle (first :: mid ++ [lst])
  = first :: List.filter Str.nonempty mid ++ [lst].
Proof.
  unfold urllib.filter_middle.
  destruct (mid ++ [lst])%list as [ | x l] eqn:Hm.
  - destruct mid; discriminate.
  - rewrite <- Hm, removelast_last, last_last. reflexivity.
Qed.

Lemma filter_nonempty_kept (l : list string) :
  forallb plain_segment l = true -> List.filter Str.nonempty l = l.
Proof.
  induction l as [ | x l IH]; simpl; [reflexivity | ].
  rewrite andb_true_iff. intros [Hx Hl].
  unfold plain_segment in Hx. rewrite !andb_true_iff in Hx.
  destruct Hx as [[[-> _] _] _]. rewrite (IH Hl). reflexivity.
Qed.

Lemma resolve_kept (segments : list string) :
  forallb kept_segment segments = true ->
  urllib.resolve segments = segments.
Proof.
  unfold urllib.resolve.
  enough (Hgen : forall acc,
             forallb kept_segment segments = true ->
             fold_left
               (fun resolved_path seg =>
                  if String.eqb seg ".." then removelast resolved_path
                  else if String.eqb seg "." then resolved_path
                  else (resolved_path ++ [seg])%list)
               segments acc
             = (acc ++ segments)%list).
  { intros Hk. exact (Hgen [] Hk). }
  induction segments as [ | x l IH]; intros acc Hk; simpl.
  - rewrite app_nil_r. reflexivity.
  - simpl in Hk. apply andb_true_iff in Hk as [Hx Hl].
    unfold kept_segment in Hx. rewrite andb_true_iff, !negb_true_iff in Hx.
    destruct Hx as [-> ->].
    rewrite (IH _ Hl), <- app_assoc. reflexivity.
Qed.

Lemma plain_segment_kept (s : string) :
  plain_segment s = true -> kept_segment s = true.
Proof.
  unfold plain_segment, kept_segment. rewrite !andb_true_iff.
  intros [[_ Hd] Hdd]. split; assumption.
Qed.

Lemma plain_segments_kept (l : list string) :
  forallb plain_segment l = true -> forallb kept_segment l = true.
Proof.
  induction l as [ | x l IH]; simpl; [reflexivity | ].
  rewrite !andb_true_iff. intros [Hx Hl].
  split; [apply plain_segment_kept, Hx | apply IH, Hl].
Qed.

Lemma leaf_kept (leaf : string) :
  leaf = EmptyString \/ plain_segment leaf = true -> kept_segment leaf = true.
Proof. intros [-> | Hl]; [reflexivity | apply plain_segment_kept, Hl]. Qed.

Lemma plain_segments_no_slash (l : list string) :
  forallb (Str.all plain_char) l = true ->
  forallb (fun s => negb (Str.contains "/" s)) l = true.
Proof.
  induction l as [ | x l IH]; simpl; [reflexivity | ].
  rewrite !andb_true_iff. intros [Hx Hl]. split; [ | apply IH, Hl].
  rewrite (all_not_contains plain_char "/" x eq_refl Hx). reflexivity.
Qed.

(** *** Putting the parts together *)

Lemma unparse_plain (scheme netloc tail query fragment : string) :
  Str.nonempty scheme = true -> Str.nonempty netloc = true ->
  urllib.urlunparse
    {| urllib.scheme := scheme; urllib.netloc := netloc;
       urllib.path := String "/" tail; urllib.params := EmptyString;
       urllib.query := query; urllib.fragment := fragment |}
  = scheme +:+ "://" +:+ netloc +:+ String "/" tail
    +:+ optional "?" query +:+ optional "#" fragment.
Proof.
  intros Hs Hn.
  unfold urllib.urlunparse, urllib.urlunsplit, optional.
  cbn [urllib.scheme urllib.netloc urllib.path urllib.params urllib.query
       urllib.fragment urllib.s_scheme urllib.s_netloc urllib.s_path
       urllib.s_query urllib.s_fragment Str.nonempty].
  rewrite Hs, Hn. cbn [orb andb negb Str.startswith Ascii.eqb].
  change (Ascii.eqb "/" "/") with true. cbn [andb negb].
  destruct query as [ | q0 query], fragment as [ | f0 fragment];
    cbn [Str.nonempty]; rewrite ?append_assoc, ?append_nil_r; reflexivity.
Qed.

Lemma nonempty_false (s : string) : Str.nonempty s = false -> s = EmptyString.
Proof. destruct s; [reflexivity | discriminate]. Qed.

Lemma query_or_empty (query : string) :
  (if Str.nonempty query then query else EmptyString) = query.
Proof. destruct query; reflexivity. Qed.

Lemma urljoin_plain (scheme netloc : string) (bsegs dirs : list string)
    (leaf query fragment : string) :
  In scheme urllib.uses_relative -> scheme <> EmptyString ->
  plain_netloc netloc = true ->
  forallb plain_segment bsegs = true ->
  forallb plain_segment dirs = true ->
  leaf = EmptyString \/ plain_segment leaf = true ->
  plain_query query = true ->
  plain_fragment fragment = true ->
  let bpath := Str.join "/" (EmptyString :: bsegs) in
  let ppath := Str.join "/" (dirs ++ [leaf]) in
  let url := (ppath +:+ optional "?" query) +:+ optional "#" fragment in
  starts_clean url = true ->
  has_scheme url = false ->
  Str.startswith "/" url = false ->
  urllib.urljoin (scheme +:+ "://" +:+ netloc +:+ bpath +:+ "/") url
  = Return (scheme +:+ "://" +:+ netloc +:+ bpath +:+ "/" +:+ url).
Proof.
  intros Hin Hne Hnet Hb Hd Hl Hq Hf bpath ppath url Hclean Hns Hslash.
  destruct (scheme_facts scheme Hin Hne)
    as (c0 & srest & Hs & Halpha & Hchars & Hlower & Hrel & Hnl).
  assert (Hsn : Str.nonempty scheme = true) by (rewrite Hs; reflexivity).
  assert (Hnn : Str.nonempty netloc = true).
  { unfold plain_netloc in Hnet. apply andb_true_iff in Hnet. tauto. }
  destruct (base_path_head bsegs) as [tail Htail]. fold bpath in Htail.
  unfold urllib.urljoin.
  replace (Str.nonempty (scheme +:+ "://" +:+ netloc +:+ bpath +:+ "/"))
    with true by (rewrite Hs; reflexivity).
  cbn [negb].
  destruct (Str.nonempty url) eqn:Hu; cbn [negb].
  2:{ rewrite (nonempty_false url Hu). reflexivity. }
  pose proof (base_parse scheme netloc bsegs Hin Hne Hnet Hb) as Hbase.
  cbv zeta in Hbase. fold bpath in Hbase. rewrite Hbase.
  cbn [bind_result urllib.scheme].
  pose proof (path_parse scheme dirs leaf query fragment
                Hin Hne Hd Hl Hq Hf Hclean Hns Hslash) as Hpath.
  cbv zeta in Hpath. fold ppath in Hpath. fold url in Hpath. rewrite Hpath.
  cbn [bind_result urllib.scheme urllib.netloc urllib.path urllib.params
       urllib.query urllib.fragment Str.nonempty].
  rewrite String.eqb_refl, Hrel, Hnl. cbn [negb orb andb].
  destruct (Str.nonempty ppath) eqn:Hpp; cbn [negb andb].
  - (* the path has segments *)
    assert (Hbparts : Str.split "/" (bpath +:+ "/")
                      = ((EmptyString :: bsegs) ++ [EmptyString])%list).
    { rewrite (split_append "/" bpath EmptyString). subst bpath.
      rewrite split_join; [reflexivity | discriminate | ].
      apply (plain_segments_no_slash (EmptyString :: bsegs)).
      simpl. apply plain_segments_chars, Hb. }
    assert (Hpparts : Str.split "/" ppath = (dirs ++ [leaf])%list).
    { subst ppath. apply split_join.
      - destruct dirs; discriminate.
      - apply plain_segments_no_slash.
        rewrite forallb_app, (plain_segments_chars dirs Hd). simpl.
        rewrite (leaf_chars leaf Hl). reflexivity. }
    assert (Hrel_path : Str.startswith "/" ppath = false).
    { pose proof Hslash as Hsl. subst url.
      rewrite append_assoc, (startswith_append "/" ppath _ Hpp) in Hsl.
      exact Hsl. }
    rewrite Hbparts, Hpparts, Hrel_path, last_last. cbn [Str.nonempty].
    replace (((EmptyString :: bsegs) ++ [EmptyString]) ++ dirs ++ [leaf])%list
      with (EmptyString :: (bsegs ++ [EmptyString] ++ dirs) ++ [leaf])%list
      by (simpl; rewrite <- !app_assoc; reflexivity).
    rewrite filter_middle_ends, !List.filter_app.
    rewrite (filter_nonempty_kept bsegs Hb), (filter_nonempty_kept dirs Hd).
    cbn [List.filter Str.nonempty app].
    set (segments := (EmptyString :: (bsegs ++ dirs) ++ [leaf])%list).
    assert (Hlast : List.last segments EmptyString = leaf).
    { subst segments.
      change (EmptyString :: (bsegs ++ dirs) ++ [leaf])%list
        with ((EmptyString :: bsegs ++ dirs) ++ [leaf])%list.
      apply last_last. }
    pose proof (leaf_kept leaf Hl) as Hlk.
    unfold kept_segment in Hlk. rewrite andb_true_iff, !negb_true_iff in Hlk.
    destruct Hlk as [Hdd Hdot].
    rewrite Hlast, Hdot, Hdd. cbn [orb].
    rewrite resolve_kept.
    2:{ subst segments. simpl.
        rewrite !forallb_app, (plain_segments_kept bsegs Hb),
          (plain_segments_kept dirs Hd). simpl.
        rewrite (leaf_kept leaf Hl). reflexivity. }
    assert (Hjoin : Str.join "/" segments = String "/" (tail +:+ ppath)).
    { subst segments.
      replace (EmptyString :: (bsegs ++ dirs) ++ [leaf])%list
        with ((EmptyString :: bsegs) ++ dirs ++ [leaf])%list
        by (simpl; rewrite <- !app_assoc; reflexivity).
      rewrite join_app; [ | discriminate | destruct dirs; discriminate].
      fold bpath. fold ppath.
      rewrite <- append_cons, <- Htail, !append_assoc. reflexivity. }
    rewrite Hjoin. cbn [Str.nonempty].
    rewrite (unparse_plain scheme netloc (tail +:+ ppath) query fragment Hsn Hnn).
    f_equal. subst url.
    rewrite <- append_cons, <- Htail, !append_assoc. reflexivity.
  - (* the path is empty: only a query or a fragment *)
    apply nonempty_false in Hpp.
    rewrite query_or_empty, Htail.
    rewrite (unparse_plain scheme netloc tail query fragment Hsn Hnn).
    f_equal. subst url. rewrite Hpp, <- Htail, !append_assoc. reflexivity.
Qed.

End Joining.

(** The joins of the specification: a slash on either side of the seam,
    on both sides or on none gives the same URL. *)
Example build_url_platform `{Library} :
  build_url "https://www.bungie.net/Platform" "/Destiny2/Foo"
  = Return "https://www.bungie.net/Platform/Destiny2/Foo"
  /\ build_url "https://www.bungie.net/Platform/" "/Destiny2/Foo"
     = Return "https://www.bungie.net/Platform/Destiny2/Foo"
  /\ build_url "https://www.bungie.net/Platform/" "Destiny2/Foo"
     = Return "https://www.bungie.net/Platform/Destiny2/Foo"
  /\ build_url "https://www.bungie.net/Platform" "Destiny2/Foo"
     = Return "https://www.bungie.net/Platform/Destiny2/Foo".
Proof. repeat split; reflexivity. Qed.

(** C3, as stated, fails: [urljoin] resolves the path against the base,
    so a ".." segment removes the segment before it, and an empty
    segment is dropped. *)
Lemma build_url_resolves_dot_segments :
  build_url (H := sample_library)
    "https://www.bungie.net/Platform" "/Destiny2/../Foo"
  = Return "https://www.bungie.net/Platform/Foo"
  /\ build_url (H := sample_library)
       "https://www.bungie.net/Platform" "/Destiny2//Foo"
     = Return "https://www.bungie.net/Platform/Destiny2/Foo"
  /\ ~ joined_at_seam (H := sample_library)
        "https://www.bungie.net/Platform" "/Destiny2/../Foo".
Proof.
  split; [reflexivity | split; [reflexivity | ]].
  unfold joined_at_seam. vm_compute. discriminate.
Qed.

(** Other paths that are not appended as they are: an absolute URL
    replaces the base, and an empty query loses its mark. *)
Example build_url_other_paths `{Library} :
  build_url "https://www.bungie.net/Platform" "https://example.org/x"
  = Return "https://example.org/x"
  /\ build_url "https://www.bungie.net/Platform" "/Destiny2/Foo?"
     = Return "https://www.bungie.net/Platform/Destiny2/Foo".
Proof. split; reflexivity. Qed.

(** C3, amended.  For a base URL [scheme://netloc/s1/.../sn] with any
    number of trailing slashes, whose scheme is one of [uses_relative],
    and a path that after its leading slashes reads
    [d1/.../dk/leaf?query#fragment] (query and fragment optional, the
    leaf possibly empty), all segments plain, that neither begins with a
    control character or a space nor with a scheme, [build_url] returns
    the base without its trailing slashes, one slash, and the path
    without its leading slashes. *)
Theorem build_url_joins_plain `{Library}
    (base_url path scheme netloc : string) (bsegs dirs : list string)
    (leaf query fragment : string) :
  In scheme urllib.uses_relative -> scheme <> EmptyString ->
  plain_netloc netloc = true ->
  forallb plain_segment bsegs = true ->
  Str.rstrip (Str.is_char "/") base_url
  = scheme +:+ "://" +:+ netloc +:+ Str.join "/" (EmptyString :: bsegs) ->
  forallb plain_segment dirs = true ->
  leaf = EmptyString \/ plain_segment leaf = true ->
  plain_query query = true ->
  plain_fragment fragment = true ->
  Str.lstrip (Str.is_char "/") path
  = Str.join "/" (dirs ++ [leaf]) +:+ optional "?" query +:+ optional "#" fragment ->
  starts_clean (Str.lstrip (Str.is_char "/") path) = true ->
  has_scheme (Str.lstrip (Str.is_char "/") path) = false ->
  joined_at_seam base_url path.
Proof.
  intros Hin Hne Hnet Hb Hbase Hd Hl Hq Hf Hpath Hclean Hns.
  unfold joined_at_seam, build_url.
  pose proof (lstrip_head (Str.is_char "/") path) as Hhead.
  assert (Hslash : Str.startswith "/" (Str.lstrip (Str.is_char "/") path) = false).
  { destruct (Str.lstrip (Str.is_char "/") path) as [ | c rest]; [reflexivity | ].
    unfold Str.is_char in Hhead. cbn [Str.startswith]. rewrite Hhead. reflexivity. }
  rewrite Hbase.
  rewrite <- (append_assoc (Str.join "/" (dirs ++ [leaf]))) in Hpath.
  rewrite Hpath in Hclean, Hns, Hslash |- *.
  rewrite !append_assoc.
  rewrite <- (append_assoc (Str.join "/" (dirs ++ [leaf]))).
  apply (urljoin_plain scheme netloc bsegs dirs leaf query fragment
           Hin Hne Hnet Hb Hd Hl Hq Hf Hclean Hns Hslash).
Qed.

(** The search of a player on the base URL of the client, written with
    a trailing slash. *)
Lemma build_url_joins_plain_witness :
  build_url (H := sample_library)
    "https://www.bungie.net/Platform/" "/Destiny2/SearchDestinyPlayer/-1/Name#1234"
  = Return "https://www.bungie.net/Platform/Destiny2/SearchDestinyPlayer/-1/Name#1234".
Proof.
  apply (build_url_joins_plain (H := sample_library)
           "https://www.bungie.net/Platform/"
           "/Destiny2/SearchDestinyPlayer/-1/Name#1234"
           "https" "www.bungie.net" ["Platform"]
           ["Destiny2"; "SearchDestinyPlayer"; "-1"] "Name" "" "1234").
  - simpl. tauto.
  - discriminate.
  - reflexivity.
  - reflexivity.
  - reflexivity.
  - reflexivity.
  - right. reflexivity.
  - reflexivity.
  - reflexivity.
  - reflexivity.
  - reflexivity.
  - reflexivity.
Defined.


(** * Further properties of the code *)

(** ** [build_url]: slashes at the seam *)

Lemma rstrip_append_stripped (p : ascii -> bool) (c : ascii) (s : string) :
  p c = true ->
  Str.rstrip p (s +:+ String c EmptyString) = Str.rstrip p s.
Proof.
  intros Hc. induction s as [ | x s IH].
  - rewrite append_nil_l. simpl. rewrite Hc. reflexivity.
  - rewrite append_cons. simpl. rewrite IH. reflexivity.
Qed.

Lemma lstrip_all_stripped (p : ascii -> bool) (s : string) :
  Str.all p s = true -> Str.lstrip p s = EmptyString.
Proof.
  induction s as [ | x s IH]; simpl; [reflexivity | ].
  rewrite andb_true_iff. intros [-> Hs]. exact (IH Hs).
Qed.

Lemma nonempty_append_char (a b : string) (c : ascii) :
  Str.nonempty (a +:+ String c b) = true.
Proof. destruct a; reflexivity. Qed.

(** X1. A trailing slash more on the base, or a leading slash more on
    the path, changes nothing of what [build_url] returns or raises; and
    a path that is empty or made of slashes only gives the base with
    exactly one trailing slash.  This holds for every base and path. *)
Theorem build_url_slash_insensitive `{Library} (base_url path : string) :
  build_url (base_url +:+ "/") path = build_url base_url path
  /\ build_url base_url ("/" +:+ path) = build_url base_url path
  /\ (Str.all (Str.is_char "/") path = true ->
      build_url base_url path
      = Return (Str.rstrip (Str.is_char "/") base_url +:+ "/")).
Proof.
  split; [ | split].
  - unfold build_url.
    rewrite (rstrip_append_stripped (Str.is_char "/") "/" base_url eq_refl).
    reflexivity.
  - reflexivity.
  - intros Hall. unfold build_url, urllib.urljoin.
    rewrite (lstrip_all_stripped _ _ Hall), nonempty_append_char.
    reflexivity.
Qed.

(** Bases and paths that differ in slashes only, and a path of slashes. *)
Lemma build_url_slash_insensitive_witness :
  build_url (H := sample_library) "https://www.bungie.net/Platform" "///"
  = Return "https://www.bungie.net/Platform/".
Proof.
  apply (proj2 (proj2 (build_url_slash_insensitive (H := sample_library)
                         "https://www.bungie.net/Platform" "///"))).
  reflexivity.
Defined.

(** ** The request builders stay on the host of the client *)

Section Host.
Context `{Library}.

(** A URL in which [urlsplit] finds neither scheme nor network location
    parses without error; its scheme is the default and its network
    location is empty. *)
Lemma urlparse_relative (url scheme : string) :
  has_scheme (cleaned url) = false ->
  Str.startswith "//" (cleaned url) = false ->
  exists u,
    urllib.urlparse url scheme = Return u
    /\ urllib.scheme u
       = Str.remove urllib._UNSAFE_URL_BYTES_TO_REMOVE
           (Str.rstrip urllib._WHATWG_C0_CONTROL_OR_SPACE
              (Str.lstrip urllib._WHATWG_C0_CONTROL_OR_SPACE scheme))
    /\ urllib.netloc u = EmptyString.
Proof.
  unfold cleaned. intros Hns Hss.
  unfold urllib.urlparse, urllib.urlsplit. cbv zeta.
  rewrite (scheme_test_fails _ _ _ Hns), Hss.
  cbn [Str.contains andb orb negb].
  destruct (Str.partition "#" _) as [[u1 f] | ];
    destruct (Str.partition "?" _) as [[u2 q] | ];
    change (urllib._checknetloc EmptyString) with true;
    cbn [bind_result urllib.s_path urllib.s_scheme urllib.s_netloc
         urllib.s_query urllib.s_fragment];
    destruct (_ && _); try destruct (urllib._splitparams _);
    eexists; repeat split.
Qed.

Lemma startswith_append_l (pre a b : string) :
  Str.startswith pre a = true -> Str.startswith pre (a +:+ b) = true.
Proof.
  revert a. induction pre as [ | c pre IH]; intros a; [reflexivity | ].
  destruct a as [ | x a]; [discriminate | ].
  rewrite append_cons. cbn [Str.startswith].
  rewrite !andb_true_iff. intros [Hc Ha]. split; [exact Hc | exact (IH a Ha)].
Qed.

(** What [urlunparse] makes of the scheme and network location of the
    client with a path that is not empty: a URL on the host. *)
Lemma unparse_on_host (p params query fragment : string) :
  Str.nonempty p = true ->
  Str.startswith "https://www.bungie.net/"
    (urllib.urlunparse
       {| urllib.scheme := "https"; urllib.netloc := "www.bungie.net";
          urllib.path := p; urllib.params := params;
          urllib.query := query; urllib.fragment := fragment |})
  = true.
Proof.
  intros Hp.
  unfold urllib.urlunparse, urllib.urlunsplit.
  cbn [urllib.scheme urllib.netloc urllib.path urllib.params urllib.query
       urllib.fragment urllib.s_scheme urllib.s_netloc urllib.s_path
       urllib.s_query urllib.s_fragment Str.nonempty orb].
  set (url := if Str.nonempty params then p +:+ ";" +:+ params else p).
  assert (Hurl : exists c rest, url = String c rest).
  { subst url. destruct p as [ | c p]; [discriminate | ].
    destruct (Str.nonempty params); eexists _, _; reflexivity. }
  destruct Hurl as (c & rest & ->). cbn [Str.nonempty andb].
  assert (Hhead : Str.startswith "https://www.bungie.net/"
                    ("https" +:+ ":" +:+ "//" +:+ "www.bungie.net"
                     +:+ (if negb (Str.startswith "/" (String c rest))
                          then "/" +:+ String c rest else String c rest))
                  = true).
  { cbn [Str.startswith]. rewrite andb_true_r.
    destruct (Ascii.eqb_spec "/" c) as [<- | Hc]; reflexivity. }
  destruct (Str.nonempty query), (Str.nonempty fragment).
  - apply startswith_append_l, startswith_append_l, Hhead.
  - apply startswith_append_l, Hhead.
  - apply startswith_append_l, Hhead.
  - exact Hhead.
Qed.

Lemma bungie_base_parse :
  urllib.urlparse "https://www.bungie.net/Platform/" EmptyString
  = Return {| urllib.scheme := "https"; urllib.netloc := "www.bungie.net";
              urllib.path := "/Platform/"; urllib.params := EmptyString;
              urllib.query := EmptyString; urllib.fragment := EmptyString |}.
Proof. reflexivity. Qed.

(** Joined to the base of the client, a URL without scheme and network
    location gives a URL on the host of the client, and no error. *)
Lemma urljoin_on_host (url : string) :
  has_scheme (cleaned url) = false ->
  Str.startswith "//" (cleaned url) = false ->
  exists r,
    urllib.urljoin "https://www.bungie.net/Platform/" url = Return r
    /\ Str.startswith "https://www.bungie.net/" r = true.
Proof.
  intros Hns Hss. unfold urllib.urljoin.
  cbn [Str.nonempty negb].
  destruct (Str.nonempty url) eqn:Hu; cbn [negb].
  2:{ eexists. split; reflexivity. }
  rewrite bungie_base_parse. cbn [bind_result urllib.scheme].
  destruct (urlparse_relative url "https" Hns Hss) as (u & -> & Hs & Hn).
  destruct u as [s n p pa q f]. cbn in Hs, Hn. subst s n.
  cbn [bind_result urllib.scheme urllib.netloc urllib.path urllib.params
       urllib.query urllib.fragment Str.nonempty].
  change (String.eqb "https" "https") with true.
  change (urllib.member "https" urllib.uses_relative) with true.
  change (urllib.member "https" urllib.uses_netloc) with true.
  cbn [negb orb andb].
  destruct (negb (Str.nonempty p) && negb (Str.nonempty pa)).
  - eexists. split; [reflexivity | ]. apply unparse_on_host. reflexivity.
  - eexists. split; [reflexivity | ]. apply unparse_on_host.
    destruct (Str.nonempty (Str.join "/" _)) eqn:Hj; [exact Hj | reflexivity].
Qed.

(** The same for [build_url] on the base of the client and an endpoint
    that begins with [/Destiny2/], as those of the three builders do:
    whatever follows, the URL is built and lies on the host. *)
Lemma build_url_on_host (rest : string) :
  exists url,
    build_url bungie_base ("/Destiny2/" +:+ rest) = Return url
    /\ Str.startswith "https://www.bungie.net/" url = true.
Proof.
  unfold build_url, bungie_base.
  change (Str.rstrip (Str.is_char "/") "https://www.bungie.net/Platform" +:+ "/")
    with "https://www.bungie.net/Platform/".
  change (Str.lstrip (Str.is_char "/") ("/Destiny2/" +:+ rest))
    with ("Destiny2/" +:+ rest).
  assert (Hc : cleaned ("Destiny2/" +:+ rest)
               = "Destiny2/" +:+ Str.remove urllib._UNSAFE_URL_BYTES_TO_REMOVE rest).
  { reflexivity. }
  apply urljoin_on_host; rewrite Hc.
  - unfold has_scheme. rewrite !append_cons, append_nil_l.
    cbn [Str.partition Ascii.eqb Bool.eqb].
    destruct (Str.partition ":" _) as [[a b] | ]; [ | reflexivity].
    cbn. rewrite !andb_false_r. reflexivity.
  - reflexivity.
Qed.

End Host.

Lemma execute_on_host `{Library} `{Environment}
    (st : state) (rq : RequestSpec) (rest : string) :
  base_url (self st) = bungie_base ->
  rs_method rq = "GET" ->
  rs_data rq = None ->
  rs_endpoint rq = "/Destiny2/" +:+ rest ->
  dispatched_on_host st (snd (execute rq st)).
Proof.
  intros Hbase Hm Hd He. unfold dispatched_on_host.
  rewrite execute_trace, Hbase, He.
  destruct (build_url_on_host rest) as (url & -> & Hhost).
  exists (dispatch_clock (self st) (clock (env st))), url, (rs_params rq).
  split; [ | exact Hhost].
  unfold transport_request. rewrite Hm, Hd. reflexivity.
Qed.

(** X2. On a session whose base URL is the one [__init__] sets,
    [search_destiny_player] dispatches exactly one [GET] request whose
    URL begins with [https://www.bungie.net/], whatever the display
    name and the platform are; [get_profile] and
    [get_activity_history] do so whatever the identifiers and the other
    arguments are, when [str] writes the membership type, and when it
    does not, because the number has more digits than the limit, they
    raise its [ValueError] and leave the session and the world as they
    were.  No argument makes the URL fail to build or sends a request to
    another host. *)
Theorem builders_stay_on_host `{Library} `{Environment} (st : state) :
  base_url (self st) = bungie_base ->
  (forall display_name platform,
      dispatched_on_host st (snd (search_destiny_player display_name platform st)))
  /\ (forall membership_type destiny_membership_id components,
         match str_int membership_type with
         | Return _ =>
             dispatched_on_host st
               (snd (get_profile membership_type destiny_membership_id
                       components st))
         | Raise _ =>
             get_profile membership_type destiny_membership_id components st
             = (Raise ValueError, st)
         end)
  /\ (forall membership_type destiny_membership_id character_id mode page count,
         match str_int membership_type with
         | Return _ =>
             dispatched_on_host st
               (snd (get_activity_history membership_type destiny_membership_id
                       character_id mode page count st))
         | Raise _ =>
             get_activity_history membership_type destiny_membership_id
               character_id mode page count st
             = (Raise ValueError, st)
         end).
Proof.
  intros Hbase. split; [ | split].
  - intros display_name platform.
    refine (execute_on_host st
              {| rs_method := "GET"; rs_endpoint := _;
                 rs_params := None; rs_data := None |}
              _ Hbase eq_refl eq_refl _).
    reflexivity.
  - intros membership_type destiny_membership_id components.
    rewrite get_profile_call.
    destruct (str_int membership_type) as [text | e] eqn:Hs.
    + refine (execute_on_host st
                {| rs_method := "GET"; rs_endpoint := _;
                   rs_params := Some _; rs_data := None |}
                _ Hbase eq_refl eq_refl _).
      reflexivity.
    + rewrite (str_int_raise _ _ Hs). reflexivity.
  - intros membership_type destiny_membership_id character_id mode page count.
    rewrite get_activity_history_call.
    destruct (str_int membership_type) as [text | e] eqn:Hs.
    + refine (execute_on_host st
                {| rs_method := "GET"; rs_endpoint := _;
                   rs_params := Some _; rs_data := None |}
                _ Hbase eq_refl eq_refl _).
      reflexivity.
    + rewrite (str_int_raise _ _ Hs). reflexivity.
Qed.

(** A display name of [..] segments leaves the platform root, and stays
    on the host. *)
Lemma builders_stay_on_host_witness :
  dispatched_on_host fresh_state
    (snd (search_destiny_player (H := sample_library)
            (H0 := steady_environment (Responded response_503))
            "../../../../Other" None fresh_state)).
Proof.
  apply (proj1 (builders_stay_on_host (H := sample_library)
                  (H0 := steady_environment (Responded response_503))
                  fresh_state eq_refl)).
Defined.

Example search_destiny_player_dot_segments :
  dispatch_times
    (trace (env (snd (search_destiny_player (H := sample_library)
                        (H0 := steady_environment (Responded response_503))
                        "../../../../Other" None fresh_state)))) = [1000%Q]
  /\ build_url (H := sample_library) bungie_base
       "/Destiny2/SearchDestinyPlayer/-1/../../../../Other"
     = Return "https://www.bungie.net/Other".
Proof. split; vm_compute; reflexivity. Qed.

(** ** The URLs of the builders for plain identifiers *)

Lemma has_scheme_destiny (rest : string) :
  has_scheme ("Destiny2/" +:+ rest) = false.
Proof.
  unfold has_scheme. rewrite !append_cons, append_nil_l.
  cbn [Str.partition Ascii.eqb Bool.eqb].
  destruct (Str.partition ":" rest) as [[a b] | ]; [ | reflexivity].
  cbn. rewrite !andb_false_r. reflexivity.
Qed.

Lemma digit_plain (c : ascii) : Str.is_digit c = true -> plain_char c = true.
Proof.
  destruct c as [[] [] [] [] [] [] [] []]; vm_compute; intros; congruence.
Qed.

(** [str(n)] of an [int] is a plain segment: digits after an optional
    minus sign. *)
Lemma of_Z_plain (n : Z) : plain_segment (Str.of_Z n) = true.
Proof.
  assert (Hpos : forall p, plain_segment
                             (NilEmpty.string_of_uint (Pos.to_uint p)) = true
                           /\ NilZero.string_of_uint (Pos.to_uint p)
                              = NilEmpty.string_of_uint (Pos.to_uint p)).
  { intros p. pose proof (uint_digits (Pos.to_uint p)) as Hd.
    pose proof (DecimalPos.Unsigned.to_uint_nonnil p) as Hnil.
    destruct (Pos.to_uint p) as [ | d | d | d | d | d | d | d | d | d | d ] eqn:Hp;
      try contradiction; (split; [ | reflexivity]);
      unfold plain_segment; simpl in Hd |- *;
      rewrite (all_impl _ _ _ digit_plain Hd); reflexivity. }
  unfold Str.of_Z. destruct n as [ | p | p]; simpl.
  - reflexivity.
  - destruct (Hpos p) as [Hplain ->]. exact Hplain.
  - destruct (Hpos p) as [Hplain ->].
    unfold plain_segment in *. rewrite !andb_true_iff in Hplain.
    destruct Hplain as [[[_ Hall] _] _].
    cbn [Str.nonempty Str.all andb]. rewrite Hall.
    destruct (NilEmpty.string_of_uint (Pos.to_uint p)); reflexivity.
Qed.

(** The endpoints of the builders on the base of the client: after
    [/Destiny2/], plain segments, a leaf that may be empty and a
    fragment.  [build_url] appends them to the base as they are. *)
Lemma build_url_destiny `{Library} (dirs : list string) (leaf fragment : string) :
  forallb plain_segment dirs = true ->
  leaf = EmptyString \/ plain_segment leaf = true ->
  plain_fragment fragment = true ->
  build_url bungie_base
    ("/Destiny2/" +:+ Str.join "/" (dirs ++ [leaf]) +:+ optional "#" fragment)
  = Return ("https://www.bungie.net/Platform/Destiny2/"
            +:+ Str.join "/" (dirs ++ [leaf]) +:+ optional "#" fragment).
Proof.
  intros Hd Hl Hf.
  assert (Hne : (dirs ++ [leaf])%list <> []) by (destruct dirs; discriminate).
  pose proof (urljoin_plain "https" "www.bungie.net" ["Platform"]
                ("Destiny2" :: dirs) leaf EmptyString fragment) as Hj.
  cbv zeta in Hj.
  change (("Destiny2" :: dirs) ++ [leaf])%list
    with ("Destiny2" :: (dirs ++ [leaf]))%list in Hj.
  rewrite (join_cons "/" "Destiny2" _ Hne) in Hj.
  change (optional "?" EmptyString) with EmptyString in Hj.
  rewrite append_nil_r in Hj.
  unfold build_url, bungie_base.
  change (Str.rstrip (Str.is_char "/") "https://www.bungie.net/Platform" +:+ "/")
    with "https://www.bungie.net/Platform/".
  change (Str.lstrip (Str.is_char "/")
            ("/Destiny2/" +:+ Str.join "/" (dirs ++ [leaf]) +:+ optional "#" fragment))
    with ("Destiny2/" +:+ Str.join "/" (dirs ++ [leaf]) +:+ optional "#" fragment).
  rewrite !append_assoc in Hj.
  apply Hj; clear Hj.
  - simpl. tauto.
  - discriminate.
  - reflexivity.
  - reflexivity.
  - simpl. exact Hd.
  - exact Hl.
  - reflexivity.
  - exact Hf.
  - reflexivity.
  - apply has_scheme_destiny.
  - reflexivity.
Qed.

Lemma execute_dispatched `{Library} `{Environment}
    (st : state) (rq : RequestSpec) (url : string) :
  build_url (base_url (self st)) (rs_endpoint rq) = Return url ->
  dispatched st (snd (execute rq st)) (transport_request rq url).
Proof.
  intros Hurl. unfold dispatched. rewrite execute_trace, Hurl. reflexivity.
Qed.

(** Whatever the platform, the membership type of the search is one of
    six. *)
Lemma search_membership_type `{Library} `{Environment} (platform : option string) :
  exists membership_type,
    In membership_type membership_types
    /\ forall display_name,
         search_destiny_player display_name platform
         = _make_request "GET" (search_endpoint membership_type display_name)
             None None.
Proof.
  unfold search_destiny_player, search_endpoint, membership_types.
  destruct platform as [p | ]; [ | exists "-1"; split; [left | ]; reflexivity].
  destruct (Str.nonempty p); [ | exists "-1"; split; [left | ]; reflexivity].
  destruct (platform_map !! Str.lower p) as [t | ] eqn:Ht;
    [ | exists "-1"; split; [left | ]; reflexivity].
  exists t. split; [ | reflexivity].
  unfold platform_map in Ht.
  repeat (apply lookup_insert_Some in Ht as [[_ <-] | [_ Ht]];
          [simpl; tauto | ]).
  apply lookup_singleton_Some in Ht as [_ <-]. simpl. tauto.
Qed.

Lemma membership_type_plain (t : string) :
  In t membership_types -> plain_segment t = true.
Proof.
  simpl. intros Hin.
  repeat (destruct Hin as [<- | Hin]; [reflexivity | ]).
  destruct Hin.
Qed.

(** X3. On a session with the base URL of [__init__], the search of a
    Bungie name [name#code], whose [name] is a plain segment and whose
    [code] is not empty, dispatches one [GET] request without
    parameters and body to
    [https://www.bungie.net/Platform/Destiny2/SearchDestinyPlayer/t/name#code],
    where the membership type [t] is one of -1, 1, 2, 3, 5 and 6. *)
Theorem search_destiny_player_url `{Library} `{Environment}
    (st : state) (name code : string) (platform : option string) :
  base_url (self st) = bungie_base ->
  plain_segment name = true ->
  Str.nonempty code = true ->
  plain_fragment code = true ->
  exists membership_type,
    In membership_type membership_types
    /\ dispatched st
         (snd (search_destiny_player (name +:+ "#" +:+ code) platform st))
         {| httpx.method := "GET";
            httpx.url := "https://www.bungie.net/Platform/Destiny2/SearchDestinyPlayer/"
                         +:+ membership_type +:+ "/" +:+ name +:+ "#" +:+ code;
            httpx.params := None;
            httpx.json_data := None |}.
Proof.
  intros Hbase Hname Hcode Hfrag.
  destruct (search_membership_type platform) as (t & Hin & Hcall).
  exists t. split; [exact Hin | ]. rewrite Hcall.
  pose proof (build_url_destiny ["SearchDestinyPlayer"; t] name code) as Hurl.
  unfold optional in Hurl. rewrite Hcode in Hurl.
  cbn [app Str.join] in Hurl.
  rewrite !append_assoc in Hurl.
  apply (execute_dispatched st
           {| rs_method := "GET"; rs_endpoint := search_endpoint t (name +:+ "#" +:+ code);
              rs_params := None; rs_data := None |}).
  cbn [rs_endpoint]. rewrite Hbase. unfold search_endpoint.
  rewrite ?append_assoc. apply Hurl.
  - simpl. rewrite (membership_type_plain t Hin). reflexivity.
  - right. exact Hname.
  - exact Hfrag.
Qed.

Lemma search_destiny_player_url_witness :
  exists membership_type,
    In membership_type membership_types
    /\ dispatched (H := steady_environment (Responded response_503)) fresh_state
         (snd (search_destiny_player (H := sample_library)
                 (H0 := steady_environment (Responded response_503))
                 ("Name" +:+ "#" +:+ "1234") (Some "PSN") fresh_state))
         {| httpx.method := "GET";
            httpx.url := "https://www.bungie.net/Platform/Destiny2/SearchDestinyPlayer/"
                         +:+ membership_type +:+ "/" +:+ "Name" +:+ "#" +:+ "1234";
            httpx.params := None;
            httpx.json_data := None |}.
Proof.
  apply (search_destiny_player_url (H := sample_library)
           (H0 := steady_environment (Responded response_503))
           fresh_state "Name" "1234" (Some "PSN"));
    reflexivity.
Defined.

(** X4. On a session with the base URL of [__init__], [get_profile]
    with a membership identifier that is a plain segment and a
    membership type that [str] writes as [text] dispatches one [GET]
    request without body to
    [https://www.bungie.net/Platform/Destiny2/text/Profile/{id}/],
    trailing slash included.  Its only parameter is [components], and
    splitting its value at the commas gives the list of components back
    when the list is not empty and no component holds a comma.  For a
    membership type of more digits than the limit of [str], the call
    raises [ValueError] and nothing else happens. *)
Theorem get_profile_request `{Library} `{Environment}
    (st : state) (membership_type : Z) (destiny_membership_id : string)
    (components : list string) :
  base_url (self st) = bungie_base ->
  plain_segment destiny_membership_id = true ->
  match str_int membership_type with
  | Return text =>
      exists joined,
        dispatched st
          (snd (get_profile membership_type destiny_membership_id components st))
          {| httpx.method := "GET";
             httpx.url := "https://www.bungie.net/Platform/Destiny2/"
                          +:+ text +:+ "/Profile/"
                          +:+ destiny_membership_id +:+ "/";
             httpx.params := Some {["components" := VStr joined]};
             httpx.json_data := None |}
        /\ (components <> [] ->
            forallb (fun c => negb (Str.contains "," c)) components = true ->
            Str.split "," joined = components)
  | Raise _ =>
      get_profile membership_type destiny_membership_id components st
      = (Raise ValueError, st)
  end.
Proof.
  intros Hbase Hid. rewrite get_profile_call.
  destruct (str_int membership_type) as [text | e] eqn:Hs.
  2:{ rewrite (str_int_raise _ _ Hs). reflexivity. }
  apply str_int_return in Hs.
  exists (Str.join "," components). split; [ | apply split_join].
  pose proof (build_url_destiny [text; "Profile"; destiny_membership_id]
                EmptyString EmptyString) as Hurl.
  change (optional "#" EmptyString) with EmptyString in Hurl.
  cbn [app Str.join] in Hurl.
  rewrite ?append_nil_r, ?append_assoc in Hurl.
  apply (execute_dispatched st
           {| rs_method := "GET";
              rs_endpoint := "/Destiny2/" +:+ text +:+ "/Profile/"
                             +:+ destiny_membership_id +:+ "/";
              rs_params := Some {["components" := VStr (Str.join "," components)]};
              rs_data := None |}).
  cbn [rs_endpoint]. rewrite Hbase.
  apply Hurl.
  - simpl. rewrite Hs, (of_Z_plain membership_type), Hid. reflexivity.
  - left. reflexivity.
  - reflexivity.
Qed.

(** The profile of a player on Steam, components 100 and 200. *)
Lemma get_profile_request_witness :
  exists joined,
    dispatched (H := steady_environment (Responded response_503)) fresh_state
      (snd (get_profile (H := sample_library)
              (H0 := steady_environment (Responded response_503))
              3 "4611686018467284386" ["100"; "200"] fresh_state))
      {| httpx.method := "GET";
         httpx.url := "https://www.bungie.net/Platform/Destiny2/3/Profile/4611686018467284386/";
         httpx.params := Some {["components" := VStr joined]};
         httpx.json_data := None |}
    /\ (["100"; "200"] <> [] ->
        forallb (fun c => negb (Str.contains "," c)) ["100"; "200"] = true ->
        Str.split "," joined = ["100"; "200"]).
Proof.
  exact (get_profile_request (H := sample_library)
           (H0 := steady_environment (Responded response_503))
           fresh_state 3 "4611686018467284386" ["100"; "200"]
           eq_refl eq_refl).
Defined.

(** X5. On a session with the base URL of [__init__],
    [get_activity_history] with a membership identifier and a character
    identifier that are plain segments and a membership type that [str]
    writes as [text] dispatches one [GET] request without body to
    [https://www.bungie.net/Platform/Destiny2/text/Account/{id}/Character/{character}/Stats/Activities/].
    Its parameters are [page] and [count], always, and [mode] exactly
    when a mode is given; there is no other parameter.  For a
    membership type of more digits than the limit of [str], the call
    raises [ValueError] and nothing else happens. *)
Theorem get_activity_history_request `{Library} `{Environment}
    (st : state) (membership_type : Z)
    (destiny_membership_id character_id : string)
    (mode : option Z) (page count : Z) :
  base_url (self st) = bungie_base ->
  plain_segment destiny_membership_id = true ->
  plain_segment character_id = true ->
  match str_int membership_type with
  | Return text =>
      exists params,
        dispatched st
          (snd (get_activity_history membership_type destiny_membership_id
                  character_id mode page count st))
          {| httpx.method := "GET";
             httpx.url := "https://www.bungie.net/Platform/Destiny2/"
                          +:+ text +:+ "/Account/"
                          +:+ destiny_membership_id +:+ "/Character/"
                          +:+ character_id +:+ "/Stats/Activities/";
             httpx.params := Some params;
             httpx.json_data := None |}
        /\ params !! "page" = Some (VInt page)
        /\ params !! "count" = Some (VInt count)
        /\ params !! "mode" = option_map VInt mode
        /\ (forall key, key <> "page" -> key <> "count" -> key <> "mode" ->
            params !! key = None)
  | Raise _ =>
      get_activity_history membership_type destiny_membership_id character_id
        mode page count st
      = (Raise ValueError, st)
  end.
Proof.
  intros Hbase Hid Hchar. rewrite get_activity_history_call.
  destruct (str_int membership_type) as [text | e] eqn:Hs.
  2:{ rewrite (str_int_raise _ _ Hs). reflexivity. }
  apply str_int_return in Hs.
  set (params := match mode with
                 | Some m => <["mode" := VInt m]>
                               (<["page" := VInt page]> {["count" := VInt count]})
                 | None => <["page" := VInt page]> {["count" := VInt count]}
                 end : gmap string value).
  exists params. split; [ | repeat split].
  - pose proof (build_url_destiny
                  [text; "Account"; destiny_membership_id;
                   "Character"; character_id; "Stats"; "Activities"]
                  EmptyString EmptyString) as Hurl.
    change (optional "#" EmptyString) with EmptyString in Hurl.
    cbn [app Str.join] in Hurl.
    rewrite ?append_nil_r, ?append_assoc in Hurl.
    apply (execute_dispatched st
             {| rs_method := "GET";
                rs_endpoint := "/Destiny2/" +:+ text +:+ "/Account/"
                               +:+ destiny_membership_id +:+ "/Character/"
                               +:+ character_id +:+ "/Stats/Activities/";
                rs_params := Some params;
                rs_data := None |}).
    cbn [rs_endpoint]. rewrite Hbase.
    apply Hurl.
    + simpl. rewrite Hs, (of_Z_plain membership_type), Hid, Hchar. reflexivity.
    + left. reflexivity.
    + reflexivity.
  - subst params. destruct mode; reflexivity.
  - subst params. destruct mode; reflexivity.
  - subst params. destruct mode as [m | ]; [apply lookup_insert_eq | reflexivity].
  - intros key Hp Hc Hm. subst params.
    destruct mode as [m | ];
      rewrite ?lookup_insert_ne, lookup_singleton_ne by congruence; reflexivity.
Qed.

(** The first page of the history of a character, all modes. *)
Lemma get_activity_history_request_witness :
  exists params,
    dispatched (H := steady_environment (Responded response_503)) fresh_state
      (snd (get_activity_history (H := sample_library)
              (H0 := steady_environment (Responded response_503))
              3 "4611686018467284386" "2305843009300000000" None 0 25
              fresh_state))
      {| httpx.method := "GET";
         httpx.url := "https://www.bungie.net/Platform/Destiny2/3/Account/4611686018467284386/Character/2305843009300000000/Stats/Activities/";
         httpx.params := Some params;
         httpx.json_data := None |}
    /\ params !! "page" = Some (VInt 0)
    /\ params !! "count" = Some (VInt 25)
    /\ params !! "mode" = option_map VInt None
    /\ (forall key, key <> "page" -> key <> "count" -> key <> "mode" ->
        params !! key = None).
Proof.
  exact (get_activity_history_request (H := sample_library)
           (H0 := steady_environment (Responded response_503))
           fresh_state 3 "4611686018467284386" "2305843009300000000" None 0 25
           eq_refl eq_refl eq_refl).
Defined.

(** A membership type of 4301 digits, under the limit of 4300 digits:
    both builders raise before anything else is done. *)
Example membership_type_too_long :
  get_profile (H := sample_library)
    (H0 := steady_environment (Responded response_503))
    (10 ^ 4300) "4611686018467284386" ["100"] fresh_state
  = (Raise ValueError, fresh_state)
  /\ get_activity_history (H := sample_library)
       (H0 := steady_environment (Responded response_503))
       (10 ^ 4300) "4611686018467284386" "2305843009300000000" None 0 25
       fresh_state
     = (Raise ValueError, fresh_state).
Proof.
  assert (Hout : str_int (H := sample_library) (10 ^ 4300) = Raise ValueError)
    by exact (proj1 (proj2 (proj2 int_and_str_at_the_limit))).
  split.
  - rewrite get_profile_call, Hout. reflexivity.
  - rewrite get_activity_history_call, Hout. reflexivity.
Qed.

(** ** What [_make_request] returns and raises *)

Section Outcome.
Context `{Library} `{Environment}.

Variable st : state.
Variable method : string.
Variable endpoint : string.
Variable params : option (gmap string value).
Variable data : option (gmap string value).

(** X6. A response with a status from 200 to 299 is handed to
    [handle_bungie_response]: [_make_request] returns or raises what the
    interpreter does on the decoded body.  A decoded body that is not an
    object raises [AttributeError].  A body that [response.json()]
    cannot decode raises what [response.json()] raises:
    [JSONDecodeError] on text that is not JSON, [UnicodeDecodeError] on
    bytes that are not text, [ValueError] on an integer of too many
    digits, [RecursionError] on too deep a nesting.  None of these is
    turned into a [BungieAPIException]. *)
Theorem success_response_interpreted (url : string) (r : httpx.Response) (t : Q) :
  build_url (base_url (self st)) endpoint = Return url ->
  transport (dispatch_clock (self st) (clock (env st)))
    {| httpx.method := method; httpx.url := url;
       httpx.params := params; httpx.json_data := data |}
  = (Responded r, t) ->
  200 <= httpx.status_code r <= 299 ->
  fst (_make_request method endpoint params data st)
  = match httpx.json r with
    | httpx.Decoded (VDict d) => handle_bungie_response (VDict d)
    | httpx.Decoded _ => Raise AttributeError
    | httpx.Undecodable httpx.NotJSON => Raise JSONDecodeError
    | httpx.Undecodable httpx.NotUnicode => Raise UnicodeDecodeError
    | httpx.Undecodable httpx.IntegerTooLong => Raise ValueError
    | httpx.Undecodable httpx.NestedTooDeep => Raise RecursionError
    end.
Proof.
  intros Hurl Ht [Hlo Hhi].
  set (rq := {| rs_method := method; rs_endpoint := endpoint;
                rs_params := params; rs_data := data |}).
  change (_make_request method endpoint params data st) with (execute rq st).
  rewrite (execute_responded st rq url r t Hurl Ht). cbn [fst].
  unfold response_outcome, httpx.is_success.
  replace (httpx.status_code r =? 429) with false
    by (symmetry; apply Z.eqb_neq; lia).
  replace (200 <=? httpx.status_code r) with true
    by (symmetry; apply Z.leb_le; lia).
  replace (httpx.status_code r <=? 299) with true
    by (symmetry; apply Z.leb_le; lia).
  cbn [andb].
  destruct (httpx.json r) as [[ | b | n | f | s | l | d] | [ | | | ]];
    reflexivity.
Qed.

(** X7. [_make_request] returns a value only if the URL was built, the
    transport gave a response with a status from 200 to 299 whose body
    is a JSON object that satisfies the success condition; and the value
    is then the [Response] field of the object, or the object when it
    has no such field. *)
Theorem make_request_returns_only_success (v : value) :
  fst (_make_request method endpoint params data st) = Return v ->
  exists url r t d,
    build_url (base_url (self st)) endpoint = Return url
    /\ transport (dispatch_clock (self st) (clock (env st)))
         {| httpx.method := method; httpx.url := url;
            httpx.params := params; httpx.json_data := data |}
       = (Responded r, t)
    /\ 200 <= httpx.status_code r <= 299
    /\ httpx.json r = httpx.Decoded (VDict d)
    /\ success_condition d
    /\ v = match d !! "Response" with
           | Some x => x
           | None => VDict d
           end.
Proof.
  set (rq := {| rs_method := method; rs_endpoint := endpoint;
                rs_params := params; rs_data := data |}).
  change (_make_request method endpoint params data st) with (execute rq st).
  destruct (build_url (base_url (self st)) endpoint) as [url | e] eqn:Hurl.
  2:{ rewrite (execute_bad_url st rq e Hurl). discriminate. }
  destruct (transport (dispatch_clock (self st) (clock (env st)))
              (transport_request rq url)) as [[r | msg | name] t] eqn:Ht.
  2:{ rewrite (execute_request_error st rq url msg t Hurl Ht). discriminate. }
  2:{ rewrite (execute_other_error st rq url name t Hurl Ht). discriminate. }
  rewrite (execute_responded st rq url r t Hurl Ht). cbn [fst].
  unfold response_outcome, httpx.is_success.
  destruct (httpx.status_code r =? 429).
  { destruct (httpx.Headers_get _ _) as [h | ];
      [destruct (int h) as [n | ]; [destruct (str_int n) | ] | ];
      discriminate. }
  destruct (200 <=? httpx.status_code r) eqn:Hlo; [ | discriminate].
  destruct (httpx.status_code r <=? 299) eqn:Hhi; [ | discriminate].
  cbn [andb].
  destruct (httpx.json r) as [[ | b | n | f | s | l | d] | [ | | | ]] eqn:Hj;
    try discriminate.
  unfold handle_bungie_response.
  destruct (negb (truthy (dict_get d "Response" VNone))
            && negb (eq_1 (dict_get d "ErrorCode" VNone))) eqn:Hif;
    [discriminate | ].
  intros [= <-].
  exists url, r, t, d.
  split; [reflexivity | ]. split; [exact Ht | ].
  split; [apply Z.leb_le in Hlo; apply Z.leb_le in Hhi; lia | ].
  split; [exact Hj | ].
  split; [ | unfold dict_get; destruct (d !! "Response"); reflexivity].
  apply andb_false_iff in Hif. rewrite !negb_false_iff in Hif.
  unfold dict_get in Hif.
  destruct Hif as [Hr | Hc].
  - left. destruct (d !! "Response") as [x | ] eqn:Hx; [ | discriminate].
    exists x. split; [exact Hx | apply truthy_not_empty, Hr].
  - right. destruct (d !! "ErrorCode") as [x | ] eqn:Hx; [ | discriminate].
    exists x. split; [exact Hx | apply eq_1_is_one, Hc].
Qed.

(** X8. Informational and redirect statuses are errors as well: a
    response with a status below 200, or from 300 to 399, makes
    [_make_request] raise a [BungieAPIException] that carries the status
    code and the response. *)
Theorem other_status_raises (url : string) (r : httpx.Response) (t : Q) :
  build_url (base_url (self st)) endpoint = Return url ->
  transport (dispatch_clock (self st) (clock (env st)))
    {| httpx.method := method; httpx.url := url;
       httpx.params := params; httpx.json_data := data |}
  = (Responded r, t) ->
  httpx.status_code r < 200 \/ 300 <= httpx.status_code r < 400 ->
  fst (_make_request method endpoint params data st)
  = Raise (Bungie {| cls := BungieAPIException;
                     message := "HTTP error occurred: " +:+ status_error_text r;
                     error_code := VInt (httpx.status_code r);
                     response := HttpResponse r |}).
Proof.
  intros Hurl Ht Hstatus.
  set (rq := {| rs_method := method; rs_endpoint := endpoint;
                rs_params := params; rs_data := data |}).
  change (_make_request method endpoint params data st) with (execute rq st).
  rewrite (execute_responded st rq url r t Hurl Ht). cbn [fst].
  unfold response_outcome, httpx.is_success.
  replace (httpx.status_code r =? 429) with false
    by (symmetry; apply Z.eqb_neq; lia).
  replace ((200 <=? httpx.status_code r) && (httpx.status_code r <=? 299))
    with false; [reflexivity | ].
  symmetry. apply andb_false_iff.
  destruct Hstatus as [Hlow | Hred];
    [left; apply Z.leb_gt; lia | right; apply Z.leb_gt; lia].
Qed.

Lemma response_outcome_not_httpx (r : httpx.Response) (e : exn) :
  response_outcome r = Raise e -> ~ httpx_error e.
Proof.
  unfold response_outcome.
  destruct (httpx.status_code r =? 429).
  - destruct (httpx.Headers_get _ _) as [h | ].
    + destruct (int h) as [n | ]; [ | intros [= <-]; exact id].
      destruct (str_int n) as [text | e'] eqn:Hs; [intros [= <-]; exact id | ].
      rewrite (str_int_raise _ _ Hs). intros [= <-]. exact id.
    + intros [= <-]. exact id.
  - destruct (httpx.is_success r).
    + destruct (httpx.json r) as [body | [ | | | ]];
        [ | intros [= <-]; exact id ..].
      intros Hh. apply handle_bungie_response_raise in Hh.
      destruct Hh as [(b & -> & _) | ->]; exact id.
    + intros [= <-]. exact id.
Qed.

Lemma execute_not_httpx (rq : RequestSpec) (e : exn) :
  fst (execute rq st) = Raise e -> ~ httpx_error e.
Proof.
  destruct (build_url (base_url (self st)) (rs_endpoint rq)) as [url | e'] eqn:Hurl.
  - destruct (transport (dispatch_clock (self st) (clock (env st)))
                (transport_request rq url)) as [[r | msg | name] t] eqn:Ht.
    + rewrite (execute_responded st rq url r t Hurl Ht).
      apply response_outcome_not_httpx.
    + rewrite (execute_request_error st rq url msg t Hurl Ht).
      intros [= <-]. exact id.
    + rewrite (execute_other_error st rq url name t Hurl Ht).
      intros [= <-]. exact id.
  - rewrite (execute_bad_url st rq e' Hurl). cbn [fst].
    rewrite (build_url_raise _ _ _ Hurl). intros [= <-]. exact id.
Qed.

End Outcome.

(** A 200 response whose body is not text: [response.json()] raises
    [UnicodeDecodeError], and so does the call. *)
Example success_response_not_text :
  fst (_make_request (H := sample_library)
         (H0 := steady_environment
                  (Responded {| httpx.status_code := 200; httpx.headers := [];
                                httpx.json := httpx.Undecodable httpx.NotUnicode |}))
         "GET" (rs_endpoint search_request) None None fresh_state)
  = Raise UnicodeDecodeError.
Proof. vm_compute. reflexivity. Qed.

(** A 200 response whose body is a JSON array. *)
Lemma success_response_interpreted_witness :
  fst (_make_request (H := sample_library)
         (H0 := steady_environment (Responded (response_200 (VList []))))
         "GET" (rs_endpoint search_request) None None fresh_state)
  = Raise AttributeError.
Proof.
  apply (success_response_interpreted (H := sample_library)
           (H0 := steady_environment (Responded (response_200 (VList []))))
           fresh_state "GET" (rs_endpoint search_request) None None
           search_url (response_200 (VList [])) (1000 + (1 # 1000))%Q
           search_url_built eq_refl).
  simpl. lia.
Defined.

Lemma make_request_returns_only_success_witness :
  exists url r t d,
    build_url (H := sample_library) (base_url (self fresh_state))
      (rs_endpoint search_request) = Return url
    /\ transport (Environment :=
                    steady_environment
                      (Responded (response_200 (VDict envelope_with_payload))))
         (dispatch_clock
            (H := steady_environment
                    (Responded (response_200 (VDict envelope_with_payload))))
            (self fresh_state) (clock (env fresh_state)))
         {| httpx.method := "GET"; httpx.url := url;
            httpx.params := None; httpx.json_data := None |}
       = (Responded r, t)
    /\ 200 <= httpx.status_code r <= 299
    /\ httpx.json r = httpx.Decoded (VDict d)
    /\ success_condition d
    /\ VDict {["x" := VInt 1]}
       = match d !! "Response" with
         | Some x => x
         | None => VDict d
         end.
Proof.
  apply (make_request_returns_only_success (H := sample_library)
           (H0 := steady_environment
                    (Responded (response_200 (VDict envelope_with_payload))))
           fresh_state "GET" (rs_endpoint search_request) None None
           (VDict {["x" := VInt 1]})).
  vm_compute. reflexivity.
Defined.

(** A 304 response. *)
Lemma other_status_raises_witness :
  fst (_make_request (H := sample_library)
         (H0 := steady_environment (Responded response_not_modified))
         "GET" (rs_endpoint search_request) None None fresh_state)
  = Raise (Bungie (new_error BungieAPIException
                     "HTTP error occurred: status 304"
                     (VInt 304) (HttpResponse response_not_modified))).
Proof.
  apply (other_status_raises (H := sample_library)
           (H0 := steady_environment (Responded response_not_modified))
           fresh_state "GET" (rs_endpoint search_request) None None
           search_url response_not_modified (1000 + (1 # 1000))%Q
           search_url_built eq_refl).
  right. simpl. lia.
Defined.

(** X9. No exception of the two [httpx] classes leaves [_make_request]
    or a builder: every [HTTPStatusError] and every [RequestError] is
    replaced by a [BungieAPIException]. *)
Theorem httpx_errors_never_escape `{Library} `{Environment} (st : state) (e : exn) :
  httpx_error e ->
  (forall method endpoint params data,
      fst (_make_request method endpoint params data st) <> Raise e)
  /\ (forall display_name platform,
         fst (search_destiny_player display_name platform st) <> Raise e)
  /\ (forall membership_type destiny_membership_id components,
         fst (get_profile membership_type destiny_membership_id components st)
         <> Raise e)
  /\ (forall membership_type destiny_membership_id character_id mode page count,
         fst (get_activity_history membership_type destiny_membership_id
                character_id mode page count st)
         <> Raise e).
Proof.
  intros He.
  assert (Hmr : forall method endpoint params data,
             fst (_make_request method endpoint params data st) <> Raise e).
  { intros method endpoint params data Hr.
    exact (execute_not_httpx st
             {| rs_method := method; rs_endpoint := endpoint;
                rs_params := params; rs_data := data |} e Hr He). }
  repeat split.
  - exact Hmr.
  - intros display_name platform. apply Hmr.
  - intros membership_type destiny_membership_id components.
    rewrite get_profile_call.
    destruct (str_int membership_type) as [text | e'] eqn:Hs; [apply Hmr | ].
    rewrite (str_int_raise _ _ Hs). intros [= <-]. exact He.
  - intros membership_type destiny_membership_id character_id mode page count.
    rewrite get_activity_history_call.
    destruct (str_int membership_type) as [text | e'] eqn:Hs; [apply Hmr | ].
    rewrite (str_int_raise _ _ Hs). intros [= <-]. exact He.
Qed.

(** A timeout of the transport does not leave the search as a
    [RequestError]. *)
Lemma httpx_errors_never_escape_witness :
  fst (search_destiny_player (H := sample_library)
         (H0 := steady_environment (RaisedRequestError "timed out"))
         "Name#1234" None fresh_state)
  <> Raise (RequestError "timed out").
Proof.
  apply (proj1 (proj2 (httpx_errors_never_escape (H := sample_library)
                         (H0 := steady_environment (RaisedRequestError "timed out"))
                         fresh_state (RequestError "timed out") I))).
Defined.

(** ** Sequences of calls on one session *)

Section Sequences.
Context `{Library} `{Environment}.

(** Every call is a call of [_make_request], or raises [ValueError]
    before anything is done. *)
Lemma perform_cases (c : call) (st : state) :
  (exists rq, perform c st = execute rq st)
  \/ perform c st = (Raise ValueError, st).
Proof.
  destruct c as [rq | display_name platform
                 | membership_type destiny_membership_id components
                 | membership_type destiny_membership_id character_id
                     mode page count];
    cbn [perform].
  - left. exists rq. reflexivity.
  - left. eexists {| rs_method := _ |}. reflexivity.
  - rewrite get_profile_call.
    destruct (str_int membership_type) as [text | e] eqn:Hs.
    + left. eexists {| rs_method := _ |}. reflexivity.
    + right. rewrite (str_int_raise _ _ Hs). reflexivity.
  - rewrite get_activity_history_call.
    destruct (str_int membership_type) as [text | e] eqn:Hs.
    + left. eexists {| rs_method := _ |}. reflexivity.
    + right. rewrite (str_int_raise _ _ Hs). reflexivity.
Qed.

(** A builder calls it with [GET], no body and an endpoint under
    [/Destiny2/]. *)
Lemma builder_cases (c : call) (st : state) :
  is_builder c = true ->
  (exists rq rest,
      perform c st = execute rq st
      /\ rs_method rq = "GET" /\ rs_data rq = None
      /\ rs_endpoint rq = "/Destiny2/" +:+ rest)
  \/ perform c st = (Raise ValueError, st).
Proof.
  destruct c as [rq | display_name platform
                 | membership_type destiny_membership_id components
                 | membership_type destiny_membership_id character_id
                     mode page count];
    [discriminate | | | ]; intros _; cbn [perform].
  - left. eexists {| rs_method := _ |}, _. repeat split.
  - rewrite get_profile_call.
    destruct (str_int membership_type) as [text | e] eqn:Hs.
    + left. eexists {| rs_method := _ |}, _. repeat split.
    + right. rewrite (str_int_raise _ _ Hs). reflexivity.
  - rewrite get_activity_history_call.
    destruct (str_int membership_type) as [text | e] eqn:Hs.
    + left. eexists {| rs_method := _ |}, _. repeat split.
    + right. rewrite (str_int_raise _ _ Hs). reflexivity.
Qed.

Lemma with_last_request_time_twice (s : BungieClient) (t1 t2 : Q) :
  with_last_request_time (with_last_request_time s t1) t2
  = with_last_request_time s t2.
Proof. reflexivity. Qed.

(** One call, as far as the spacing goes: either nothing is dispatched
    and the session is as before, or one request is dispatched, no
    earlier than the time stamp plus the minimum, and the new time
    stamp is no earlier than the dispatch. *)
Lemma execute_spacing (st : state) (rq : RequestSpec) :
  keeps_time _ -> always_responds _ ->
  let st' := snd (execute rq st) in
  _min_time_between_requests (self st') = _min_time_between_requests (self st)
  /\ ((dispatch_times (trace (env st')) = dispatch_times (trace (env st))
       /\ _last_request_time (self st') = _last_request_time (self st))
      \/ exists dc,
           dispatch_times (trace (env st'))
           = (dispatch_times (trace (env st)) ++ [dc])%list
           /\ (_last_request_time (self st) + _min_time_between_requests (self st)
               <= dc)%Q
           /\ (dc <= _last_request_time (self st'))%Q).
Proof.
  intros [Hwake Htransport] Hresp st'. subst st'.
  destruct (build_url (base_url (self st)) (rs_endpoint rq)) as [url | e] eqn:Hurl.
  - destruct (Hresp (dispatch_clock (self st) (clock (env st)))
                (transport_request rq url)) as (r & t & Ht).
    pose proof (Htransport (dispatch_clock (self st) (clock (env st)))
                  (transport_request rq url)) as Hlater.
    rewrite Ht in Hlater. cbn [snd] in Hlater.
    rewrite (execute_responded st rq url r t Hurl Ht). cbn [snd self env].
    split; [reflexivity | right].
    exists (dispatch_clock (self st) (clock (env st))).
    split; [ | split].
    + unfold world_after. cbn [trace].
      rewrite !dispatch_times_app, dispatch_times_throttle. reflexivity.
    + apply dispatch_clock_bound, Hwake.
    + exact Hlater.
  - rewrite (execute_bad_url st rq e Hurl). cbn [snd self env trace].
    split; [reflexivity | left]. split; [ | reflexivity].
    rewrite dispatch_times_app, dispatch_times_throttle, app_nil_r. reflexivity.
Qed.

Lemma run_calls_spacing (gap : Q) (calls : list (Q * call)) :
  keeps_time _ -> always_responds _ ->
  forall (st : state) (lo : Q),
    _min_time_between_requests (self st) = gap ->
    (lo <= _last_request_time (self st))%Q ->
    exists ts,
      dispatch_times (trace (env (run_calls calls st)))
      = (dispatch_times (trace (env st)) ++ ts)%list
      /\ (length ts <= length calls)%nat
      /\ spaced_by gap ts
      /\ (forall t, head ts = Some t -> (lo + gap <= t)%Q).
Proof.
  intros Hkeeps Hresp.
  induction calls as [ | [pause c] calls IH]; intros st lo Hgap Hlo.
  - exists []. rewrite app_nil_r.
    split; [reflexivity | split; [simpl; lia | split; [exact I | discriminate]]].
  - cbn [run_calls].
    set (st0 := resumed_at st (clock (env st) + pause)%Q).
    destruct (perform_cases c st0) as [[rq ->] | ->].
    2:{ destruct (IH st0 lo Hgap Hlo) as (ts & Hts & Hlen & Hsp & Hhd).
        exists ts. split; [exact Hts | ]. split; [simpl; lia | ].
        split; assumption. }
    destruct (execute_spacing st0 rq Hkeeps Hresp) as [Hmin Hstep].
    change (self st0) with (self st) in Hmin, Hstep.
    change (trace (env st0)) with (trace (env st)) in Hstep.
    rewrite Hgap in Hmin, Hstep.
    destruct Hstep as [[Hsame Hlast] | (dc & Hadd & Hdc & Hstamp)].
    + destruct (IH (snd (execute rq st0)) lo Hmin) as (ts & Hts & Hlen & Hsp & Hhd).
      { rewrite Hlast. exact Hlo. }
      exists ts. rewrite Hts, Hsame.
      split; [reflexivity | ]. split; [simpl; lia | ]. split; assumption.
    + destruct (IH (snd (execute rq st0)) dc Hmin Hstamp)
        as (ts & Hts & Hlen & Hsp & Hhd).
      exists (dc :: ts). rewrite Hts, Hadd, <- app_assoc.
      split; [reflexivity | ]. split; [simpl; lia | ].
      split; [ | intros t [= <-]; lra].
      cbn [spaced_by]. split; [ | exact Hsp].
      destruct ts as [ | t2 ts]; [exact I | ].
      apply Hhd. reflexivity.
Qed.

(** One call, as far as the clock goes: when the time stamp is not
    ahead of the clock, a suspension added to the trace was asked for
    more than nothing and no more than the minimum, and the time stamp
    is not ahead of the clock afterwards. *)
Lemma execute_sleep (st : state) (rq : RequestSpec) :
  keeps_time _ ->
  (_last_request_time (self st) <= clock (env st))%Q ->
  let st' := snd (execute rq st) in
  _min_time_between_requests (self st') = _min_time_between_requests (self st)
  /\ (_last_request_time (self st') <= clock (env st'))%Q
  /\ (clock (env st) <= clock (env st'))%Q
  /\ forall t d,
       In (Slept t d) (trace (env st')) ->
       In (Slept t d) (trace (env st))
       \/ (0 < d /\ d <= _min_time_between_requests (self st))%Q.
Proof.
  intros [Hwake Htransport] Hstamp st'.
  pose proof (dispatch_clock_later (self st) (clock (env st)) Hwake) as Hlater.
  assert (Hthrottle : forall t d,
             In (Slept t d) (throttle_events (self st) (clock (env st))) ->
             (0 < d /\ d <= _min_time_between_requests (self st))%Q).
  { intros t d. unfold throttle_events.
    destruct (Qlt_bool _ _) eqn:Hb; [ | intros []].
    apply Qlt_bool_iff in Hb.
    intros [[= <- <-] | []]. split; lra. }
  assert (Hin : forall t d tail,
             (tail = [] \/ exists t' rq', tail = [Dispatched t' rq']) ->
             In (Slept t d)
               (trace (env st) ++ throttle_events (self st) (clock (env st))
                ++ tail)%list ->
             In (Slept t d) (trace (env st))
             \/ (0 < d /\ d <= _min_time_between_requests (self st))%Q).
  { intros t d tail Htail Hi.
    apply in_app_or in Hi as [Hi | Hi]; [left; exact Hi | ].
    apply in_app_or in Hi as [Hi | Hi]; [right; exact (Hthrottle t d Hi) | ].
    destruct Htail as [-> | (t' & rq' & ->)];
      [destruct Hi | destruct Hi as [[=] | []]]. }
  subst st'.
  destruct (build_url (base_url (self st)) (rs_endpoint rq)) as [url | e] eqn:Hurl.
  - destruct (transport (dispatch_clock (self st) (clock (env st)))
                (transport_request rq url)) as [[r | msg | name] t] eqn:Ht;
      pose proof (Htransport (dispatch_clock (self st) (clock (env st)))
                    (transport_request rq url)) as Hdone;
      rewrite Ht in Hdone; cbn [snd] in Hdone;
      [ rewrite (execute_responded st rq url r t Hurl Ht)
      | rewrite (execute_request_error st rq url msg t Hurl Ht)
      | rewrite (execute_other_error st rq url name t Hurl Ht) ];
      unfold world_after;
      cbn [snd self env clock trace with_last_request_time _last_request_time
           _min_time_between_requests];
      (split; [reflexivity | ]); (split; [lra | ]); (split; [lra | ]);
      intros t0 d; apply Hin;
      right; eexists _, _; reflexivity.
  - rewrite (execute_bad_url st rq e Hurl).
    cbn [snd self env clock trace].
    split; [reflexivity | ]. split; [lra | ]. split; [lra | ].
    intros t d Hi. apply (Hin t d []); [left; reflexivity | ].
    rewrite app_nil_r. exact Hi.
Qed.

Lemma run_calls_sleep (gap : Q) (calls : list (Q * call)) :
  keeps_time _ ->
  Forall (fun c => (0 <= fst c)%Q) calls ->
  forall st : state,
    _min_time_between_requests (self st) = gap ->
    (_last_request_time (self st) <= clock (env st))%Q ->
    forall t d,
      In (Slept t d) (trace (env (run_calls calls st))) ->
      In (Slept t d) (trace (env st)) \/ (0 < d /\ d <= gap)%Q.
Proof.
  intros Hkeeps Hpauses.
  induction Hpauses as [ | [pause c] calls Hpause _ IH];
    intros st Hgap Hstamp t d Hi.
  - left. exact Hi.
  - cbn [run_calls] in Hi. cbn [fst] in Hpause.
    set (st0 := resumed_at st (clock (env st) + pause)%Q) in *.
    assert (Hstamp0 : (_last_request_time (self st0) <= clock (env st0))%Q).
    { subst st0. cbn [resumed_at self env clock]. lra. }
    destruct (perform_cases c st0) as [[rq Hc] | Hc]; rewrite Hc in Hi.
    2:{ exact (IH st0 Hgap Hstamp0 t d Hi). }
    destruct (execute_sleep st0 rq Hkeeps Hstamp0) as (Hmin & Hstamp' & _ & Hstep).
    change (self st0) with (self st) in Hmin, Hstep.
    change (trace (env st0)) with (trace (env st)) in Hstep.
    rewrite Hgap in Hmin, Hstep.
    destruct (IH (snd (execute rq st0)) Hmin Hstamp' t d Hi) as [Hold | Hnew];
      [exact (Hstep t d Hold) | right; exact Hnew].
Qed.

(** One call of a builder on the base URL of the client: a request
    added to the trace is a [GET] without body to the host, and the
    base URL is as before. *)
Lemma builder_on_host (st : state) (c : call) :
  is_builder c = true ->
  base_url (self st) = bungie_base ->
  let st' := snd (perform c st) in
  (exists t, self st' = with_last_request_time (self st) t)
  /\ forall t rq,
       In (Dispatched t rq) (trace (env st')) ->
       In (Dispatched t rq) (trace (env st)) \/ on_host rq.
Proof.
  intros Hb Hbase st'. subst st'.
  destruct (builder_cases c st Hb) as [(rq & rest & -> & Hm & Hd & He) | ->].
  2:{ split; [ | intros t rq Hi; left; exact Hi].
      exists (_last_request_time (self st)). cbn [snd].
      destruct (self st). reflexivity. }
  split; [apply execute_frame | ].
  intros t rq' Hi.
  destruct (execute_on_host st rq rest Hbase Hm Hd He)
    as (t' & url & params & Htrace & Hhost).
  rewrite Htrace in Hi.
  apply in_app_or in Hi as [Hi | Hi]; [left; exact Hi | right].
  apply in_app_or in Hi as [Hi | Hi].
  - unfold throttle_events in Hi.
    destruct (Qlt_bool _ _); [destruct Hi as [[=] | []] | destruct Hi].
  - destruct Hi as [[= <- <-] | []]. repeat split. exact Hhost.
Qed.

Lemma run_calls_on_host (calls : list (Q * call)) :
  Forall (fun c => is_builder (snd c) = true) calls ->
  forall st : state,
    base_url (self st) = bungie_base ->
    (exists t, self (run_calls calls st) = with_last_request_time (self st) t)
    /\ forall t rq,
         In (Dispatched t rq) (trace (env (run_calls calls st))) ->
         In (Dispatched t rq) (trace (env st)) \/ on_host rq.
Proof.
  intros Hbuilders.
  induction Hbuilders as [ | [pause c] calls Hb _ IH]; intros st Hbase.
  - cbn [run_calls]. split; [ | intros t rq Hi; left; exact Hi].
    exists (_last_request_time (self st)). destruct (self st). reflexivity.
  - cbn [run_calls]. cbn [snd] in Hb.
    set (st0 := resumed_at st (clock (env st) + pause)%Q).
    destruct (builder_on_host st0 c Hb Hbase) as [[t1 Hself] Hstep].
    change (self st0) with (self st) in Hself.
    change (trace (env st0)) with (trace (env st)) in Hstep.
    destruct (IH (snd (perform c st0))) as [[t2 Hself'] Hrest].
    { rewrite Hself. exact Hbase. }
    split.
    + exists t2. rewrite Hself', Hself. apply with_last_request_time_twice.
    + intros t rq Hi.
      destruct (Hrest t rq Hi) as [Hold | Hnew];
        [exact (Hstep t rq Hold) | right; exact Hnew].
Qed.

End Sequences.

Lemma steady_environment_always_responds (r : httpx.Response) :
  always_responds (steady_environment (Responded r)).
Proof. intros t rq. eexists _, _. reflexivity. Qed.

(** X10. The first call on a session is not delayed: on a session just
    made by [__init__], at a clock reading of 0.1 or more, as every
    reading of [time.time()] is, [_make_request] suspends nothing.  When
    the URL of the endpoint can be built, it adds exactly one event to
    the trace, the dispatch of the request for that URL at the very
    clock reading of the call; when it cannot, it adds nothing. *)
Theorem first_call_not_delayed `{Library} `{Environment}
    (api_key : string) (timeout : Z) (w : world)
    (method endpoint : string) (params data : option (gmap string value)) :
  (1 # 10 <= clock w)%Q ->
  trace (env (snd (_make_request method endpoint params data
                     {| self := __init__ api_key timeout; env := w |})))
  = (trace w
     ++ match build_url bungie_base endpoint with
        | Return url =>
            [Dispatched (clock w)
               {| httpx.method := method; httpx.url := url;
                  httpx.params := params; httpx.json_data := data |}]
        | Raise _ => []
        end)%list.
Proof.
  intros Hclock.
  set (rq := {| rs_method := method; rs_endpoint := endpoint;
                rs_params := params; rs_data := data |}).
  change (_make_request method endpoint params data) with (execute rq).
  rewrite execute_trace. cbn [self env].
  unfold throttle_events, dispatch_clock.
  replace (Qlt_bool (clock w - _last_request_time (__init__ api_key timeout))
             (_min_time_between_requests (__init__ api_key timeout)))
    with false; [reflexivity | ].
  symmetry. destruct (Qlt_bool _ _) eqn:Hb; [ | reflexivity].
  apply Qlt_bool_iff in Hb. cbn in Hb. lra.
Qed.

(** The first search on a fresh session is dispatched at once, at the
    clock reading 1000. *)
Lemma first_call_not_delayed_witness :
  trace (env (snd (_make_request (H := sample_library)
                     (H0 := steady_environment (Responded response_503))
                     "GET" (rs_endpoint search_request) None None fresh_state)))
  = [Dispatched 1000
       {| httpx.method := "GET"; httpx.url := search_url;
          httpx.params := None; httpx.json_data := None |}].
Proof.
  exact (first_call_not_delayed (H := sample_library)
           (H0 := steady_environment (Responded response_503))
           "key" 30 (env fresh_state) "GET" (rs_endpoint search_request)
           None None ltac:(vm_compute; discriminate)).
Defined.

(** X11. In an environment that keeps time and whose transport always
    returns a response, whatever calls are made in sequence on a
    session, with whatever pauses and whatever the responses are, each
    request is dispatched at least the minimum interval after the one
    before, and the first at least the minimum interval after the time
    stamp the session had; and there is at most one dispatch per call. *)
Theorem calls_spaced `{Library} `{Environment}
    (calls : list (Q * call)) (st : state) :
  keeps_time _ ->
  always_responds _ ->
  exists ts,
    dispatch_times (trace (env (run_calls calls st)))
    = (dispatch_times (trace (env st)) ++ ts)%list
    /\ (length ts <= length calls)%nat
    /\ spaced_by (_min_time_between_requests (self st)) ts
    /\ (forall t, head ts = Some t ->
        (_last_request_time (self st) + _min_time_between_requests (self st)
         <= t)%Q).
Proof.
  intros Hkeeps Hresp.
  apply (run_calls_spacing (_min_time_between_requests (self st)) calls
           Hkeeps Hresp st (_last_request_time (self st)) eq_refl).
  apply Qle_refl.
Qed.

(** The three calls of the sample session, each answered with a
    successful envelope after one millisecond. *)
Lemma calls_spaced_witness :
  exists ts,
    dispatch_times
      (trace (env (run_calls (H := sample_library)
                     (H0 := steady_environment
                              (Responded (response_200 (VDict envelope_with_payload))))
                     sample_calls fresh_state)))
    = (dispatch_times (trace (env fresh_state)) ++ ts)%list
    /\ (length ts <= length sample_calls)%nat
    /\ spaced_by (_min_time_between_requests (self fresh_state)) ts
    /\ (forall t, head ts = Some t ->
        (_last_request_time (self fresh_state)
         + _min_time_between_requests (self fresh_state) <= t)%Q).
Proof.
  apply (calls_spaced (H := sample_library)
           (H0 := steady_environment
                    (Responded (response_200 (VDict envelope_with_payload))))
           sample_calls fresh_state).
  - apply steady_environment_keeps_time.
  - apply steady_environment_always_responds.
Defined.

(** X12. In an environment that keeps time, on a session whose time
    stamp is not ahead of the clock, and for a caller whose pauses are
    not negative, the throttle never asks for a suspension longer than
    the minimum interval: every duration that a sequence of calls
    passes to [asyncio.sleep] is more than zero and at most the minimum
    interval, whatever the outcomes of the calls are.  How long the
    event loop then holds the caller is for the environment to say. *)
Theorem suspensions_bounded `{Library} `{Environment}
    (calls : list (Q * call)) (st : state) (t d : Q) :
  keeps_time _ ->
  Forall (fun c => (0 <= fst c)%Q) calls ->
  (_last_request_time (self st) <= clock (env st))%Q ->
  In (Slept t d) (trace (env (run_calls calls st))) ->
  In (Slept t d) (trace (env st))
  \/ (0 < d /\ d <= _min_time_between_requests (self st))%Q.
Proof.
  intros Hkeeps Hpauses Hstamp.
  apply (run_calls_sleep (_min_time_between_requests (self st)) calls
           Hkeeps Hpauses st eq_refl Hstamp).
Qed.

(** The suspension asked for before the second call of the sample
    session: 100 ms, at the clock reading 1000.001. *)
Lemma suspensions_bounded_witness :
  In (Slept (1000001 # 1000) (1000000 # 10000000)) (trace (env fresh_state))
  \/ (0 < 1000000 # 10000000
      /\ 1000000 # 10000000 <= _min_time_between_requests (self fresh_state))%Q.
Proof.
  apply (suspensions_bounded (H := sample_library)
           (H0 := steady_environment
                    (Responded (response_200 (VDict envelope_with_payload))))
           sample_calls fresh_state).
  - apply steady_environment_keeps_time.
  - repeat constructor; vm_compute; discriminate.
  - vm_compute. discriminate.
  - vm_compute. right. left. reflexivity.
Defined.

(** X13. On a session made by [__init__], whatever sequence of calls of
    the three builders is made, with whatever arguments, pauses and
    outcomes, every request that reaches the transport is a [GET]
    without body whose URL begins with [https://www.bungie.net/]; and
    the session is afterwards as [__init__] made it, but for the time
    stamp: the key, the headers and the base URL are never changed. *)
Theorem session_stays_on_host `{Library} `{Environment}
    (api_key : string) (timeout : Z) (w : world) (calls : list (Q * call)) :
  Forall (fun c => is_builder (snd c) = true) calls ->
  let st' := run_calls calls {| self := __init__ api_key timeout; env := w |} in
  (exists t, self st' = with_last_request_time (__init__ api_key timeout) t)
  /\ (forall t rq,
         In (Dispatched t rq) (trace (env st')) ->
         In (Dispatched t rq) (trace w) \/ on_host rq).
Proof.
  intros Hbuilders st'. subst st'.
  apply (run_calls_on_host calls Hbuilders
           {| self := __init__ api_key timeout; env := w |}).
  reflexivity.
Qed.

(** The sample session on a fresh client with the key "key". *)
Lemma session_stays_on_host_witness :
  exists t,
    self (run_calls (H := sample_library)
            (H0 := steady_environment (Responded response_503))
            sample_calls fresh_state)
    = with_last_request_time (__init__ "key" 30) t.
Proof.
  apply (proj1 (session_stays_on_host (H := sample_library)
                  (H0 := steady_environment (Responded response_503))
                  "key" 30 (env fresh_state) sample_calls
                  ltac:(repeat constructor))).
Defined.

(** ** The response interpreter on bodies that are not envelopes *)

(** X14. [handle_bungie_response] raises [AttributeError], not a
    [BungieAPIException], on a decoded body that is not an object: a
    list, a string, a number, a boolean or [null].  And on an object it
    returns an empty value, such as an empty list of results, only when
    the [ErrorCode] field equals 1: an object with an empty [Response]
    and another code, or none, raises. *)
Theorem interpreter_edge_cases `{Library} :
  (forall v, (forall d, v <> VDict d) ->
             handle_bungie_response v = Raise AttributeError)
  /\ (forall d v,
         handle_bungie_response (VDict d) = Return v ->
         empty_value v -> error_code_is_1 d).
Proof.
  split.
  - intros v Hv. destruct v; try reflexivity. destruct (Hv d eq_refl).
  - intros d v. unfold handle_bungie_response.
    destruct (negb (truthy (dict_get d "Response" VNone))
              && negb (eq_1 (dict_get d "ErrorCode" VNone))) eqn:Hif;
      [discriminate | ].
    intros [= <-] Hempty.
    assert (Hfalsy : truthy (dict_get d "Response" (VDict d)) = false).
    { destruct (truthy (dict_get d "Response" (VDict d))) eqn:Ht; [ | reflexivity].
      apply truthy_not_empty in Ht. contradiction. }
    apply andb_false_iff in Hif. rewrite !negb_false_iff in Hif.
    unfold dict_get in *.
    destruct Hif as [Hr | Hc].
    + destruct (d !! "Response"); [congruence | discriminate].
    + destruct (d !! "ErrorCode") as [x | ] eqn:Hx; [ | discriminate].
      exists x. split; [exact Hx | apply eq_1_is_one, Hc].
Qed.

(** A search that finds nobody returns the empty list, and the same
    list under the code 5 raises. *)
Example handle_bungie_response_empty_list `{Library} :
  handle_bungie_response
    (VDict (<["Response" := VList []]> {["ErrorCode" := VInt 1]}))
  = Return (VList [])
  /\ raises (handle_bungie_response
               (VDict (<["Response" := VList []]> {["ErrorCode" := VInt 5]}))).
Proof. split; [reflexivity | eexists; reflexivity]. Qed.

(** ** An endpoint from which no URL can be built *)

(** X15. When [build_url] raises on the endpoint, [_make_request]
    raises the [ValueError] unchanged, after the suspension of the
    throttle if one was due: nothing reaches the transport, and the
    session, time stamp included, is as before. *)
Theorem unbuildable_url_not_dispatched `{Library} `{Environment}
    (st : state) (method endpoint : string)
    (params data : option (gmap string value)) (e : exn) :
  build_url (base_url (self st)) endpoint = Raise e ->
  let out := _make_request method endpoint params data st in
  fst out = Raise ValueError
  /\ self (snd out) = self st
  /\ trace (env (snd out))
     = (trace (env st) ++ throttle_events (self st) (clock (env st)))%list
  /\ dispatch_times (trace (env (snd out))) = dispatch_times (trace (env st)).
Proof.
  intros Hurl out. subst out.
  set (rq := {| rs_method := method; rs_endpoint := endpoint;
                rs_params := params; rs_data := data |}).
  change (_make_request method endpoint params data st) with (execute rq st).
  rewrite (execute_bad_url st rq e Hurl). cbn [fst snd self env trace].
  rewrite (build_url_raise _ _ _ Hurl).
  repeat split.
  rewrite dispatch_times_app, dispatch_times_throttle. apply app_nil_r.
Qed.

(** An endpoint that is a URL of its own with an unclosed bracket in
    its host. *)
Lemma unbuildable_url_not_dispatched_witness :
  fst (_make_request (H := sample_library)
         (H0 := steady_environment (Responded response_503))
         "GET" "http://[::1" None None fresh_state)
  = Raise ValueError
  /\ self (snd (_make_request (H := sample_library)
                  (H0 := steady_environment (Responded response_503))
                  "GET" "http://[::1" None None fresh_state))
     = self fresh_state
  /\ trace (env (snd (_make_request (H := sample_library)
                        (H0 := steady_environment (Responded response_503))
                        "GET" "http://[::1" None None fresh_state)))
     = (trace (env fresh_state)
        ++ throttle_events (self fresh_state) (clock (env fresh_state)))%list
  /\ dispatch_times
       (trace (env (snd (_make_request (H := sample_library)
                           (H0 := steady_environment (Responded response_503))
                           "GET" "http://[::1" None None fresh_state))))
     = dispatch_times (trace (env fresh_state)).
Proof.
  apply (unbuildable_url_not_dispatched (H := sample_library)
           (H0 := steady_environment (Responded response_503))
           fresh_state "GET" "http://[::1" None None ValueError).
  vm_compute. reflexivity.
Defined.

(** ** The rate limit and the text of its header *)

(** X16. A response with status 429 whose [Retry-After] header is the
    text that [str] returns for an integer, a number within the limit
    on digits, makes [_make_request] raise a [BungieRateLimitException]
    whose message holds that very text: [int] reads the number that
    [str] wrote, and the f-string writes it as it was. *)
Theorem rate_limit_message_echoes_header `{Library} `{Environment}
    (st : state) (method endpoint : string)
    (params data : option (gmap string value))
    (url : string) (r : httpx.Response) (t : Q) (n : Z) (text : string) :
  build_url (base_url (self st)) endpoint = Return url ->
  transport (dispatch_clock (self st) (clock (env st)))
    {| httpx.method := method; httpx.url := url;
       httpx.params := params; httpx.json_data := data |}
  = (Responded r, t) ->
  httpx.status_code r = 429 ->
  str_int n = Return text ->
  httpx.Headers_get (httpx.headers r) "Retry-After" = Some text ->
  fst (_make_request method endpoint params data st)
  = Raise (Bungie {| cls := BungieRateLimitException;
                     message := "Rate limit exceeded. Try again after "
                                +:+ text +:+ " seconds.";
                     error_code := VNone;
                     response := HttpResponse r |}).
Proof.
  intros Hurl Ht H429 Hstr Hheader.
  set (rq := {| rs_method := method; rs_endpoint := endpoint;
                rs_params := params; rs_data := data |}).
  change (_make_request method endpoint params data st) with (execute rq st).
  rewrite (execute_responded st rq url r t Hurl Ht). cbn [fst].
  unfold response_outcome.
  rewrite H429, Hheader, (int_of_Z n text Hstr), Hstr. reflexivity.
Qed.

(** A header of 120 seconds. *)
Lemma rate_limit_message_echoes_header_witness :
  fst (_make_request (H := sample_library)
         (H0 := steady_environment (Responded (response_429 (Some "120"))))
         "GET" (rs_endpoint search_request) None None fresh_state)
  = Raise (Bungie (new_error BungieRateLimitException
                     "Rate limit exceeded. Try again after 120 seconds."
                     VNone (HttpResponse (response_429 (Some "120"))))).
Proof.
  apply (rate_limit_message_echoes_header (H := sample_library)
           (H0 := steady_environment (Responded (response_429 (Some "120"))))
           fresh_state "GET" (rs_endpoint search_request) None None
           search_url (response_429 (Some "120")) (1000 + (1 # 1000))%Q 120 "120"
           search_url_built eq_refl eq_refl eq_refl eq_refl).
Defined.
